(** * QuantCrypto Engine: the trade simulator of [Framework/backtester.py]

    A shallow embedding of [Backtester.__init__], [Backtester.run],
    [Backtester._open_trade_from_row] and [Backtester._close_trade], and the
    properties of the closed-trade ledger proved about them.

    Numbers.  Prices, sizes, fees and profit are Python floats in the source.
    They are embedded as exact rationals ([Q]): every cell that the engine
    computes with is a finite number and no rounding is modelled.  Equations
    between computed numbers are therefore stated with [==] ([Qeq]).  A cell
    that may hold [None] or [NaN] (the optional enrichment cells, which the
    source treats alike through [pd.isna]) is an [option Q], [None] standing
    for both.  The [size] cell is read with [float(...)] and is not cleaned:
    it is a number or [NaN], and every product and difference that takes a
    [NaN] is [NaN].  So the size of a trade, its two commissions and, once
    it is closed, its profit are [option Q] too.

    Frames.  A pandas frame is a list of the columns it has and a list of
    rows.  The columns are the ones the engine knows by name; a cell of a
    column that the frame does not have is never read, because the access
    raises first.  Timestamps are integers (already converted by
    [pd.to_datetime]). *)

(** Beyond the simulator, the later parts of the file embed, in the same
    way, the summary of [Framework/metrics.py], the sample strategy of
    [Framework/ema_crossover.py] and its parametrised copy in
    [Framework/report_html.py], the averages, the strength index and two
    oscillators of [Framework/indicators.py], and the month loop of
    [Framework/data_loader.py]. *)

From Stdlib Require Import ZArith QArith Qabs List String Bool Arith Lia Lqa.
From Stdlib Require Import Permutation.
Import ListNotations.

Local Open Scope Q_scope.

(** ** Python numbers *)

(** [a < b] and [a <= b] on floats, as booleans. *)
Definition Qleb (a b : Q) : bool := Qle_bool a b.
Definition Qltb (a b : Q) : bool := negb (Qle_bool b a).

(** Python's [max(a, b)] keeps its first argument unless the second is
    strictly greater; [min(a, b)] unless the second is strictly smaller. *)
Definition py_max (a b : Q) : Q := if Qltb a b then b else a.
Definition py_min (a b : Q) : Q := if Qltb b a then b else a.

(** [a * b] and [a - b] on floats that may be [NaN] ([None]). *)
Definition fmul (a b : option Q) : option Q :=
  match a, b with
  | Some x, Some y => Some (x * y)
  | _, _ => None
  end.

Definition fsub (a b : option Q) : option Q :=
  match a, b with
  | Some x, Some y => Some (x - y)
  | _, _ => None
  end.

(** [max(a, b)] and [min(a, b)] for a number [a] and a [b] that may be
    [NaN]: every comparison with [NaN] is false, so [a] is kept. *)
Definition py_max_nan (a : Q) (b : option Q) : Q :=
  match b with
  | Some b => py_max a b
  | None => a
  end.

Definition py_min_nan (a : Q) (b : option Q) : Q :=
  match b with
  | Some b => py_min a b
  | None => a
  end.

(** ** Exceptions *)

Inductive exn : Type :=
| KeyError (key : string)
| AttributeError (attr : string).

Inductive result (A : Type) : Type :=
| Ok (a : A)
| Raise (e : exn).
Arguments Ok {A} a.
Arguments Raise {A} e.

Definition bind {A B : Type} (r : result A) (k : A -> result B) : result B :=
  match r with
  | Ok a => k a
  | Raise e => Raise e
  end.

Notation "x <- r ;; k" := (bind r (fun x => k))
  (at level 61, r at next level, right associativity).

(** ** Frames *)

Inductive price_col : Type :=
| P_datetime | P_open | P_high | P_low | P_close.

Inductive signal_col : Type :=
| S_datetime | S_signal | S_stop_price | S_take_price | S_size | S_risk
| S_trailing_distance.

Definition price_col_eqb (a b : price_col) : bool :=
  match a, b with
  | P_datetime, P_datetime | P_open, P_open | P_high, P_high
  | P_low, P_low | P_close, P_close => true
  | _, _ => false
  end.

Definition signal_col_eqb (a b : signal_col) : bool :=
  match a, b with
  | S_datetime, S_datetime | S_signal, S_signal
  | S_stop_price, S_stop_price | S_take_price, S_take_price
  | S_size, S_size | S_risk, S_risk
  | S_trailing_distance, S_trailing_distance => true
  | _, _ => false
  end.

(** [c in frame.columns] *)
Definition has_pcol (c : price_col) (cols : list price_col) : bool :=
  existsb (price_col_eqb c) cols.
Definition has_scol (c : signal_col) (cols : list signal_col) : bool :=
  existsb (signal_col_eqb c) cols.

Module PriceRow.
Record t : Type := mk {
  datetime : Z;
  open : Q;
  high : Q;
  low : Q;
  close : Q;
  volume : option Q               (* None: no such attribute, or NaN *)
}.
End PriceRow.

Module SignalRow.
Record t : Type := mk {
  datetime : Z;
  signal : option Z;              (* None: NaN *)
  stop_price : option Q;
  take_price : option Q;
  size : option Q;                (* None: NaN *)
  risk : option Q;
  trailing_distance : option Q
}.
End SignalRow.

Record price_frame : Type := {
  p_columns : list price_col;
  p_rows : list PriceRow.t
}.

Record signal_frame : Type := {
  s_columns : list signal_col;
  s_rows : list SignalRow.t
}.

(** [frame.empty]: no row or no column. *)
Definition frame_empty (f : signal_frame) : bool :=
  match s_columns f, s_rows f with
  | [], _ | _, [] => true
  | _, _ => false
  end.

(** A row of the merged frame [data]: the price row, and the signal row
    joined to it; with no signal row at that timestamp every signal cell of
    the merged row is [NaN]. *)
Module Row.
Record t : Type := mk {
  price : PriceRow.t;
  joined : option SignalRow.t
}.

Definition datetime (r : t) : Z := PriceRow.datetime (price r).
Definition open (r : t) : Q := PriceRow.open (price r).
Definition high (r : t) : Q := PriceRow.high (price r).
Definition low (r : t) : Q := PriceRow.low (price r).
Definition close (r : t) : Q := PriceRow.close (price r).
Definition volume (r : t) : option Q := PriceRow.volume (price r).

(** The cell of [data["signal"].fillna(0).astype(int)]. *)
Definition signal (r : t) : Z :=
  match joined r with
  | Some s =>
      match SignalRow.signal s with
      | Some z => z
      | None => 0%Z
      end
  | None => 0%Z
  end.
End Row.

(** The merged frame: both column lists (the join key once) and the rows. *)
Record data_frame : Type := {
  d_pcols : list price_col;
  d_scols : list signal_col;
  d_rows : list Row.t
}.

(** [pd.merge(self.df, sig, on="datetime", how="left")]: every price row is
    kept, in order; it is repeated for each signal row of its timestamp, in
    the order of the signal frame. *)
Definition merge_row (srows : list SignalRow.t) (p : PriceRow.t) : list Row.t :=
  match filter (fun s => Z.eqb (SignalRow.datetime s) (PriceRow.datetime p)) srows with
  | [] => [Row.mk p None]
  | matches => map (fun s => Row.mk p (Some s)) matches
  end.

Definition merge (df : price_frame) (sig : signal_frame) : data_frame :=
  {| d_pcols := p_columns df;
     d_scols := s_columns sig;
     d_rows := flat_map (merge_row (s_rows sig)) (p_rows df) |}.

(** ** Trades *)

Inductive direction : Type := long | short.

Module Trade.
(** The trade dictionary built by [_open_trade_from_row]. *)
Record t : Type := mk {
  id : nat;
  direction : direction;
  entry_time : Z;
  entry_bar_index : nat;
  entry_price : Q;
  size : option Q;                (* None: NaN *)
  stop_price : option Q;
  take_price : option Q;
  trailing_distance : option Q;
  risk : option Q;
  max_favor : Q;
  max_adverse : Q;
  volume_at_entry : option Q;
  exit_time : option Z;
  exit_bar_index : option nat;
  exit_price : option Q;
  pnl : option Q;                 (* None: not closed yet, or NaN *)
  commission_open : option Q;     (* None: NaN *)
  commission_close : option Q;    (* None: NaN *)
  exit_reason : option string
}.

(** [t["max_favor"] = mf; t["max_adverse"] = ma] *)
Definition set_excursion (tr : t) (mf ma : Q) : t :=
  mk (id tr) (direction tr) (entry_time tr) (entry_bar_index tr)
     (entry_price tr) (size tr) (stop_price tr) (take_price tr)
     (trailing_distance tr) (risk tr) mf ma (volume_at_entry tr)
     (exit_time tr) (exit_bar_index tr) (exit_price tr) (pnl tr)
     (commission_open tr) (commission_close tr) (exit_reason tr).

(** [t["stop_price"] = sp] *)
Definition set_stop_price (tr : t) (sp : Q) : t :=
  mk (id tr) (direction tr) (entry_time tr) (entry_bar_index tr)
     (entry_price tr) (size tr) (Some sp) (take_price tr)
     (trailing_distance tr) (risk tr) (max_favor tr) (max_adverse tr)
     (volume_at_entry tr)
     (exit_time tr) (exit_bar_index tr) (exit_price tr) (pnl tr)
     (commission_open tr) (commission_close tr) (exit_reason tr).

(** The six assignments that end [_close_trade]. *)
Definition set_exit (tr : t) (time : Z) (bar_index : nat) (px : Q)
    (commission : option Q) (net_pnl : option Q) (reason : string) : t :=
  mk (id tr) (direction tr) (entry_time tr) (entry_bar_index tr)
     (entry_price tr) (size tr) (stop_price tr) (take_price tr)
     (trailing_distance tr) (risk tr) (max_favor tr) (max_adverse tr)
     (volume_at_entry tr)
     (Some time) (Some bar_index) (Some px) net_pnl
     (commission_open tr) commission (Some reason).
End Trade.

(** ** The simulator object *)

(** The [config] dictionary: each recognised key may be missing. *)
Record config : Type := {
  cfg_initial_capital : option Q;
  cfg_single_position_mode : option bool;
  cfg_commission_perc : option Q;
  cfg_slippage : option Q
}.

Record Backtester : Type := {
  df : price_frame;
  initial_capital : Q;
  single_position_mode : bool;
  commission_perc : Q;
  slippage : Q
}.

Definition get {A : Type} (o : option A) (default : A) : A :=
  match o with
  | Some a => a
  | None => default
  end.

Definition empty_config : config :=
  {| cfg_initial_capital := None; cfg_single_position_mode := None;
     cfg_commission_perc := None; cfg_slippage := None |}.

(** [Backtester.__init__]: [self.df["datetime"]] raises [KeyError] on a frame
    without that column. *)
Definition __init__ (frame : price_frame) (cfg : option config) : result Backtester :=
  if has_pcol P_datetime (p_columns frame) then
    let c := get cfg empty_config in
    Ok {| df := frame;
          initial_capital := get (cfg_initial_capital c) 1000;
          single_position_mode := get (cfg_single_position_mode c) true;
          commission_perc := get (cfg_commission_perc c) 0;
          slippage := get (cfg_slippage c) 0 |}
  else Raise (KeyError "datetime").

(** [1 if direction == "long" else -1] *)
Definition dir_factor (d : direction) : Q :=
  match d with
  | long => 1
  | short => -1
  end.

(** [Backtester._close_trade] *)
Definition _close_trade (self : Backtester) (trade : Trade.t) (exit_price : Q)
    (exit_time : Z) (exit_bar_index : nat) (exit_reason : string) : Trade.t :=
  let direction := Trade.direction trade in
  let size := Trade.size trade in
  let dir_factor := dir_factor direction in
  let px := exit_price * (1 - dir_factor * slippage self) in
  let commission_close := fmul (Some (commission_perc self * px)) size in
  let gross_pnl :=
    fmul (fmul (Some (px - Trade.entry_price trade)) size) (Some dir_factor) in
  let net_pnl :=
    fsub (fsub gross_pnl (Trade.commission_open trade)) commission_close in
  Trade.set_exit trade exit_time exit_bar_index px commission_close net_pnl
    exit_reason.

(** [Backtester._open_trade_from_row].  The source first cleans each optional
    cell ([NaN] becomes [None]); with [None] standing for both, that step is
    the identity.  The size is not among the cells it cleans: a [NaN] size
    stays, and makes the inferred risk and the commission [NaN].  A row
    without a joined signal row has signal [0], so the source returns before
    reading any of its signal cells. *)
Definition _open_trade_from_row (self : Backtester) (trade_id : nat) (dt : Z)
    (price : Q) (sig_row : Row.t) (bar_index : nat)
    (has_stop has_take has_size has_risk has_trail : bool) : option Trade.t :=
  let sigv := Row.signal sig_row in
  if (sigv =? 0)%Z then None
  else
    match Row.joined sig_row with
    | None => None
    | Some s =>
        let direction := if (0 <? sigv)%Z then long else short in
        let size := if has_size then SignalRow.size s else Some 1 in
        let stop_price := if has_stop then SignalRow.stop_price s else None in
        let take_price := if has_take then SignalRow.take_price s else None in
        let trailing_distance :=
          if has_trail then SignalRow.trailing_distance s else None in
        let risk := if has_risk then SignalRow.risk s else None in
        let risk :=
          match risk, stop_price with
          | None, Some sp => fmul (Some (Qabs (price - sp))) size
          | _, _ => risk
          end in
        let dir_factor := dir_factor direction in
        let entry_px := price * (1 + dir_factor * slippage self) in
        let commission_open :=
          fmul (Some (commission_perc self * entry_px)) size in
        Some {| Trade.id := trade_id;
                Trade.direction := direction;
                Trade.entry_time := dt;
                Trade.entry_bar_index := bar_index;
                Trade.entry_price := entry_px;
                Trade.size := size;
                Trade.stop_price := stop_price;
                Trade.take_price := take_price;
                Trade.trailing_distance := trailing_distance;
                Trade.risk := risk;
                Trade.max_favor := 0;
                Trade.max_adverse := 0;
                Trade.volume_at_entry := Row.volume sig_row;
                Trade.exit_time := None;
                Trade.exit_bar_index := None;
                Trade.exit_price := None;
                Trade.pnl := None;
                Trade.commission_open := commission_open;
                Trade.commission_close := Some 0;
                Trade.exit_reason := None |}
    end.

(** ** The bar loop of [Backtester.run] *)

(** Lines 88-97: the running extremes of the unrealised profit. *)
Definition update_excursion (h l : Q) (t : Trade.t) : Trade.t :=
  let size := Trade.size t in
  let entry_px := Trade.entry_price t in
  let '(best_pnl, worst_pnl) :=
    match Trade.direction t with
    | long =>
        (fmul (Some (h - entry_px)) size, fmul (Some (l - entry_px)) size)
    | short =>
        (fmul (Some (entry_px - l)) size, fmul (Some (entry_px - h)) size)
    end in
  Trade.set_excursion t (py_max_nan (Trade.max_favor t) best_pnl)
                        (py_min_nan (Trade.max_adverse t) worst_pnl).

(** Lines 102-116: the trailing stop. *)
Definition trail_stop (c : Q) (t : Trade.t) : Trade.t :=
  match Trade.trailing_distance t with
  | None => t
  | Some dist =>
      match Trade.direction t with
      | long =>
          let new_stop := c - dist in
          match Trade.stop_price t with
          | None => Trade.set_stop_price t new_stop
          | Some sp => Trade.set_stop_price t (py_max sp new_stop)
          end
      | short =>
          let new_stop := c + dist in
          match Trade.stop_price t with
          | None => Trade.set_stop_price t new_stop
          | Some sp => Trade.set_stop_price t (py_min sp new_stop)
          end
      end
  end.

(** Lines 122-134: [hit_sl] and [hit_tp]. *)
Definition hit_sl (h l : Q) (t : Trade.t) : bool :=
  match Trade.stop_price t with
  | None => false
  | Some sp =>
      match Trade.direction t with
      | long => Qleb l sp
      | short => Qleb sp h
      end
  end.

Definition hit_tp (h l : Q) (t : Trade.t) : bool :=
  match Trade.take_price t with
  | None => false
  | Some tp =>
      match Trade.direction t with
      | long => Qleb tp h
      | short => Qleb l tp
      end
  end.

(** Lines 136-142: [(exit_price, exit_reason)], or [None] when neither is
    hit. *)
Definition exit_decision (h l : Q) (t : Trade.t) : option (Q * string) :=
  if hit_sl h l t || hit_tp h l t then
    if hit_sl h l t then
      match Trade.stop_price t with
      | Some sp => Some (sp, "sl"%string)
      | None => None
      end
    else
      match Trade.take_price t with
      | Some tp => Some (tp, "tp"%string)
      | None => None
      end
  else None.

(** The three updates a bar makes to an open trade, in the order of the
    source. *)
Definition update_trade (h l c : Q) (t : Trade.t) : Trade.t :=
  trail_stop c (update_excursion h l t).

(** Lines 82-153: [for t in open_trades], with [still_open] and
    [closed_trades] grown by [append]. *)
Fixpoint update_open_trades (self : Backtester) (dt : Z) (h l c : Q)
    (bar_index : nat) (open_trades still_open closed_trades : list Trade.t)
    : list Trade.t * list Trade.t :=
  match open_trades with
  | [] => (still_open, closed_trades)
  | t :: rest =>
      let t := update_trade h l c t in
      match exit_decision h l t with
      | Some (exit_price, exit_reason) =>
          update_open_trades self dt h l c bar_index rest still_open
            (closed_trades
               ++ [_close_trade self t exit_price dt bar_index exit_reason])
      | None =>
          update_open_trades self dt h l c bar_index rest
            (still_open ++ [t]) closed_trades
      end
  end.

Record state : Type := {
  open_trades : list Trade.t;
  closed_trades : list Trade.t;
  trade_id : nat
}.

(** [row.open] and the like on a tuple of [data.itertuples()]. *)
Definition attr (c : price_col) (name : string) (cols : list price_col)
    (v : Q) : result Q :=
  if has_pcol c cols then Ok v else Raise (AttributeError name).

(** [open_trades.append(new_trade); trade_id += 1], when a trade was built. *)
Definition append_new (new_trade : option Trade.t) (open_trades : list Trade.t)
    (closed_trades : list Trade.t) (trade_id : nat) : state :=
  match new_trade with
  | Some nt =>
      {| open_trades := open_trades ++ [nt];
         closed_trades := closed_trades;
         trade_id := S trade_id |}
  | None =>
      {| open_trades := open_trades;
         closed_trades := closed_trades;
         trade_id := trade_id |}
  end.

(** Lines 75-190: the body of [for bar_index, row in enumerate(...)]. *)
Definition bar_step (self : Backtester) (data : data_frame) (bar_index : nat)
    (row : Row.t) (st : state) : result state :=
  let has_stop := has_scol S_stop_price (d_scols data) in
  let has_take := has_scol S_take_price (d_scols data) in
  let has_size := has_scol S_size (d_scols data) in
  let has_risk := has_scol S_risk (d_scols data) in
  let has_trail := has_scol S_trailing_distance (d_scols data) in
  let dt := Row.datetime row in
  _o <- attr P_open "open" (d_pcols data) (Row.open row) ;;
  h <- attr P_high "high" (d_pcols data) (Row.high row) ;;
  l <- attr P_low "low" (d_pcols data) (Row.low row) ;;
  c <- attr P_close "close" (d_pcols data) (Row.close row) ;;
  let sigv := Row.signal row in
  let '(open_trades, closed_trades) :=
    update_open_trades self dt h l c bar_index (open_trades st) []
      (closed_trades st) in
  if single_position_mode self && negb (sigv =? 0)%Z
     && (0 <? List.length open_trades)%nat
  then
    let closed_trades :=
      closed_trades
        ++ map (fun t => _close_trade self t c dt bar_index "signal")
             open_trades in
    let new_trade :=
      _open_trade_from_row self (trade_id st) dt c row bar_index
        has_stop has_take has_size has_risk has_trail in
    Ok (append_new new_trade [] closed_trades (trade_id st))
  else if negb (sigv =? 0)%Z then
    if single_position_mode self && (0 <? List.length open_trades)%nat then
      Ok {| open_trades := open_trades; closed_trades := closed_trades;
            trade_id := trade_id st |}
    else
      let new_trade :=
        _open_trade_from_row self (trade_id st) dt c row bar_index
          has_stop has_take has_size has_risk has_trail in
      Ok (append_new new_trade open_trades closed_trades (trade_id st))
  else
    Ok {| open_trades := open_trades; closed_trades := closed_trades;
          trade_id := trade_id st |}.

(** [for bar_index, row in enumerate(data.itertuples())], from [bar_index]
    on. *)
Fixpoint bar_loop (self : Backtester) (data : data_frame) (bar_index : nat)
    (rows : list Row.t) (st : state) : result state :=
  match rows with
  | [] => Ok st
  | row :: rest =>
      st' <- bar_step self data bar_index row st ;;
      bar_loop self data (S bar_index) rest st'
  end.

Definition initial_state : state :=
  {| open_trades := []; closed_trades := []; trade_id := 0 |}.

(** Lines 195-204: what is still open is closed on the last row. *)
Definition close_eod (self : Backtester) (data : data_frame) (st : state)
    : list Trade.t :=
  match open_trades st with
  | [] => closed_trades st
  | _ :: _ =>
      match last (map Some (d_rows data)) None with
      | None => closed_trades st
      | Some last_row =>
          let last_dt := Row.datetime last_row in
          let last_c := Row.close last_row in
          let last_idx := (List.length (d_rows data) - 1)%nat in
          closed_trades st
            ++ map (fun t => _close_trade self t last_c last_dt last_idx "eod")
                 (open_trades st)
      end
  end.

(** ** The ledger returned by [Backtester.run] *)

Module LedgerRow.
(** A row of [trades_df]: the closed trade and the derived columns. *)
Record t : Type := mk {
  trade : Trade.t;
  duration : option Z;
  bars_in_trade : option Z;
  result : string;
  risk_reward : option Q
}.
End LedgerRow.

(** Lines 212-232, for one trade. *)
Definition aggregate (t : Trade.t) : LedgerRow.t :=
  let duration :=
    match Trade.exit_time t with
    | Some x => Some (x - Trade.entry_time t)%Z
    | None => None
    end in
  let bars_in_trade :=
    match Trade.exit_bar_index t with
    | Some x => Some (Z.of_nat x - Z.of_nat (Trade.entry_bar_index t))%Z
    | None => None
    end in
  let result :=
    match Trade.pnl t with
    | Some pnl =>
        if Qltb 0 pnl then "win"%string
        else if Qltb pnl 0 then "loss"%string
        else "be"%string
    | None => "be"%string
    end in
  let risk_reward :=
    match Trade.risk t, Trade.pnl t with
    | Some risk, Some pnl =>
        if Qeq_bool risk 0 then None else Some (pnl / risk)
    | _, _ => None
    end in
  LedgerRow.mk t duration bars_in_trade result risk_reward.

(** [data["signal"] = 0], for a merged frame without that column. *)
Definition assign_signal_zero (data : data_frame) : data_frame :=
  let zero (s : SignalRow.t) : SignalRow.t :=
    SignalRow.mk (SignalRow.datetime s) (Some 0%Z) (SignalRow.stop_price s)
      (SignalRow.take_price s) (SignalRow.size s) (SignalRow.risk s)
      (SignalRow.trailing_distance s) in
  {| d_pcols := d_pcols data;
     d_scols := d_scols data ++ [S_signal];
     d_rows :=
       map (fun r => Row.mk (Row.price r)
                       match Row.joined r with
                       | Some s => Some (zero s)
                       | None => None
                       end)
           (d_rows data) |}.

(** Lines 45-59: the merged frame that the bar loop walks. *)
Definition prepare (self : Backtester) (signals : signal_frame)
    : result data_frame :=
  if negb (has_scol S_datetime (s_columns signals)) then
    Raise (KeyError "datetime")
  else if negb (has_pcol P_datetime (p_columns (df self))) then
    Raise (KeyError "datetime")
  else
    let data := merge (df self) signals in
    if has_scol S_signal (d_scols data) then Ok data
    else Ok (assign_signal_zero data).

(** The trades of the ledger, before the derived columns are added. *)
Definition run_trades (self : Backtester) (signals : option signal_frame)
    : result (list Trade.t) :=
  match signals with
  | None => Ok []
  | Some signals =>
      if frame_empty signals then Ok []
      else
        data <- prepare self signals ;;
        st <- bar_loop self data 0 (d_rows data) initial_state ;;
        Ok (close_eod self data st)
  end.

(** [Backtester.run] *)
Definition run (self : Backtester) (signals : option signal_frame)
    : result (list LedgerRow.t) :=
  closed_trades <- run_trades self signals ;;
  Ok (map aggregate closed_trades).

(** ** Where the trades of a run come from *)

(** [_open_trade_from_row] as the bar loop calls it on a row of [data]: at
    the row's close, with the column flags of lines 61-65. *)
Definition open_row (self : Backtester) (data : data_frame) (trade_id : nat)
    (bar_index : nat) (row : Row.t) : option Trade.t :=
  _open_trade_from_row self trade_id (Row.datetime row) (Row.close row) row
    bar_index
    (has_scol S_stop_price (d_scols data))
    (has_scol S_take_price (d_scols data))
    (has_scol S_size (d_scols data))
    (has_scol S_risk (d_scols data))
    (has_scol S_trailing_distance (d_scols data)).

(** [update_trade] and [exit_decision] with the high, low and close of a
    row. *)
Definition update_on (row : Row.t) (t : Trade.t) : Trade.t :=
  update_trade (Row.high row) (Row.low row) (Row.close row) t.

Definition exit_on (row : Row.t) (t : Trade.t) : option (Q * string) :=
  exit_decision (Row.high row) (Row.low row) t.

(** The state of the loop after the first [k] bars. *)
Definition state_after (self : Backtester) (data : data_frame) (k : nat)
    : result state :=
  bar_loop self data 0 (firstn k (d_rows data)) initial_state.

(** [open_before self data k t]: [t] is what a trade looks like when bar [k]
    starts.  It was built on an earlier bar by [_open_trade_from_row] from
    that bar's close, and every bar since has updated it without closing
    it. *)
Inductive open_before (self : Backtester) (data : data_frame)
    : nat -> Trade.t -> Prop :=
| ob_new k row tid nt :
    nth_error (d_rows data) k = Some row ->
    open_row self data tid k row = Some nt ->
    open_before self data (S k) nt
| ob_keep k row t :
    open_before self data k t ->
    nth_error (d_rows data) k = Some row ->
    exit_on row (update_on row t) = None ->
    open_before self data (S k) (update_on row t).

(** [closed_in_loop self data t]: [t] was closed inside the bar loop, by its
    stop or target, or by a signal in single-position mode. *)
Inductive closed_in_loop (self : Backtester) (data : data_frame)
    : Trade.t -> Prop :=
| cl_hit k row t exit_price exit_reason :
    open_before self data k t ->
    nth_error (d_rows data) k = Some row ->
    exit_on row (update_on row t) = Some (exit_price, exit_reason) ->
    closed_in_loop self data
      (_close_trade self (update_on row t) exit_price (Row.datetime row) k
         exit_reason)
| cl_signal k row t :
    open_before self data k t ->
    nth_error (d_rows data) k = Some row ->
    exit_on row (update_on row t) = None ->
    single_position_mode self = true ->
    Row.signal row <> 0%Z ->
    closed_in_loop self data
      (_close_trade self (update_on row t) (Row.close row) (Row.datetime row)
         k "signal").

(** [closed_at_end self data t]: [t] was still open after the last bar and
    was closed there. *)
Inductive closed_at_end (self : Backtester) (data : data_frame)
    : Trade.t -> Prop :=
| cl_eod t last_row :
    open_before self data (List.length (d_rows data)) t ->
    nth_error (d_rows data) (List.length (d_rows data) - 1) = Some last_row ->
    closed_at_end self data
      (_close_trade self t (Row.close last_row) (Row.datetime last_row)
         (List.length (d_rows data) - 1) "eod").

(** ** Words of the specification *)

(** Gross profit of a closed trade. *)
Definition gross (d : direction) (entry_price exit_price size : Q) : Q :=
  match d with
  | long => (exit_price - entry_price) * size
  | short => (entry_price - exit_price) * size
  end.

(** The same on floats: [NaN] when the size is. *)
Definition fgross (d : direction) (entry_price exit_price : Q)
    (size : option Q) : option Q :=
  match d with
  | long => fmul (Some (exit_price - entry_price)) size
  | short => fmul (Some (entry_price - exit_price)) size
  end.

(** Two floats hold the same value: equal numbers, or [NaN] both. *)
Definition feq (a b : option Q) : Prop :=
  match a, b with
  | Some x, Some y => x == y
  | None, None => True
  | _, _ => False
  end.

(** Net profit reconciles with the prices, the size and the fees on the
    record, which are all numbers. *)
Definition reconciled (t : Trade.t) : Prop :=
  exists px pnl sz co cc,
    Trade.exit_price t = Some px /\
    Trade.pnl t = Some pnl /\
    Trade.size t = Some sz /\
    Trade.commission_open t = Some co /\
    Trade.commission_close t = Some cc /\
    pnl == gross (Trade.direction t) (Trade.entry_price t) px sz - co - cc.

(** A record whose size is [NaN]: so are its two commissions and its net
    profit. *)
Definition nan_sized (t : Trade.t) : Prop :=
  Trade.size t = None /\ Trade.commission_open t = None /\
  Trade.commission_close t = None /\ Trade.pnl t = None.

(** The stop and the target of a trade are touched by a bar. *)
Definition stop_touched (h l : Q) (t : Trade.t) : Prop :=
  exists sp,
    Trade.stop_price t = Some sp /\
    match Trade.direction t with
    | long => l <= sp
    | short => sp <= h
    end.

Definition take_touched (h l : Q) (t : Trade.t) : Prop :=
  exists tp,
    Trade.take_price t = Some tp /\
    match Trade.direction t with
    | long => tp <= h
    | short => l <= tp
    end.

(** A stop moves in the favourable direction, or is set for the first
    time. *)
Definition stop_not_worse (d : direction) (before after : option Q) : Prop :=
  match before, after with
  | Some a, Some b =>
      match d with
      | long => a <= b
      | short => b <= a
      end
  | None, _ => True
  | Some _, None => False
  end.

(** The candidate stop of the trailing ratchet. *)
Definition candidate_stop (d : direction) (c dist : Q) : Q :=
  match d with
  | long => c - dist
  | short => c + dist
  end.

(** The stops a trade holds, bar after bar, while the bars update it. *)
Fixpoint stops_over (t : Trade.t) (bars : list Row.t) : list (option Q) :=
  match bars with
  | [] => [Trade.stop_price t]
  | row :: rest => Trade.stop_price t :: stops_over (update_on row t) rest
  end.

(** One step of the ratchet, in the words of the specification: after it
    there is a stop; it is not worse than the candidate; when there was no
    stop it is the candidate, and otherwise it is not worse than the stop
    before and is that stop or the candidate. *)
Definition ratchet_step (d : direction) (cand : Q) (before after : option Q)
    : Prop :=
  exists a,
    after = Some a /\
    stop_not_worse d (Some cand) (Some a) /\
    match before with
    | None => a = cand
    | Some s => stop_not_worse d (Some s) (Some a) /\ (a = s \/ a = cand)
    end.

(** The stops of a trade follow the ratchet over the bars that update it. *)
Fixpoint ratchets (d : direction) (dist : Q) (stops : list (option Q))
    (bars : list Row.t) : Prop :=
  match stops, bars with
  | before :: ((after :: _) as rest), row :: bars' =>
      ratchet_step d (candidate_stop d (Row.close row) dist) before after /\
      ratchets d dist rest bars'
  | _, _ => True
  end.

(** Each element of a list is related to the next one. *)
Fixpoint chain {A : Type} (R : A -> A -> Prop) (l : list A) : Prop :=
  match l with
  | a :: ((b :: _) as rest) => R a b /\ chain R rest
  | _ => True
  end.

(** The excursions of a trade have the right signs. *)
Definition excursions_signed (t : Trade.t) : Prop :=
  0 <= Trade.max_favor t /\ Trade.max_adverse t <= 0.

(** All four price columns. *)
Definition has_ohlc (cols : list price_col) : bool :=
  has_pcol P_open cols && has_pcol P_high cols && has_pcol P_low cols
  && has_pcol P_close cols.

(** What the loop over the open trades keeps open, and what it closes. *)
Definition kept (h l c : Q) (ots : list Trade.t) : list Trade.t :=
  filter (fun t => match exit_decision h l t with
                   | None => true
                   | Some _ => false
                   end)
         (map (update_trade h l c) ots).

Definition exited (self : Backtester) (dt : Z) (h l c : Q) (bar_index : nat)
    (ots : list Trade.t) : list Trade.t :=
  flat_map (fun t => match exit_decision h l t with
                     | Some (p, r) => [_close_trade self t p dt bar_index r]
                     | None => []
                     end)
           (map (update_trade h l c) ots).

(** The open trades are open since an earlier bar and the closed ones were
    closed by the loop. *)
Definition traced (self : Backtester) (data : data_frame) (k : nat)
    (st : state) : Prop :=
  Forall (open_before self data k) (open_trades st) /\
  Forall (closed_in_loop self data) (closed_trades st).

(** The trade identifiers handed out so far are those of the open and the
    closed trades, each once. *)
Definition ids_exact (st : state) : Prop :=
  Permutation (map Trade.id (closed_trades st ++ open_trades st))
              (seq 0 (trade_id st)).

(** A trade after the updates of a run of bars. *)
Fixpoint updated_over (t : Trade.t) (bars : list Row.t) : Trade.t :=
  match bars with
  | [] => t
  | row :: rest => updated_over (update_on row t) rest
  end.

(** The bars [a], ..., [b - 1]. *)
Definition slice {A : Type} (l : list A) (a b : nat) : list A :=
  firstn (b - a) (skipn a l).

(** [lived self data e j t0 u]: the trade built as [t0] on bar [e] has been
    updated by the bars [e + 1], ..., [j - 1], which left it as [u]. *)
Definition lived (self : Backtester) (data : data_frame) (e j : nat)
    (t0 u : Trade.t) : Prop :=
  exists row0,
    (e < j <= List.length (d_rows data))%nat /\
    nth_error (d_rows data) e = Some row0 /\
    open_row self data (Trade.id t0) e row0 = Some t0 /\
    u = updated_over t0 (slice (d_rows data) (S e) j).

(** The [risk] and [stop_price] cells that [_open_trade_from_row] reads on a
    row of [data], after its cleaning of [NaN]. *)
Definition supplied_risk (data : data_frame) (row : Row.t) : option Q :=
  if has_scol S_risk (d_scols data) then
    match Row.joined row with
    | Some s => SignalRow.risk s
    | None => None
    end
  else None.

(** The [size] that [_open_trade_from_row] reads on a row of [data]: the
    cell of the [size] column, which may be [NaN], and 1 without that
    column. *)
Definition supplied_size (data : data_frame) (row : Row.t) : option Q :=
  if has_scol S_size (d_scols data) then
    match Row.joined row with
    | Some s => SignalRow.size s
    | None => None
    end
  else Some 1.

Definition supplied_stop (data : data_frame) (row : Row.t) : option Q :=
  if has_scol S_stop_price (d_scols data) then
    match Row.joined row with
    | Some s => SignalRow.stop_price s
    | None => None
    end
  else None.

(** ** Worked runs *)

(** Defaults for reading a result. *)
Definition ledger_of (r : result (list LedgerRow.t)) : list LedgerRow.t :=
  match r with
  | Ok rows => rows
  | Raise _ => []
  end.

Definition state_of (r : result state) : state :=
  match r with
  | Ok st => st
  | Raise _ => initial_state
  end.

Definition no_trade : Trade.t :=
  Trade.mk 0 long 0 0 0 (Some 0) None None None None 0 0 None None None None
    None (Some 0) (Some 0) None.

Definition ohlc : list price_col := [P_datetime; P_open; P_high; P_low; P_close].

Definition flat_bar (dt : Z) (px : Q) : PriceRow.t :=
  PriceRow.mk dt px px px px None.

Definition plain_signal (dt : Z) (s : Z) : SignalRow.t :=
  SignalRow.mk dt (Some s) None None (Some 1) None None.

Definition default_bt (frame : price_frame) : Backtester :=
  {| df := frame; initial_capital := 1000; single_position_mode := true;
     commission_perc := 0; slippage := 0 |}.

(** Scenario A: one long signal on bar 0 (close 100), last bar 4 closes at
    110. *)
Definition scenario_A_prices : price_frame :=
  {| p_columns := ohlc;
     p_rows := [flat_bar 0 100; flat_bar 1 102; flat_bar 2 104;
                flat_bar 3 106; flat_bar 4 110] |}.

Definition scenario_A_signals : signal_frame :=
  {| s_columns := [S_datetime; S_signal];
     s_rows := [plain_signal 0 1] |}.

(** What the worked runs below show of a ledger: per row the identifier,
    the direction, the entry and exit bars, the exit reason, the exit price
    and the net profit. *)
Definition summary (r : result (list LedgerRow.t))
    : list (nat * direction * nat * option nat * option string * option Q
            * option Q) :=
  match r with
  | Ok rows =>
      map (fun lr =>
             let t := LedgerRow.trade lr in
             (Trade.id t, Trade.direction t, Trade.entry_bar_index t,
              Trade.exit_bar_index t, Trade.exit_reason t,
              option_map Qred (Trade.exit_price t),
              option_map Qred (Trade.pnl t)))
          rows
  | Raise _ => []
  end.

(** Scenario B: a long trade at 100 with its stop at 95; bar 2 trades between
    94 and 101. *)
Definition scenario_B_prices : price_frame :=
  {| p_columns := ohlc;
     p_rows := [flat_bar 0 100; PriceRow.mk 1 100 102 99 101 None;
                PriceRow.mk 2 100 101 94 97 None; flat_bar 3 98] |}.

Definition scenario_B_signals : signal_frame :=
  {| s_columns := [S_datetime; S_signal; S_stop_price];
     s_rows := [SignalRow.mk 0 (Some 1%Z) (Some 95) None (Some 1) None None] |}.

(** Scenarios C and D: single-position mode, fees of 0.001 and slippage of
    0.0005; a long signal on bar 0 (close 100) and a short one on bar 2. *)
Definition scenario_D_bt : Backtester :=
  {| df := scenario_A_prices; initial_capital := 1000;
     single_position_mode := true;
     commission_perc := 1 # 1000; slippage := 5 # 10000 |}.

Definition scenario_D_signals : signal_frame :=
  {| s_columns := [S_datetime; S_signal];
     s_rows := [plain_signal 0 1; plain_signal 2 (-1)] |}.

Definition scenario_D_ledger : list LedgerRow.t :=
  Eval vm_compute in ledger_of (run scenario_D_bt (Some scenario_D_signals)).

Definition scenario_D_data : data_frame :=
  Eval vm_compute in merge (df scenario_D_bt) scenario_D_signals.

Definition scenario_D_state_3 : state :=
  Eval vm_compute in state_of (state_after scenario_D_bt scenario_D_data 3).

(** Hedge mode over the same bars and signals: the second signal adds a
    trade and closes nothing. *)
Definition hedge_bt : Backtester :=
  {| df := scenario_A_prices; initial_capital := 1000;
     single_position_mode := false; commission_perc := 0; slippage := 0 |}.

(** A long trade at 100 with its stop at 95 and its target at 105; bar 1
    trades between 94 and 106 and touches both. *)
Definition tie_bt : Backtester :=
  default_bt
    {| p_columns := ohlc;
       p_rows := [flat_bar 0 100; PriceRow.mk 1 100 106 94 100 None;
                  flat_bar 2 100] |}.

Definition tie_signals : signal_frame :=
  {| s_columns := [S_datetime; S_signal; S_stop_price; S_take_price];
     s_rows := [SignalRow.mk 0 (Some 1%Z) (Some 95) (Some 105) (Some 1) None
                  None] |}.

Definition tie_data : data_frame :=
  Eval vm_compute in merge (df tie_bt) tie_signals.

Definition tie_row_1 : Row.t :=
  Row.mk (PriceRow.mk 1 100 106 94 100 None) None.

Definition tie_state_1 : state :=
  Eval vm_compute in state_of (state_after tie_bt tie_data 1).

Definition tie_state_2 : state :=
  Eval vm_compute in state_of (state_after tie_bt tie_data 2).

(** A long trade at 100 that trails its stop 5 below the close and has no
    stop at entry; the closes are 100, 104, 110, 108, 104. *)
Definition trail_bt : Backtester :=
  default_bt
    {| p_columns := ohlc;
       p_rows := [flat_bar 0 100; flat_bar 1 104; flat_bar 2 110;
                  flat_bar 3 108; flat_bar 4 104] |}.

Definition trail_signals : signal_frame :=
  {| s_columns := [S_datetime; S_signal; S_trailing_distance];
     s_rows := [SignalRow.mk 0 (Some 1%Z) None None (Some 1) None (Some 5)] |}.

Definition trail_data : data_frame :=
  Eval vm_compute in merge (df trail_bt) trail_signals.

Definition trail_state_4 : state :=
  Eval vm_compute in state_of (state_after trail_bt trail_data 4).

Definition trail_trade_4 : Trade.t :=
  Eval vm_compute in hd no_trade (open_trades trail_state_4).

(** A long signal on bar 0 (close 100) with its stop at 95 and no risk,
    under the fees and slippage of scenario D. *)
Definition risk_signals : signal_frame :=
  {| s_columns := [S_datetime; S_signal; S_stop_price];
     s_rows := [SignalRow.mk 0 (Some 1%Z) (Some 95) None (Some 1) None None] |}.

Definition risk_ledger : list LedgerRow.t :=
  Eval vm_compute in ledger_of (run scenario_D_bt (Some risk_signals)).

Definition risk_trade : Trade.t :=
  Eval vm_compute in LedgerRow.trade (hd (aggregate no_trade) risk_ledger).

(** A long trade opened on a bar (high 101, low 90, close 100) that already
    trades through its stop at 95 and its target at 100.5. *)
Definition breach_bt : Backtester :=
  default_bt
    {| p_columns := ohlc;
       p_rows := [PriceRow.mk 0 100 101 90 100 None; flat_bar 1 100] |}.

Definition breach_signals : signal_frame :=
  {| s_columns := [S_datetime; S_signal; S_stop_price; S_take_price];
     s_rows := [SignalRow.mk 0 (Some 1%Z) (Some 95) (Some (1005 # 10))
                  (Some 1) None None] |}.

Definition breach_data : data_frame :=
  Eval vm_compute in merge (df breach_bt) breach_signals.

Definition breach_ledger : list LedgerRow.t :=
  Eval vm_compute in ledger_of (run breach_bt (Some breach_signals)).

Definition breach_state_1 : state :=
  Eval vm_compute in state_of (state_after breach_bt breach_data 1).

Definition breach_trade_1 : Trade.t :=
  Eval vm_compute in hd no_trade (open_trades breach_state_1).

(** A price frame without the [open] column, and a signal frame without
    rows. *)
Definition no_open_prices : price_frame :=
  {| p_columns := [P_datetime; P_high; P_low; P_close];
     p_rows := [flat_bar 0 100; flat_bar 1 101] |}.

Definition no_signals : signal_frame :=
  {| s_columns := [S_datetime; S_signal]; s_rows := [] |}.

Definition no_open_bt : Backtester :=
  Eval vm_compute in
    match __init__ no_open_prices None with
    | Ok bt => bt
    | Raise _ => default_bt no_open_prices
    end.


(** ** More words about a run *)

(** The bars of a merged frame that carry a signal. *)
Definition signal_bars (rows : list Row.t) : list Row.t :=
  filter (fun r => negb (Row.signal r =? 0)%Z) rows.

(** The exit bar of the first trade is not after the entry bar of the
    second. *)
Definition exits_before_entry (x y : Trade.t) : Prop :=
  exists j,
    Trade.exit_bar_index x = Some j /\ (j <= Trade.entry_bar_index y)%nat.

(** The exit bar of the first trade is not after the exit bar of the
    second. *)
Definition exits_no_later (x y : Trade.t) : Prop :=
  exists i j,
    Trade.exit_bar_index x = Some i /\ Trade.exit_bar_index y = Some j /\
    (i <= j)%nat.

(** A trade was closed on a bar before bar [k]. *)
Definition exited_before (k : nat) (x : Trade.t) : Prop :=
  exists j, Trade.exit_bar_index x = Some j /\ (j < k)%nat.

Definition tie_ledger : list LedgerRow.t :=
  Eval vm_compute in ledger_of (run tie_bt (Some tie_signals)).

(** A long signal on the only bar of the data, under the fees and slippage
    of scenario D. *)
Definition one_bar_bt : Backtester :=
  {| df := {| p_columns := ohlc; p_rows := [flat_bar 0 100] |};
     initial_capital := 1000; single_position_mode := true;
     commission_perc := 1 # 1000; slippage := 5 # 10000 |}.

Definition one_bar_ledger : list LedgerRow.t :=
  Eval vm_compute in ledger_of (run one_bar_bt (Some scenario_A_signals)).

(** A signal frame without the [signal] column. *)
Definition unsigned_signals : signal_frame :=
  {| s_columns := [S_datetime; S_stop_price];
     s_rows := [SignalRow.mk 0 (Some 1%Z) (Some 95) None (Some 1) None None] |}.

(** * Performance metrics: [Framework/metrics.py]

    The [trades] frame is the ledger; the functions below read its [pnl]
    column only.  A cell of that column is a number or [NaN] ([None]), and
    the pandas reductions skip [NaN] as they do by default.  A quotient can
    be infinite or undefined, so the drawdown and the profit factor live in
    the numbers extended with both infinities and [NaN]. *)

From Stdlib Require Import Qround.
Local Open Scope Q_scope.

Inductive xnum : Type :=
| Fin (q : Q)
| PInf
| NInf
| NaN.

(** Python's [round(x, 2)]: to the nearest multiple of 0.01, a tie going to
    the even one. *)
Definition round_half_even (q : Q) : Z :=
  let n := Qfloor q in
  match Qcompare (q - inject_Z n) (1 # 2) with
  | Lt => n
  | Gt => (n + 1)%Z
  | Eq => if Z.even n then n else (n + 1)%Z
  end.

Definition py_round2 (q : Q) : Q :=
  inject_Z (round_half_even (q * 100)) / 100.

Module Metrics.

(** [a / b] on floats: a division by zero gives an infinity, or [NaN] for
    [0 / 0]. *)
Definition xdiv (a b : Q) : xnum :=
  if Qeq_bool b 0 then
    if Qltb 0 a then PInf else if Qltb a 0 then NInf else NaN
  else Fin (a / b).

Definition xmap (f : Q -> Q) (x : xnum) : xnum :=
  match x with
  | Fin q => Fin (f q)
  | other => other
  end.

(** [x < y] on extended numbers; false when either is [NaN]. *)
Definition xltb (x y : xnum) : bool :=
  match x, y with
  | NaN, _ | _, NaN => false
  | NInf, NInf => false
  | NInf, _ => true
  | _, NInf => false
  | PInf, _ => false
  | Fin _, PInf => true
  | Fin a, Fin b => Qltb a b
  end.

(** [series.sum()] *)
Fixpoint nansum_from (acc : Q) (s : list (option Q)) : Q :=
  match s with
  | [] => acc
  | Some q :: rest => nansum_from (acc + q) rest
  | None :: rest => nansum_from acc rest
  end.

Definition nansum (s : list (option Q)) : Q := nansum_from 0 s.

(** [series.cumsum()]: a [NaN] cell stays [NaN] and is skipped. *)
Fixpoint cumsum_from (acc : Q) (s : list (option Q)) : list (option Q) :=
  match s with
  | [] => []
  | Some q :: rest => Some (acc + q) :: cumsum_from (acc + q) rest
  | None :: rest => None :: cumsum_from acc rest
  end.

Definition cumsum (s : list (option Q)) : list (option Q) := cumsum_from 0 s.

(** [series.cummax()] *)
Fixpoint cummax_from (m : option Q) (s : list (option Q)) : list (option Q) :=
  match s with
  | [] => []
  | Some q :: rest =>
      let m' := match m with
                | Some x => py_max x q
                | None => q
                end in
      Some m' :: cummax_from (Some m') rest
  | None :: rest => None :: cummax_from m rest
  end.

Definition cummax (s : list (option Q)) : list (option Q) := cummax_from None s.

(** [series.min()]: the least cell that is not [NaN]; [NaN] without one. *)
Fixpoint xmin_from (m : xnum) (s : list xnum) : xnum :=
  match s with
  | [] => m
  | NaN :: rest => xmin_from m rest
  | x :: rest =>
      xmin_from (match m with
                 | NaN => x
                 | _ => if xltb x m then x else m
                 end) rest
  end.

Definition xmin (s : list xnum) : xnum := xmin_from NaN s.

(** [(series > 0).sum()] and [(series <= 0).sum()] *)
Definition is_win (c : option Q) : bool :=
  match c with
  | Some q => Qltb 0 q
  | None => false
  end.

Definition is_loss (c : option Q) : bool :=
  match c with
  | Some q => Qleb q 0
  | None => false
  end.

(** [equity_curve]: [initial_cap + pnl_series.cumsum()] *)
Definition equity_curve (pnl_series : list (option Q)) (initial_cap : Q)
    : list (option Q) :=
  map (option_map (fun c => initial_cap + c)) (cumsum pnl_series).

(** The frame returned by [compute_drawdown], column by column. *)
Record drawdown_frame : Type := {
  dd_equity : list (option Q);
  dd_roll_max : list (option Q);
  dd_drawdown : list xnum
}.

(** [equity / roll_max - 1.0], cell by cell. *)
Definition drawdown_cell (e m : option Q) : xnum :=
  match e, m with
  | Some e, Some m => xmap (fun x => x - 1) (xdiv e m)
  | _, _ => NaN
  end.

Fixpoint zip_with {A B C : Type} (f : A -> B -> C) (a : list A) (b : list B)
    : list C :=
  match a, b with
  | x :: a', y :: b' => f x y :: zip_with f a' b'
  | _, _ => []
  end.

(** [compute_drawdown] *)
Definition compute_drawdown (equity : list (option Q)) : drawdown_frame :=
  let roll_max := cummax equity in
  let dd := zip_with drawdown_cell equity roll_max in
  {| dd_equity := equity; dd_roll_max := roll_max; dd_drawdown := dd |}.

(** The dictionary returned by [performance_summary]. *)
Record summary : Type := {
  initial_capital : Q;
  final_balance : Q;
  net_profit : Q;
  trades : nat;
  wins : nat;
  losses : nat;
  win_rate_pct : Q;
  gross_profit : Q;
  gross_loss : Q;
  profit_factor : xnum;
  max_drawdown_pct : xnum
}.

(** [performance_summary], on the [pnl] column of [trades]. *)
Definition performance_summary (pnl : list (option Q)) (initial_cap : Q)
    : summary :=
  match pnl with
  | [] =>
      {| initial_capital := initial_cap;
         final_balance := initial_cap;
         net_profit := 0;
         trades := 0;
         wins := 0;
         losses := 0;
         win_rate_pct := 0;
         gross_profit := 0;
         gross_loss := 0;
         profit_factor := Fin 0;
         max_drawdown_pct := Fin 0 |}
  | _ :: _ =>
      let final_balance := initial_cap + nansum pnl in
      let wins := List.length (filter is_win pnl) in
      let losses := List.length (filter is_loss pnl) in
      let gross_profit := nansum (filter is_win pnl) in
      let gross_loss := nansum (filter is_loss pnl) in
      let win_rate :=
        100 * inject_Z (Z.of_nat wins) / inject_Z (Z.of_nat (List.length pnl)) in
      let profit_factor :=
        if Qltb gross_loss 0 then Fin (gross_profit / Qabs gross_loss)
        else PInf in
      let eq := equity_curve pnl initial_cap in
      let dd_df := compute_drawdown eq in
      let max_dd := xmap (fun x => x * 100) (xmin (dd_drawdown dd_df)) in
      {| initial_capital := py_round2 initial_cap;
         final_balance := py_round2 final_balance;
         net_profit := py_round2 (final_balance - initial_cap);
         trades := List.length pnl;
         wins := wins;
         losses := losses;
         win_rate_pct := py_round2 win_rate;
         gross_profit := py_round2 gross_profit;
         gross_loss := py_round2 gross_loss;
         profit_factor := xmap py_round2 profit_factor;
         max_drawdown_pct := xmap py_round2 max_dd |}
  end.

End Metrics.

(** The [pnl] column of a ledger. *)
Definition pnl_column (ledger : list LedgerRow.t) : list (option Q) :=
  map (fun lr => Trade.pnl (LedgerRow.trade lr)) ledger.

(** A drawdown between -1 (excluded) and 0, or [NaN]. *)
Definition drawdown_ok (x : xnum) : Prop :=
  match x with
  | Fin d => -1 < d /\ d <= 0
  | NaN => True
  | PInf | NInf => False
  end.

(** The rows of a ledger with one of the given results. *)
Definition rows_with (results : list string) (ledger : list LedgerRow.t)
    : list LedgerRow.t :=
  filter (fun lr => existsb (String.eqb (LedgerRow.result lr)) results) ledger.

(** The rows of a ledger whose size is [NaN]. *)
Definition nan_size_rows (ledger : list LedgerRow.t) : list LedgerRow.t :=
  filter (fun lr => match Trade.size (LedgerRow.trade lr) with
                    | Some _ => false
                    | None => true
                    end) ledger.

Definition scenario_D_summary : Metrics.summary :=
  Metrics.performance_summary (pnl_column scenario_D_ledger) 1000.

(** * The sample strategy: [Framework/ema_crossover.py]

    The strategy reads the price frame, which may already carry the columns
    [ema9] and [ema21]; a cell of those is a number or [NaN]. *)

Module Strategy.

Record row : Type := {
  bar : PriceRow.t;
  ema9 : option Q;
  ema21 : option Q
}.

Record frame : Type := {
  columns : list price_col;
  has_ema9 : bool;
  has_ema21 : bool;
  rows : list row
}.

(** [series.ewm(span=span, adjust=False).mean()] on numbers:
    [y0 = x0] and [y = (1 - alpha) * y_prev + alpha * x] with
    [alpha = 2 / (span + 1)]. *)
Fixpoint ewm_from (alpha : Q) (prev : Q) (xs : list Q) : list Q :=
  match xs with
  | [] => []
  | x :: rest =>
      let y := (1 - alpha) * prev + alpha * x in
      y :: ewm_from alpha y rest
  end.

Definition ewm_mean (span : Q) (xs : list Q) : list Q :=
  match xs with
  | [] => []
  | x :: rest => x :: ewm_from (2 / (span + 1)) x rest
  end.

(** [series.shift(1)] *)
Definition shift1 (s : list (option Q)) : list (option Q) :=
  match s with
  | [] => []
  | _ :: _ => None :: removelast s
  end.

(** [a <= b] and [a > b] on cells; false when either is [NaN]. *)
Definition cell_le (a b : option Q) : bool :=
  match a, b with
  | Some a, Some b => Qleb a b
  | _, _ => false
  end.

Definition cell_gt (a b : option Q) : bool :=
  match a, b with
  | Some a, Some b => Qltb b a
  | _, _ => false
  end.

(** One cell of [signal]: 0, then 1 where [buy_signal] holds, then -1 where
    [sell_signal] holds. *)
Definition signal_cell (prev_fast prev_slow fast slow : option Q) : Z :=
  let buy_signal := cell_le prev_fast prev_slow && cell_gt fast slow in
  let sell_signal := cell_le prev_slow prev_fast && cell_gt slow fast in
  if sell_signal then (-1)%Z else if buy_signal then 1%Z else 0%Z.

Fixpoint signal_cells (prev_fast prev_slow fast slow : list (option Q))
    : list Z :=
  match prev_fast, prev_slow, fast, slow with
  | pf :: pfs, ps :: pss, f :: fs, s :: ss =>
      signal_cell pf ps f s :: signal_cells pfs pss fs ss
  | _, _, _, _ => []
  end.

(** The column [name] of the frame, computed from [close] when the frame
    does not have it. *)
Definition ema_column (df : frame) (present : bool) (cell : row -> option Q)
    (span : Q) : result (list (option Q)) :=
  if present then Ok (map cell (rows df))
  else if has_pcol P_close (columns df) then
    Ok (map Some (ewm_mean span (map (fun r => PriceRow.close (bar r)) (rows df))))
  else Raise (KeyError "close").

Fixpoint signal_rows (dts : list Z) (sigs : list Z) : list SignalRow.t :=
  match dts, sigs with
  | dt :: dts', s :: sigs' =>
      SignalRow.mk dt (Some s) None None (Some 1) None None
      :: signal_rows dts' sigs'
  | _, _ => []
  end.

(** [generate_signals] *)
Definition generate_signals (df : frame)
    : result (signal_frame * list string) :=
  if negb (has_pcol P_datetime (columns df)) then Raise (KeyError "datetime")
  else
    let indicadores_usados := ["ema9"; "ema21"]%string in
    fast <- ema_column df (has_ema9 df) ema9 9 ;;
    slow <- ema_column df (has_ema21 df) ema21 21 ;;
    let prev_fast := shift1 fast in
    let prev_slow := shift1 slow in
    let signal := signal_cells prev_fast prev_slow fast slow in
    let datetime := map (fun r => PriceRow.datetime (bar r)) (rows df) in
    Ok ({| s_columns := [S_datetime; S_signal];
           s_rows := signal_rows datetime signal |},
        indicadores_usados).

End Strategy.

(** The [signal] column of a signal frame. *)
Definition signal_values (f : signal_frame) : list Z :=
  map (fun s => match SignalRow.signal s with
                | Some z => z
                | None => 0%Z
                end) (s_rows f).

(** The price frame that the simulator is given with a strategy frame. *)
Definition price_frame_of (df : Strategy.frame) : price_frame :=
  {| p_columns := Strategy.columns df;
     p_rows := map Strategy.bar (Strategy.rows df) |}.

(** Closes 10, 10, 12, 13, 11, 9, 8: a rise and a fall. *)
Definition wave_frame : Strategy.frame :=
  {| Strategy.columns := ohlc;
     Strategy.has_ema9 := false;
     Strategy.has_ema21 := false;
     Strategy.rows :=
       map (fun '(dt, px) => Strategy.Build_row (flat_bar dt px) None None)
           [(0%Z, 10); (1%Z, 10); (2%Z, 12); (3%Z, 13); (4%Z, 11); (5%Z, 9);
            (6%Z, 8)] |}.

Definition wave_signals : signal_frame :=
  Eval vm_compute in
    match Strategy.generate_signals wave_frame with
    | Ok (sig, _) => sig
    | Raise _ => no_signals
    end.

(** The signal cells of the rows after one whose averages were [prev_fast]
    and [prev_slow]. *)
Fixpoint signal_cells_from (prev_fast prev_slow : option Q)
    (fast slow : list (option Q)) : list Z :=
  match fast, slow with
  | f :: fs, s :: ss =>
      Strategy.signal_cell prev_fast prev_slow f s
      :: signal_cells_from f s fs ss
  | _, _ => []
  end.

(** A signal is not repeated on the next bar. *)
Definition not_repeated (a b : Z) : Prop := a <> 0%Z -> b <> a.

(** Closes that never fall: 10, 10, 12, 13, 13, 15. *)
Definition rising_frame : Strategy.frame :=
  {| Strategy.columns := ohlc;
     Strategy.has_ema9 := false;
     Strategy.has_ema21 := false;
     Strategy.rows :=
       map (fun '(dt, px) => Strategy.Build_row (flat_bar dt px) None None)
           [(0%Z, 10); (1%Z, 10); (2%Z, 12); (3%Z, 13); (4%Z, 13); (5%Z, 15)] |}.

Definition rising_signals : signal_frame :=
  Eval vm_compute in
    match Strategy.generate_signals rising_frame with
    | Ok (sig, _) => sig
    | Raise _ => no_signals
    end.

(** * Plain signals *)

(** A signal frame with none of the enrichment columns. *)
Definition plain_columns (cols : list signal_col) : bool :=
  forallb (fun c => negb (has_scol c cols))
    [S_stop_price; S_take_price; S_size; S_risk; S_trailing_distance].

(** A trade of size one without stop, target, trailing distance and risk. *)
Definition plain_trade (t : Trade.t) : Prop :=
  Trade.size t = Some 1 /\ Trade.stop_price t = None /\
  Trade.take_price t = None /\ Trade.trailing_distance t = None /\
  Trade.risk t = None.

Definition scenario_A_bt : Backtester := default_bt scenario_A_prices.

Definition scenario_A_data : data_frame :=
  Eval vm_compute in merge scenario_A_prices scenario_A_signals.

Definition scenario_A_ledger : list LedgerRow.t :=
  Eval vm_compute in ledger_of (run scenario_A_bt (Some scenario_A_signals)).

(** * A strategy frame through the simulator *)

(** The merged frame when each bar has its own timestamp and the signal
    frame has one row per bar: bar by bar, the price row joined to a plain
    signal row. *)
Definition aligned (prows : list PriceRow.t) (sigs : list Z) : list Row.t :=
  map (fun '(p, z) => Row.mk p (Some (plain_signal (PriceRow.datetime p) z)))
      (combine prows sigs).

(** The signals that are not zero. *)
Definition nonzero (sigs : list Z) : list Z :=
  filter (fun z => negb (z =? 0)%Z) sigs.

Definition wave_bt : Backtester := default_bt (price_frame_of wave_frame).

Definition wave_ledger : list LedgerRow.t :=
  Eval vm_compute in ledger_of (run wave_bt (Some wave_signals)).

(** * Indicators: [Framework/indicators.py]

    An indicator reads one column of the price frame and adds a column; the
    functions below take the column that is read and return the column that
    is added.  The [close] column holds numbers; a cell of an added column
    may be [NaN]. *)

Module Indicators.

(** [add_ema]: [df[col].ewm(span=period, adjust=False).mean()].  pandas
    refuses a span below 1 with a [ValueError] ([None]). *)
Definition add_ema (period : Q) (col : list Q) : option (list Q) :=
  if Qleb 1 period then Some (Strategy.ewm_mean period col) else None.

(** [series.diff()] *)
Fixpoint deltas_from (prev : Q) (xs : list Q) : list (option Q) :=
  match xs with
  | [] => []
  | x :: rest => Some (x - prev) :: deltas_from x rest
  end.

Definition diff (xs : list Q) : list (option Q) :=
  match xs with
  | [] => []
  | x :: rest => None :: deltas_from x rest
  end.

(** One cell of [series.where(cond(series), other)]; a comparison with
    [NaN] is false. *)
Definition where_cell (cond : Q -> bool) (other : Q) (c : option Q) : Q :=
  match c with
  | Some q => if cond q then q else other
  | None => other
  end.

Definition sumQ (l : list Q) : Q := fold_right Qplus 0 l.

(** The [window] cells that end at index [i]. *)
Definition window_at {A : Type} (window i : nat) (s : list A) : list A :=
  firstn window (skipn (S i - window) s).

(** [series.rolling(window).mean()] on a series without [NaN]: the mean of
    the last [window] cells, [NaN] while there are fewer. *)
Definition mean_at (window i : nat) (s : list Q) : option Q :=
  if (0 <? window)%nat && (window <=? S i)%nat then
    Some (sumQ (window_at window i s) / inject_Z (Z.of_nat window))
  else None.

Definition rolling_mean (window : nat) (s : list Q) : list (option Q) :=
  map (fun i => mean_at window i s) (seq 0 (List.length s)).

(** One cell of [series.replace(0, np.nan)] *)
Definition replace_zero (c : option Q) : option Q :=
  match c with
  | Some q => if Qeq_bool q 0 then None else Some q
  | None => None
  end.

(** [a / b], cell by cell *)
Definition ratio (a b : option Q) : xnum :=
  match a, b with
  | Some a, Some b => Metrics.xdiv a b
  | _, _ => NaN
  end.

(** [a + x], [a / x] and [a - x] for a number [a] and a cell [x] *)
Definition xadd_l (a : Q) (x : xnum) : xnum := Metrics.xmap (Qplus a) x.

Definition xdiv_l (a : Q) (x : xnum) : xnum :=
  match x with
  | Fin v => Metrics.xdiv a v
  | PInf | NInf => Fin 0
  | NaN => NaN
  end.

Definition xsub_l (a : Q) (x : xnum) : xnum :=
  match x with
  | Fin v => Fin (a - v)
  | PInf => NInf
  | NInf => PInf
  | NaN => NaN
  end.

(** The series [gain] and [loss] of [add_rsi] *)
Definition gains (col : list Q) : list Q :=
  map (where_cell (fun d => Qltb 0 d) 0) (diff col).

Definition losses (col : list Q) : list Q :=
  map (fun d => - where_cell (fun d => Qltb d 0) 0 d) (diff col).

(** [add_rsi] *)
Definition add_rsi (period : nat) (col : list Q) : list xnum :=
  let gain := gains col in
  let loss := losses col in
  let avg_gain := rolling_mean period gain in
  let avg_loss := rolling_mean period loss in
  let rs := Metrics.zip_with ratio avg_gain (map replace_zero avg_loss) in
  map (fun r => xsub_l 100 (xdiv_l 100 (xadd_l 1 r))) rs.

End Indicators.

(** An index between 0 and 100 (excluded), or [NaN]. *)
Definition rsi_ok (x : xnum) : Prop :=
  match x with
  | Fin q => 0 <= q /\ q < 100
  | NaN => True
  | PInf | NInf => False
  end.

(** The cells from index [a] to index [b - 1] are between [lo] and [hi]. *)
Definition bounded (lo hi : Q) (l : list Q) : Prop :=
  Forall (fun x => lo <= x /\ x <= hi) l.

(** The other way round. *)
Definition Qge (a b : Q) : Prop := b <= a.

(** Closes 10, 11, 12, 11, 11, 13, 14, 15. *)
Definition rsi_closes : list Q := [10; 11; 12; 11; 11; 13; 14; 15].

(** One cell of the column that [add_rsi] adds, from the cells of
    [avg_gain] and [avg_loss]. *)
Definition rsi_cell (avg_gain avg_loss : option Q) : xnum :=
  Indicators.xsub_l 100
    (Indicators.xdiv_l 100
       (Indicators.xadd_l 1
          (Indicators.ratio avg_gain (Indicators.replace_zero avg_loss)))).

(** * The loader: the month loop of [fetch_binance_http] in
      [Framework/data_loader.py]

    The loop asks [download_binance_month] for one month after the other
    and keeps the frames it gets.  The download is a function of the year
    and the month here (the symbol and the time frame are those of the
    call); what the source does with the frames afterwards (concatenation,
    sorting, validation) is not part of the model.  The loop is a [while],
    so the model takes a bound on the number of its rounds and returns
    [None] when the bound is reached. *)

Module Loader.

Section Fetch.

Variable frame : Type.
Variable download_binance_month : Z -> Z -> option frame.

(** Lines 127-142: [while (year < end.year) or ...]. *)
Fixpoint month_loop (fuel : nat) (end_year end_month year month : Z)
    (dfs : list frame) : option (list frame) :=
  match fuel with
  | O => None
  | S fuel' =>
      if (year <? end_year)%Z
         || ((year =? end_year)%Z && (month <=? end_month)%Z)
      then
        let df_month := download_binance_month year month in
        let dfs :=
          match df_month with
          | Some d => dfs ++ [d]
          | None => dfs
          end in
        let month := (month + 1)%Z in
        let '(year, month) :=
          if (12 <? month)%Z then ((year + 1)%Z, 1%Z) else (year, month) in
        if (year =? end_year)%Z && (month =? end_month)%Z then Some dfs
        else month_loop fuel' end_year end_month year month dfs
      else Some dfs
  end.

Inductive outcome : Type :=
| Frames (dfs : list frame)      (* the frames that are concatenated *)
| ValueError                     (* no frame was found *)
| Running.                       (* the bound was reached *)

(** Lines 123-145 *)
Definition fetch_frames (fuel : nat) (start_year start_month : Z)
    (end_year end_month : Z) : outcome :=
  match month_loop fuel end_year end_month start_year start_month [] with
  | None => Running
  | Some [] => ValueError
  | Some dfs => Frames dfs
  end.

End Fetch.

End Loader.

(** Months counted from year 0: January of year [y] is month [12 * y]. *)
Definition month_index (year month : Z) : Z := (12 * year + (month - 1))%Z.

Definition month_of_index (k : Z) : Z * Z := ((k / 12)%Z, (k mod 12 + 1)%Z).

(** The [n] months from month [s] on. *)
Definition month_range (s : Z) (n : nat) : list (Z * Z) :=
  map (fun i => month_of_index (s + Z.of_nat i)) (seq 0 n).

(** The frames of the months that exist. *)
Definition collect {frame : Type} (download : Z -> Z -> option frame)
    (months : list (Z * Z)) : list frame :=
  flat_map (fun '(y, m) => match download y m with
                           | Some d => [d]
                           | None => []
                           end) months.

(** The number of months that a call asks for. *)
Definition months_asked (start_year start_month end_year end_month : Z) : nat :=
  let s := month_index start_year start_month in
  let e := month_index end_year end_month in
  if (s <? e)%Z then Z.to_nat (e - s)
  else if (s =? e)%Z then 1%nat
  else 0%nat.

(** A download that finds every month but December 2023. *)
Definition sample_download (y m : Z) : option (Z * Z) :=
  if ((y =? 2023) && (m =? 12))%Z then None else Some (y, m).

(** * Excursions and the realised profit *)

(** A well-formed candle: [0 <= low <= close <= high]. *)
Definition candle_ok (row : Row.t) : Prop :=
  0 <= Row.low row /\ Row.low row <= Row.close row /\
  Row.close row <= Row.high row.

(** The profit of a trade of size [sz] marked at the price [c], before
    slippage and commissions. *)
Definition marked (t : Trade.t) (sz c : Q) : Q :=
  (c - Trade.entry_price t) * sz * dir_factor (Trade.direction t).

(** * The parametrised strategy of [Framework/report_html.py] *)

Module Report.

(** [generate_signals_ema_param], which the robustness chart runs over a
    grid of periods.  The periods are positive integers here; pandas
    refuses a span below 1. *)
Definition generate_signals_ema_param (df : Strategy.frame)
    (fast_period slow_period : positive) : result signal_frame :=
  if negb (has_pcol P_datetime (Strategy.columns df)) then
    Raise (KeyError "datetime")
  else if negb (has_pcol P_close (Strategy.columns df)) then
    Raise (KeyError "close")
  else
    let close := map (fun r => PriceRow.close (Strategy.bar r)) (Strategy.rows df) in
    let fast :=
      map Some (Strategy.ewm_mean (inject_Z (Zpos fast_period)) close) in
    let slow :=
      map Some (Strategy.ewm_mean (inject_Z (Zpos slow_period)) close) in
    let prev_fast := Strategy.shift1 fast in
    let prev_slow := Strategy.shift1 slow in
    let signal := Strategy.signal_cells prev_fast prev_slow fast slow in
    let datetime :=
      map (fun r => PriceRow.datetime (Strategy.bar r)) (Strategy.rows df) in
    Ok {| s_columns := [S_datetime; S_signal];
          s_rows := Strategy.signal_rows datetime signal |}.

End Report.

(** Closes that never rise: 15, 13, 13, 11, 10, 10. *)
Definition falling_frame : Strategy.frame :=
  {| Strategy.columns := ohlc;
     Strategy.has_ema9 := false;
     Strategy.has_ema21 := false;
     Strategy.rows :=
       map (fun '(dt, px) => Strategy.Build_row (flat_bar dt px) None None)
           [(0%Z, 15); (1%Z, 13); (2%Z, 13); (3%Z, 11); (4%Z, 10); (5%Z, 10)] |}.

Definition falling_signals : signal_frame :=
  Eval vm_compute in
    match Report.generate_signals_ema_param falling_frame 5 15 with
    | Ok sig => sig
    | Raise _ => no_signals
    end.

(** * Trade identifiers *)

(** The identifier of a trade is the number of bars with a signal before
    the bar on which it was opened. *)
Definition numbered_trade (data : data_frame) (t : Trade.t) : Prop :=
  Trade.id t
  = List.length (signal_bars (firstn (Trade.entry_bar_index t) (d_rows data))).

(** After [k] bars the next identifier is the number of signals so far, and
    every trade is numbered. *)
Definition numbered (data : data_frame) (k : nat) (st : state) : Prop :=
  trade_id st = List.length (signal_bars (firstn k (d_rows data))) /\
  Forall (numbered_trade data) (open_trades st ++ closed_trades st).

(** * Oscillators of [Framework/indicators.py] *)

Module Oscillators.

(** [add_macd]: the columns [macd], [macd_signal] and [macd_hist], from the
    column that is read.  The periods are positive integers here; pandas
    refuses a span below 1. *)
Record macd_columns : Type := {
  macd : list Q;
  macd_signal : list Q;
  macd_hist : list Q
}.

Definition add_macd (fast slow signal : positive) (col : list Q)
    : macd_columns :=
  let ema_fast := Strategy.ewm_mean (inject_Z (Zpos fast)) col in
  let ema_slow := Strategy.ewm_mean (inject_Z (Zpos slow)) col in
  let macd := Metrics.zip_with Qminus ema_fast ema_slow in
  let macd_signal := Strategy.ewm_mean (inject_Z (Zpos signal)) macd in
  let macd_hist := Metrics.zip_with Qminus macd macd_signal in
  {| macd := macd; macd_signal := macd_signal; macd_hist := macd_hist |}.

(** A candle of the frame that [add_stochastic] reads. *)
Record candle : Type := {
  high : Q;
  low : Q;
  close : Q
}.

(** [min] and [max] of the cells of a window *)
Definition least (l : list Q) : option Q :=
  match l with
  | [] => None
  | x :: rest => Some (fold_left py_min rest x)
  end.

Definition greatest (l : list Q) : option Q :=
  match l with
  | [] => None
  | x :: rest => Some (fold_left py_max rest x)
  end.

(** [series.rolling(window).min()] and [.max()] on a series without [NaN] *)
Definition rolling (pick : list Q -> option Q) (window : nat) (s : list Q)
    : list (option Q) :=
  map (fun i =>
         if (0 <? window)%nat && (window <=? S i)%nat then
           pick (Indicators.window_at window i s)
         else None)
      (seq 0 (List.length s)).

(** One cell of [stoch_k]:
    [100 * (close - low_min) / (high_max - low_min).replace(0, np.nan)] *)
Definition stoch_k_cell (c : Q) (low_min high_max : option Q) : option Q :=
  match low_min, high_max with
  | Some lo, Some hi =>
      match Indicators.replace_zero (Some (hi - lo)) with
      | Some den => Some (100 * (c - lo) / den)
      | None => None
      end
  | _, _ => None
  end.

(** [series.rolling(window).mean()] on a series that may hold [NaN]: [NaN]
    unless the last [window] cells are all numbers. *)
Fixpoint numbers (l : list (option Q)) : option (list Q) :=
  match l with
  | [] => Some []
  | Some q :: rest =>
      match numbers rest with
      | Some qs => Some (q :: qs)
      | None => None
      end
  | None :: _ => None
  end.

Definition rolling_mean_nan (window : nat) (s : list (option Q))
    : list (option Q) :=
  map (fun i =>
         if (0 <? window)%nat && (window <=? S i)%nat then
           match numbers (Indicators.window_at window i s) with
           | Some qs =>
               Some (Indicators.sumQ qs / inject_Z (Z.of_nat window))
           | None => None
           end
         else None)
      (seq 0 (List.length s)).

Fixpoint zip3 {A B C D : Type} (f : A -> B -> C -> D) (a : list A)
    (b : list B) (c : list C) : list D :=
  match a, b, c with
  | x :: a', y :: b', z :: c' => f x y z :: zip3 f a' b' c'
  | _, _, _ => []
  end.

(** [add_stochastic]: the columns [stoch_k] and [stoch_d] *)
Definition add_stochastic (k_period d_period : nat) (df : list candle)
    : list (option Q) * list (option Q) :=
  let low_min := rolling least k_period (map low df) in
  let high_max := rolling greatest k_period (map high df) in
  let stoch_k := zip3 stoch_k_cell (map close df) low_min high_max in
  let stoch_d := rolling_mean_nan d_period stoch_k in
  (stoch_k, stoch_d).

End Oscillators.

(** A percentage, or [NaN]. *)
Definition percent_ok (c : option Q) : Prop :=
  match c with
  | Some q => 0 <= q /\ q <= 100
  | None => True
  end.

(** Four candles around 10, 12, 11 and 13. *)
Definition sample_candles : list Oscillators.candle :=
  [Oscillators.Build_candle 11 9 10; Oscillators.Build_candle 13 10 12;
   Oscillators.Build_candle 12 10 11; Oscillators.Build_candle 14 11 13].

(** * A size cell that is [NaN] *)

(** The signals of scenario D with a [size] column, 2 on bar 0 and [NaN] on
    bar 2, and a stop at 120 for the short trade of bar 2. *)
Definition nan_size_signals : signal_frame :=
  {| s_columns := [S_datetime; S_signal; S_stop_price; S_size];
     s_rows := [SignalRow.mk 0 (Some 1%Z) None None (Some 2) None None;
                SignalRow.mk 2 (Some (-1)%Z) (Some 120) None None None None] |}.

Definition nan_size_ledger : list LedgerRow.t :=
  Eval vm_compute in ledger_of (run scenario_D_bt (Some nan_size_signals)).

Definition nan_size_trade : Trade.t :=
  Eval vm_compute in
    LedgerRow.trade (nth 1 nan_size_ledger (aggregate no_trade)).
(** * Properties *)

(** ** The scenarios of the specification *)

(** Scenario A: one row, closed at the end of the data with a profit of
    [10 * size]. *)
Example scenario_A_run :
  summary (run (default_bt scenario_A_prices) (Some scenario_A_signals))
  = [(0%nat, long, 0%nat, Some 4%nat, Some "eod"%string, Some 110, Some 10)].
Proof. vm_compute. reflexivity. Qed.

(** Scenario B: closed on bar 2 by the stop, at 95. *)
Example scenario_B_run :
  summary (run (default_bt scenario_B_prices) (Some scenario_B_signals))
  = [(0%nat, long, 0%nat, Some 2%nat, Some "sl"%string, Some 95, Some (-5))].
Proof. vm_compute. reflexivity. Qed.

(** Scenario C: the short signal of bar 2 closes the long trade at that
    bar's close and opens a short one on the same bar. *)
Example scenario_C_run :
  summary (run (default_bt scenario_A_prices) (Some scenario_D_signals))
  = [(0%nat, long, 0%nat, Some 2%nat, Some "signal"%string, Some 104, Some 4);
     (1%nat, short, 2%nat, Some 4%nat, Some "eod"%string, Some 110,
      Some (-6))].
Proof. vm_compute. reflexivity. Qed.

(** Hedge mode: both trades stay open to the end of the data. *)
Example hedge_run :
  summary (run hedge_bt (Some scenario_D_signals))
  = [(0%nat, long, 0%nat, Some 4%nat, Some "eod"%string, Some 110, Some 10);
     (1%nat, short, 2%nat, Some 4%nat, Some "eod"%string, Some 110,
      Some (-6))].
Proof. vm_compute. reflexivity. Qed.

(** A frame without the [open] column raises on the first bar. *)
Example no_open_run :
  run no_open_bt (Some scenario_A_signals) = Raise (AttributeError "open").
Proof. reflexivity. Qed.

(** ** Comparisons, [max] and [min] *)

Lemma Qleb_le (a b : Q) : Qleb a b = true <-> a <= b.
Proof. unfold Qleb. apply Qle_bool_iff. Qed.

Lemma Qltb_lt (a b : Q) : Qltb a b = true <-> a < b.
Proof.
  unfold Qltb. rewrite negb_true_iff. split; intro H.
  - apply Qnot_le_lt. intro Hle. apply Qle_bool_iff in Hle. congruence.
  - destruct (Qle_bool b a) eqn:E; [|reflexivity].
    apply Qle_bool_iff in E. exfalso. apply (Qlt_not_le _ _ H E).
Qed.

Lemma Qltb_ge (a b : Q) : Qltb a b = false <-> b <= a.
Proof.
  unfold Qltb. rewrite negb_false_iff. apply Qle_bool_iff.
Qed.

Lemma py_max_l (a b : Q) : a <= py_max a b.
Proof.
  unfold py_max. destruct (Qltb a b) eqn:E.
  - apply Qltb_lt in E. apply Qlt_le_weak, E.
  - apply Qle_refl.
Qed.

Lemma py_max_r (a b : Q) : b <= py_max a b.
Proof.
  unfold py_max. destruct (Qltb a b) eqn:E.
  - apply Qle_refl.
  - apply Qltb_ge in E. exact E.
Qed.

Lemma py_min_l (a b : Q) : py_min a b <= a.
Proof.
  unfold py_min. destruct (Qltb b a) eqn:E.
  - apply Qltb_lt in E. apply Qlt_le_weak, E.
  - apply Qle_refl.
Qed.

Lemma py_min_r (a b : Q) : py_min a b <= b.
Proof.
  unfold py_min. destruct (Qltb b a) eqn:E.
  - apply Qle_refl.
  - apply Qltb_ge in E. exact E.
Qed.

(** ** What the updates leave alone *)

Lemma hit_sl_touched (h l : Q) (t : Trade.t) :
  hit_sl h l t = true <-> stop_touched h l t.
Proof.
  unfold hit_sl, stop_touched. split.
  - destruct (Trade.stop_price t) as [sp|]; [|discriminate].
    intro H. exists sp. split; [reflexivity|].
    destruct (Trade.direction t); apply Qleb_le, H.
  - intros [sp [-> H]]. destruct (Trade.direction t); apply Qleb_le, H.
Qed.

Lemma hit_tp_touched (h l : Q) (t : Trade.t) :
  hit_tp h l t = true <-> take_touched h l t.
Proof.
  unfold hit_tp, take_touched. split.
  - destruct (Trade.take_price t) as [tp|]; [|discriminate].
    intro H. exists tp. split; [reflexivity|].
    destruct (Trade.direction t); apply Qleb_le, H.
  - intros [tp [-> H]]. destruct (Trade.direction t); apply Qleb_le, H.
Qed.

(** The reason of a stop or target exit is one of two. *)
Lemma exit_decision_reason (h l : Q) (t : Trade.t) (p : Q) (r : string) :
  exit_decision h l t = Some (p, r) -> r = "sl"%string \/ r = "tp"%string.
Proof.
  unfold exit_decision.
  destruct (hit_sl h l t || hit_tp h l t); [|discriminate].
  destruct (hit_sl h l t).
  - destruct (Trade.stop_price t); [|discriminate].
    intro H. injection H as _ <-. now left.
  - destruct (Trade.take_price t); [|discriminate].
    intro H. injection H as _ <-. now right.
Qed.

(** A trade keeps the fields fixed at entry through a bar's update. *)
Lemma update_trade_entry (h l c : Q) (t : Trade.t) :
  let t' := update_trade h l c t in
  Trade.id t' = Trade.id t /\
  Trade.direction t' = Trade.direction t /\
  Trade.entry_time t' = Trade.entry_time t /\
  Trade.entry_bar_index t' = Trade.entry_bar_index t /\
  Trade.entry_price t' = Trade.entry_price t /\
  Trade.size t' = Trade.size t /\
  Trade.take_price t' = Trade.take_price t /\
  Trade.trailing_distance t' = Trade.trailing_distance t /\
  Trade.risk t' = Trade.risk t /\
  Trade.commission_open t' = Trade.commission_open t /\
  Trade.exit_bar_index t' = Trade.exit_bar_index t /\
  Trade.exit_reason t' = Trade.exit_reason t.
Proof.
  unfold update_trade, trail_stop, update_excursion.
  destruct t as [i d et eb ep sz [sp|] tk [dist|] rk mf ma v xt xb xp pn co cc xr];
    destruct d; cbn; repeat split; reflexivity.
Qed.

(** ** The loop over the open trades *)

Lemma update_open_trades_spec (self : Backtester) (dt : Z) (h l c : Q)
    (i : nat) (ots so cl : list Trade.t) :
  update_open_trades self dt h l c i ots so cl
  = (so ++ kept h l c ots, cl ++ exited self dt h l c i ots).
Proof.
  revert so cl. induction ots as [|t rest IH]; intros so cl.
  - cbn. now rewrite !app_nil_r.
  - cbn [update_open_trades]. unfold kept, exited. cbn [map filter flat_map].
    destruct (exit_decision h l (update_trade h l c t)) as [[p r]|].
    + rewrite IH. unfold kept, exited. now rewrite <- app_assoc.
    + rewrite IH. unfold kept, exited. now rewrite <- app_assoc.
Qed.

(** ** One bar *)

Lemma attr_ok (c : price_col) (name : string) (cols : list price_col) (v w : Q) :
  attr c name cols v = Ok w -> has_pcol c cols = true /\ w = v.
Proof.
  unfold attr. destruct (has_pcol c cols); [|discriminate].
  intro H. injection H as <-. now split.
Qed.

(** The three ways a bar can end: a signal replaces the position, a signal
    adds a trade, or there is no signal. *)
Lemma bar_step_cases (self : Backtester) (data : data_frame) (k : nat)
    (row : Row.t) (st st' : state) :
  bar_step self data k row st = Ok st' ->
  let still := kept (Row.high row) (Row.low row) (Row.close row)
                 (open_trades st) in
  let cl := closed_trades st
            ++ exited self (Row.datetime row) (Row.high row) (Row.low row)
                 (Row.close row) k (open_trades st) in
  has_ohlc (d_pcols data) = true /\
  ((single_position_mode self = true /\ Row.signal row <> 0%Z /\ still <> [] /\
    st' = append_new (open_row self data (trade_id st) k row) []
            (cl ++ map (fun t => _close_trade self t (Row.close row)
                                   (Row.datetime row) k "signal") still)
            (trade_id st))
   \/
   (Row.signal row <> 0%Z /\
    (single_position_mode self = false \/ still = []) /\
    st' = append_new (open_row self data (trade_id st) k row) still cl
            (trade_id st))
   \/
   (Row.signal row = 0%Z /\
    st' = {| open_trades := still; closed_trades := cl;
             trade_id := trade_id st |})).
Proof.
  intros H still cl. unfold bar_step in H. unfold has_ohlc.
  destruct (attr P_open "open" (d_pcols data) (Row.open row)) as [o|] eqn:Eo;
    [|discriminate].
  destruct (attr P_high "high" (d_pcols data) (Row.high row)) as [h|] eqn:Eh;
    [|discriminate].
  destruct (attr P_low "low" (d_pcols data) (Row.low row)) as [l|] eqn:El;
    [|discriminate].
  destruct (attr P_close "close" (d_pcols data) (Row.close row)) as [c|] eqn:Ec;
    [|discriminate].
  apply attr_ok in Eo, Eh, El, Ec.
  destruct Eo as [-> _], Eh as [-> ->], El as [-> ->], Ec as [-> ->].
  cbn [bind] in H. rewrite update_open_trades_spec in H. cbn [app] in H.
  split; [reflexivity|].
  fold still in H. fold cl in H. fold (open_row self data (trade_id st) k row) in H.
  destruct (Row.signal row =? 0)%Z eqn:Es.
  - apply Z.eqb_eq in Es. rewrite andb_false_r in H. cbn in H.
    right. right. split; [exact Es|]. now injection H as <-.
  - apply Z.eqb_neq in Es. cbn [negb] in H. rewrite andb_true_r in H.
    destruct (single_position_mode self) eqn:Em; cbn [andb] in H.
    + destruct still as [|t0 still0] eqn:Est; cbn [List.length Nat.ltb Nat.leb] in H.
      * right. left. split; [exact Es|]. split; [now right|].
        now injection H as <-.
      * left. repeat split; [exact Es|discriminate|].
        now injection H as <-.
    + right. left. split; [exact Es|]. split; [now left|].
      now injection H as <-.
Qed.

(** With the four price columns a bar never raises. *)
Lemma bar_step_total (self : Backtester) (data : data_frame) (k : nat)
    (row : Row.t) (st : state) :
  has_ohlc (d_pcols data) = true ->
  exists st', bar_step self data k row st = Ok st'.
Proof.
  unfold has_ohlc, bar_step, attr. intro H.
  apply andb_prop in H as [H Hc]. apply andb_prop in H as [H Hl].
  apply andb_prop in H as [Ho Hh]. rewrite Ho, Hh, Hl, Hc. cbn [bind].
  destruct (update_open_trades _ _ _ _ _ _ _ _ _) as [ots cls].
  destruct (_ && _ && _); [eexists; reflexivity|].
  destruct (negb _); [|eexists; reflexivity].
  destruct (_ && _); eexists; reflexivity.
Qed.

Lemma bar_loop_total (self : Backtester) (data : data_frame)
    (rows : list Row.t) (k : nat) (st : state) :
  has_ohlc (d_pcols data) = true ->
  exists st', bar_loop self data k rows st = Ok st'.
Proof.
  intro H. revert k st. induction rows as [|row rest IH]; intros k st.
  - eexists. reflexivity.
  - cbn [bar_loop]. destruct (bar_step_total self data k row st H) as [st1 ->].
    cbn [bind]. apply IH.
Qed.

(** Without one of them the first bar raises. *)
Lemma bar_step_raises (self : Backtester) (data : data_frame) (k : nat)
    (row : Row.t) (st : state) :
  has_ohlc (d_pcols data) = false ->
  exists name, bar_step self data k row st = Raise (AttributeError name).
Proof.
  unfold has_ohlc, bar_step, attr. intro H.
  destruct (has_pcol P_open (d_pcols data)); [|eexists; reflexivity].
  destruct (has_pcol P_high (d_pcols data)); [|eexists; reflexivity].
  destruct (has_pcol P_low (d_pcols data)); [|eexists; reflexivity].
  destruct (has_pcol P_close (d_pcols data)); [discriminate|].
  eexists; reflexivity.
Qed.

(** A loop that ends has gone through each of its prefixes. *)
Lemma bar_loop_app (self : Backtester) (data : data_frame)
    (pre suf : list Row.t) (k : nat) (st : state) :
  bar_loop self data k (pre ++ suf) st
  = (st1 <- bar_loop self data k pre st ;;
     bar_loop self data (k + List.length pre) suf st1).
Proof.
  revert k st. induction pre as [|row pre IH]; intros k st.
  - cbn. now rewrite Nat.add_0_r.
  - cbn [app bar_loop List.length].
    destruct (bar_step self data k row st) as [st1|e]; cbn [bind]; [|reflexivity].
    rewrite IH. now rewrite Nat.add_succ_r.
Qed.

(** ** Every trade of a run has a history *)

Lemma kept_elim (h l c : Q) (ots : list Trade.t) (t' : Trade.t) :
  In t' (kept h l c ots) ->
  exists t, In t ots /\ t' = update_trade h l c t /\ exit_decision h l t' = None.
Proof.
  unfold kept. rewrite filter_In, in_map_iff. intros [[t [<- Hin]] Hd].
  exists t. repeat split; [exact Hin|].
  destruct (exit_decision h l (update_trade h l c t)); [discriminate|reflexivity].
Qed.

Lemma exited_elim (self : Backtester) (dt : Z) (h l c : Q) (k : nat)
    (ots : list Trade.t) (x : Trade.t) :
  In x (exited self dt h l c k ots) ->
  exists t p r,
    In t ots /\
    exit_decision h l (update_trade h l c t) = Some (p, r) /\
    x = _close_trade self (update_trade h l c t) p dt k r.
Proof.
  unfold exited. rewrite in_flat_map. intros [t' [Hin Hx]].
  apply in_map_iff in Hin as [t [<- Hin]].
  destruct (exit_decision h l (update_trade h l c t)) as [[p r]|] eqn:Hd.
  - destruct Hx as [<-|[]]. now exists t, p, r.
  - destruct Hx.
Qed.

Lemma exited_intro (self : Backtester) (dt : Z) (h l c : Q) (k : nat)
    (ots : list Trade.t) (t : Trade.t) (p : Q) (r : string) :
  In t ots ->
  exit_decision h l (update_trade h l c t) = Some (p, r) ->
  In (_close_trade self (update_trade h l c t) p dt k r)
     (exited self dt h l c k ots).
Proof.
  intros Hin Hd. unfold exited. rewrite in_flat_map.
  exists (update_trade h l c t). split.
  - apply in_map, Hin.
  - rewrite Hd. now left.
Qed.

Section Provenance.
Variables (self : Backtester) (data : data_frame).

Lemma append_new_traced (k : nat) (row : Row.t) (tid : nat)
    (ots cls : list Trade.t) :
  nth_error (d_rows data) k = Some row ->
  Forall (open_before self data (S k)) ots ->
  Forall (closed_in_loop self data) cls ->
  traced self data (S k) (append_new (open_row self data tid k row) ots cls tid).
Proof.
  intros Hrow Ho Hc. unfold append_new.
  destruct (open_row self data tid k row) as [nt|] eqn:Hnew; split; cbn;
    try assumption.
  apply Forall_app. split; [exact Ho|].
  constructor; [|constructor]. eapply ob_new; eassumption.
Qed.

Lemma bar_step_traced (k : nat) (row : Row.t) (st st' : state) :
  nth_error (d_rows data) k = Some row ->
  traced self data k st ->
  bar_step self data k row st = Ok st' ->
  traced self data (S k) st'.
Proof.
  intros Hrow [Ho Hc] Hstep.
  apply bar_step_cases in Hstep. cbv zeta in Hstep.
  destruct Hstep as [_ Hstep].
  rewrite Forall_forall in Ho, Hc.
  assert (Hkept : Forall (open_before self data (S k))
                    (kept (Row.high row) (Row.low row) (Row.close row)
                       (open_trades st))).
  { apply Forall_forall. intros t' Hin.
    apply kept_elim in Hin as [t [Hin [-> Hd]]].
    apply (ob_keep self data k row t); auto. }
  assert (Hcl : Forall (closed_in_loop self data)
                  (closed_trades st
                     ++ exited self (Row.datetime row) (Row.high row)
                          (Row.low row) (Row.close row) k (open_trades st))).
  { apply Forall_app. split; [now apply Forall_forall|].
    apply Forall_forall. intros x Hin.
    apply exited_elim in Hin as [t [p [r [Hin [Hd ->]]]]].
    apply (cl_hit self data k row t p r); auto. }
  destruct Hstep as [[Hm [Hs [_ ->]]]|[[Hs [_ ->]]|[Hs ->]]].
  - apply append_new_traced; [exact Hrow|constructor|].
    apply Forall_app. split; [exact Hcl|].
    apply Forall_forall. intros x Hin.
    apply in_map_iff in Hin as [t' [<- Hin]].
    apply kept_elim in Hin as [t [Hin [-> Hd]]].
    apply (cl_signal self data k row t); auto.
  - now apply append_new_traced.
  - split; assumption.
Qed.

Lemma bar_loop_traced (mid pre post : list Row.t) (st st' : state) :
  d_rows data = pre ++ mid ++ post ->
  traced self data (List.length pre) st ->
  bar_loop self data (List.length pre) mid st = Ok st' ->
  traced self data (List.length pre + List.length mid) st'.
Proof.
  revert pre st. induction mid as [|row mid IH]; intros pre st Hrows Ht Hloop.
  - cbn in Hloop. injection Hloop as <-. cbn. now rewrite Nat.add_0_r.
  - cbn [bar_loop] in Hloop.
    destruct (bar_step self data (List.length pre) row st) as [st1|e] eqn:Hstep;
      [|discriminate].
    cbn [bind] in Hloop.
    assert (Hnth : nth_error (d_rows data) (List.length pre) = Some row).
    { rewrite Hrows, nth_error_app2 by lia. now rewrite Nat.sub_diag. }
    pose proof (bar_step_traced _ _ _ _ Hnth Ht Hstep) as Ht1.
    specialize (IH (pre ++ [row]) st1).
    rewrite length_app in IH. cbn [List.length] in IH.
    rewrite Nat.add_1_r in IH. cbn [List.length].
    rewrite Nat.add_succ_r. apply IH; try assumption.
    rewrite Hrows, <- app_assoc. reflexivity.
Qed.

Lemma initial_traced : traced self data 0 initial_state.
Proof. split; constructor. Qed.

(** After any number of bars. *)
Lemma state_after_traced (k : nat) (st : state) :
  state_after self data k = Ok st ->
  traced self data (Nat.min k (List.length (d_rows data))) st.
Proof.
  intro Hst. unfold state_after in Hst.
  pose proof (bar_loop_traced (firstn k (d_rows data)) []
                (skipn k (d_rows data)) initial_state st) as H.
  cbn [List.length app] in H. rewrite length_firstn in H.
  cbn [Nat.add] in H.
  apply H; [|apply initial_traced|exact Hst].
  symmetry. apply firstn_skipn.
Qed.

(** After all of them. *)
Lemma bar_loop_all_traced (st : state) :
  bar_loop self data 0 (d_rows data) initial_state = Ok st ->
  traced self data (List.length (d_rows data)) st.
Proof.
  intro H. rewrite <- (Nat.min_id (List.length (d_rows data))).
  apply state_after_traced.
  unfold state_after. now rewrite firstn_all.
Qed.

(** The loop goes through each prefix of the bars. *)
Lemma state_after_defined (k : nat) (st : state) :
  bar_loop self data 0 (d_rows data) initial_state = Ok st ->
  exists st_k, state_after self data k = Ok st_k.
Proof.
  intro H. rewrite <- (firstn_skipn k (d_rows data)), bar_loop_app in H.
  unfold state_after.
  destruct (bar_loop self data 0 (firstn k (d_rows data)) initial_state)
    as [st_k|e]; [|discriminate].
  now exists st_k.
Qed.
End Provenance.

(** ** The ledger *)

Lemma last_nth_error {A : Type} (l : list A) :
  last (map Some l) None = nth_error l (List.length l - 1).
Proof.
  induction l as [|a [|b l] IH]; [reflexivity|reflexivity|].
  change (last (map Some (a :: b :: l)) None) with (last (map Some (b :: l)) None).
  rewrite IH. cbn [List.length]. rewrite !Nat.sub_succ, Nat.sub_0_r.
  reflexivity.
Qed.

Lemma open_before_pos (self : Backtester) (data : data_frame) (k : nat)
    (t : Trade.t) :
  open_before self data k t -> (0 < k <= List.length (d_rows data))%nat.
Proof.
  intro H. destruct H as [k row tid nt Hrow _|k row t _ Hrow _];
    (assert (k < List.length (d_rows data))%nat
       by (apply nth_error_Some; congruence)); lia.
Qed.

(** What [run] does with a signal frame that is not empty. *)
Lemma run_trades_inv (self : Backtester) (signals : signal_frame)
    (ledger : list Trade.t) :
  frame_empty signals = false ->
  run_trades self (Some signals) = Ok ledger ->
  exists data st,
    prepare self signals = Ok data /\
    bar_loop self data 0 (d_rows data) initial_state = Ok st /\
    ledger = close_eod self data st.
Proof.
  intros He H. unfold run_trades in H. rewrite He in H.
  destruct (prepare self signals) as [data|e]; [|discriminate].
  cbn [bind] in H.
  destruct (bar_loop self data 0 (d_rows data) initial_state) as [st|e] eqn:Hl;
    [|discriminate].
  cbn [bind] in H. injection H as <-. now exists data, st.
Qed.

Lemma run_trades_empty (self : Backtester) (signals : option signal_frame) :
  match signals with
  | None => true
  | Some s => frame_empty s
  end = true ->
  run_trades self signals = Ok [].
Proof.
  destruct signals as [s|]; [|reflexivity].
  intro H. unfold run_trades. now rewrite H.
Qed.

(** The ledger is the loop's closed trades followed by the open ones closed
    on the last bar. *)
Lemma close_eod_eq (self : Backtester) (data : data_frame) (st : state) :
  Forall (open_before self data (List.length (d_rows data))) (open_trades st) ->
  open_trades st = [] /\ close_eod self data st = closed_trades st
  \/
  exists last_row,
    nth_error (d_rows data) (List.length (d_rows data) - 1) = Some last_row /\
    close_eod self data st
    = closed_trades st
      ++ map (fun t => _close_trade self t (Row.close last_row)
                         (Row.datetime last_row)
                         (List.length (d_rows data) - 1) "eod")
           (open_trades st).
Proof.
  intro Ho. unfold close_eod.
  destruct (open_trades st) as [|t ots] eqn:Eo; [now left|right].
  apply Forall_inv in Ho. apply open_before_pos in Ho.
  rewrite last_nth_error.
  destruct (nth_error (d_rows data) (List.length (d_rows data) - 1))
    as [last_row|] eqn:En.
  - now exists last_row.
  - apply nth_error_None in En. lia.
Qed.

Lemma close_eod_closed (self : Backtester) (data : data_frame) (st : state) :
  traced self data (List.length (d_rows data)) st ->
  forall t, In t (close_eod self data st) ->
    closed_in_loop self data t \/ closed_at_end self data t.
Proof.
  intros [Ho Hc] t Hin. rewrite Forall_forall in Hc.
  destruct (close_eod_eq self data st Ho) as [[_ E]|[last_row [Hl E]]];
    rewrite E in Hin.
  - left. now apply Hc.
  - apply in_app_or in Hin as [Hin|Hin]; [left; now apply Hc|right].
    apply in_map_iff in Hin as [t0 [<- Hin]].
    rewrite Forall_forall in Ho. constructor; auto.
Qed.

(** Every trade of the ledger was closed by the loop or at the end. *)
Lemma run_trades_closed (self : Backtester) (signals : option signal_frame)
    (ledger : list Trade.t) :
  run_trades self signals = Ok ledger ->
  ledger = [] \/
  exists sig data,
    signals = Some sig /\ prepare self sig = Ok data /\
    forall t, In t ledger ->
      closed_in_loop self data t \/ closed_at_end self data t.
Proof.
  intro H. destruct signals as [sig|].
  - destruct (frame_empty sig) eqn:He.
    + left. rewrite run_trades_empty in H by exact He. now injection H as <-.
    + right. apply run_trades_inv in H as [data [st [Hp [Hl ->]]]]; [|exact He].
      exists sig, data. repeat split; [exact Hp|].
      apply close_eod_closed. now apply bar_loop_all_traced.
  - left. cbn in H. now injection H as <-.
Qed.

Lemma run_inv (self : Backtester) (signals : option signal_frame)
    (ledger : list LedgerRow.t) :
  run self signals = Ok ledger ->
  exists trades,
    run_trades self signals = Ok trades /\ ledger = map aggregate trades.
Proof.
  unfold run. destruct (run_trades self signals) as [trades|e]; [|discriminate].
  cbn [bind]. intro H. injection H as <-. now exists trades.
Qed.

(** With the timestamp columns and the four price columns [run] returns a
    ledger. *)
Lemma run_total (self : Backtester) (signals : option signal_frame) :
  has_pcol P_datetime (p_columns (df self)) = true ->
  has_ohlc (p_columns (df self)) = true ->
  match signals with
  | Some sig => has_scol S_datetime (s_columns sig) = true
  | None => True
  end ->
  exists ledger, run self signals = Ok ledger.
Proof.
  intros Hdt Hcols Hs. unfold run, run_trades.
  destruct signals as [sig|]; [|eexists; reflexivity].
  destruct (frame_empty sig); [eexists; reflexivity|].
  unfold prepare. rewrite Hs, Hdt. cbn [negb].
  assert (H : forall data, d_pcols data = p_columns (df self) ->
            exists ledger,
              (closed_trades <-
                 (data' <- Ok data ;;
                  st <- bar_loop self data' 0 (d_rows data') initial_state ;;
                  Ok (close_eod self data' st)) ;;
               Ok (map aggregate closed_trades)) = Ok ledger).
  { intros data Hd. cbn [bind].
    destruct (bar_loop_total self data (d_rows data) 0 initial_state)
      as [st ->]; [now rewrite Hd|].
    cbn [bind]. eexists. reflexivity. }
  destruct (has_scol S_signal (d_scols (merge (df self) sig))); now apply H.
Qed.

Lemma closed_is_close_trade (self : Backtester) (data : data_frame)
    (t : Trade.t) :
  closed_in_loop self data t \/ closed_at_end self data t ->
  exists t0 p time i r, t = _close_trade self t0 p time i r.
Proof.
  intros [H|H]; destruct H; repeat eexists.
Qed.


(** ** C2: one position at a time *)

Lemma kept_length (h l c : Q) (ots : list Trade.t) :
  (List.length (kept h l c ots) <= List.length ots)%nat.
Proof.
  unfold kept.
  etransitivity; [apply filter_length_le|]. now rewrite length_map.
Qed.

Lemma append_new_length (nt : option Trade.t) (ots cls : list Trade.t)
    (tid : nat) :
  (List.length (open_trades (append_new nt ots cls tid))
   <= S (List.length ots))%nat.
Proof.
  destruct nt; cbn; [rewrite length_app; cbn|]; lia.
Qed.

Lemma bar_step_single (self : Backtester) (data : data_frame) (k : nat)
    (row : Row.t) (st st' : state) :
  single_position_mode self = true ->
  (List.length (open_trades st) <= 1)%nat ->
  bar_step self data k row st = Ok st' ->
  (List.length (open_trades st') <= 1)%nat.
Proof.
  intros Hm Hlen Hstep. apply bar_step_cases in Hstep. cbv zeta in Hstep.
  destruct Hstep as [_ [[_ [_ [_ ->]]]|[[_ [Hc ->]]|[_ ->]]]].
  - apply (append_new_length _ [] _ _).
  - destruct Hc as [Hc|Hc]; [congruence|].
    etransitivity; [apply append_new_length|]. rewrite Hc. cbn. lia.
  - cbn. etransitivity; [apply kept_length|exact Hlen].
Qed.

Lemma bar_loop_single (self : Backtester) (data : data_frame)
    (rows : list Row.t) (k : nat) (st st' : state) :
  single_position_mode self = true ->
  (List.length (open_trades st) <= 1)%nat ->
  bar_loop self data k rows st = Ok st' ->
  (List.length (open_trades st') <= 1)%nat.
Proof.
  intro Hm. revert k st. induction rows as [|row rest IH]; intros k st Hlen H.
  - cbn in H. now injection H as <-.
  - cbn [bar_loop] in H.
    destruct (bar_step self data k row st) as [st1|e] eqn:Hstep; [|discriminate].
    cbn [bind] in H. eapply IH; [|exact H].
    eapply bar_step_single; eassumption.
Qed.

(** C2.  In single-position mode, after any number of bars of a run (so
    before and after each bar is processed) at most one trade is open. *)
Theorem single_position_at_most_one (self : Backtester) (data : data_frame)
    (k : nat) (st : state) :
  single_position_mode self = true ->
  state_after self data k = Ok st ->
  (List.length (open_trades st) <= 1)%nat.
Proof.
  intros Hm H. unfold state_after in H.
  eapply bar_loop_single; [exact Hm| |exact H]. cbn. lia.
Qed.

Lemma single_position_at_most_one_witness :
  single_position_mode scenario_D_bt = true /\
  state_after scenario_D_bt scenario_D_data 3 = Ok scenario_D_state_3 /\
  List.length (closed_trades scenario_D_state_3) = 1%nat /\
  (List.length (open_trades scenario_D_state_3) <= 1)%nat.
Proof.
  split; [reflexivity|]. split; [vm_compute; reflexivity|].
  split; [reflexivity|].
  apply (single_position_at_most_one scenario_D_bt scenario_D_data 3).
  - reflexivity.
  - vm_compute. reflexivity.
Defined.

(** ** Trade identifiers *)

Lemma update_trade_id (h l c : Q) (t : Trade.t) :
  Trade.id (update_trade h l c t) = Trade.id t.
Proof. apply (update_trade_entry h l c t). Qed.

Lemma kept_exited_ids (self : Backtester) (dt : Z) (h l c : Q) (k : nat)
    (ots : list Trade.t) :
  Permutation
    (map Trade.id (exited self dt h l c k ots) ++ map Trade.id (kept h l c ots))
    (map Trade.id ots).
Proof.
  induction ots as [|t rest IH]; [constructor|].
  unfold exited, kept in *. cbn [map flat_map filter].
  destruct (exit_decision h l (update_trade h l c t)) as [[p r]|].
  - cbn [app map]. cbn [_close_trade Trade.set_exit Trade.id].
    rewrite update_trade_id. now constructor.
  - cbn [app map]. rewrite update_trade_id.
    etransitivity; [symmetry; apply Permutation_middle|]. now constructor.
Qed.

Lemma open_row_id (self : Backtester) (data : data_frame) (tid k : nat)
    (row : Row.t) (nt : Trade.t) :
  open_row self data tid k row = Some nt -> Trade.id nt = tid.
Proof.
  unfold open_row, _open_trade_from_row.
  destruct (Row.signal row =? 0)%Z; [discriminate|].
  destruct (Row.joined row); [|discriminate].
  intro H. injection H as <-. reflexivity.
Qed.

Lemma append_new_ids (self : Backtester) (data : data_frame) (k : nat)
    (row : Row.t) (ots cls : list Trade.t) (tid : nat) :
  Permutation (map Trade.id (cls ++ ots)) (seq 0 tid) ->
  ids_exact (append_new (open_row self data tid k row) ots cls tid).
Proof.
  intro H. unfold ids_exact, append_new.
  destruct (open_row self data tid k row) as [nt|] eqn:Hnew;
    cbn [open_trades closed_trades trade_id]; [|exact H].
  rewrite seq_S, app_assoc, (map_app _ (cls ++ ots)). cbn [map Nat.add].
  rewrite (open_row_id _ _ _ _ _ _ Hnew).
  now apply Permutation_app_tail.
Qed.

Lemma bar_step_ids (self : Backtester) (data : data_frame) (k : nat)
    (row : Row.t) (st st' : state) :
  ids_exact st ->
  bar_step self data k row st = Ok st' ->
  ids_exact st'.
Proof.
  intros Hids Hstep. apply bar_step_cases in Hstep. cbv zeta in Hstep.
  unfold ids_exact in Hids. rewrite map_app in Hids.
  pose proof (kept_exited_ids self (Row.datetime row) (Row.high row)
                (Row.low row) (Row.close row) k (open_trades st)) as Hp.
  assert (Hall : Permutation
            (map Trade.id (closed_trades st)
             ++ map Trade.id (exited self (Row.datetime row) (Row.high row)
                                (Row.low row) (Row.close row) k (open_trades st))
             ++ map Trade.id (kept (Row.high row) (Row.low row) (Row.close row)
                                (open_trades st)))
            (seq 0 (trade_id st))).
  { etransitivity; [|exact Hids]. now apply Permutation_app_head. }
  destruct Hstep as [_ [[_ [_ [_ ->]]]|[[_ [_ ->]]|[_ ->]]]].
  - apply append_new_ids. rewrite app_nil_r, !map_app, map_map. cbn.
    rewrite <- app_assoc. exact Hall.
  - apply append_new_ids. rewrite !map_app, <- app_assoc. exact Hall.
  - unfold ids_exact. cbn. rewrite !map_app, <- app_assoc. exact Hall.
Qed.

Lemma bar_loop_ids (self : Backtester) (data : data_frame)
    (rows : list Row.t) (k : nat) (st st' : state) :
  ids_exact st ->
  bar_loop self data k rows st = Ok st' ->
  ids_exact st'.
Proof.
  revert k st. induction rows as [|row rest IH]; intros k st Hids H.
  - cbn in H. now injection H as <-.
  - cbn [bar_loop] in H.
    destruct (bar_step self data k row st) as [st1|e] eqn:Hstep; [|discriminate].
    cbn [bind] in H. eapply IH; [|exact H].
    eapply bar_step_ids; eassumption.
Qed.

Lemma state_after_ids (self : Backtester) (data : data_frame) (k : nat)
    (st : state) :
  state_after self data k = Ok st -> ids_exact st.
Proof.
  intro H. eapply bar_loop_ids; [|exact H]. constructor.
Qed.

(** Two trades of a state with the same identifier are the same trade. *)
Lemma ids_exact_unique (st : state) (x y : Trade.t) :
  ids_exact st ->
  In x (closed_trades st ++ open_trades st) ->
  In y (closed_trades st ++ open_trades st) ->
  Trade.id x = Trade.id y ->
  x = y.
Proof.
  intros Hids Hx Hy Hxy.
  assert (Hnd : NoDup (map Trade.id (closed_trades st ++ open_trades st))).
  { eapply Permutation_NoDup; [symmetry; exact Hids|apply seq_NoDup]. }
  revert Hnd Hx Hy. generalize (closed_trades st ++ open_trades st).
  induction l as [|a l IH]; intros Hnd Hx Hy; [destruct Hx|].
  cbn in Hnd. inversion Hnd as [|? ? Hna Hnd']; subst.
  destruct Hx as [->|Hx], Hy as [->|Hy].
  - reflexivity.
  - exfalso. apply Hna. rewrite Hxy. now apply in_map.
  - exfalso. apply Hna. rewrite <- Hxy. now apply in_map.
  - now apply IH.
Qed.

(** One more bar. *)
Lemma state_after_S (self : Backtester) (data : data_frame) (k : nat)
    (row : Row.t) :
  nth_error (d_rows data) k = Some row ->
  state_after self data (S k)
  = (st <- state_after self data k ;; bar_step self data k row st).
Proof.
  intro Hrow. unfold state_after.
  assert (Hk : (k < List.length (d_rows data))%nat)
    by (apply nth_error_Some; congruence).
  assert (E : firstn (S k) (d_rows data) = firstn k (d_rows data) ++ [row]).
  { revert k Hrow Hk. generalize (d_rows data).
    induction l as [|a l IH]; intros k Hrow Hk; [cbn in Hk; lia|].
    destruct k as [|k].
    - cbn in Hrow. injection Hrow as ->. reflexivity.
    - cbn [firstn app]. f_equal. apply IH; [exact Hrow|cbn in Hk; lia]. }
  rewrite E, bar_loop_app.
  destruct (bar_loop self data 0 (firstn k (d_rows data)) initial_state)
    as [st|e]; cbn [bind]; [|reflexivity].
  rewrite length_firstn, Nat.min_l by lia. cbn [Nat.add bar_loop].
  now destruct (bar_step self data k row st).
Qed.

(** ** C3: the stop wins a tie *)

Lemma exit_on_sl (row : Row.t) (t : Trade.t) :
  stop_touched (Row.high row) (Row.low row) t ->
  exists sp, Trade.stop_price t = Some sp /\ exit_on row t = Some (sp, "sl"%string).
Proof.
  intro Hs. pose proof (proj2 (hit_sl_touched _ _ _) Hs) as Hhit.
  destruct Hs as [sp [Hsp _]]. exists sp. split; [exact Hsp|].
  unfold exit_on, exit_decision. rewrite Hhit, Hsp. reflexivity.
Qed.

(** A stop touched before the trailing ratchet is touched after it. *)
Lemma stop_touched_update (h l c : Q) (t : Trade.t) :
  stop_touched h l t -> stop_touched h l (update_trade h l c t).
Proof.
  intros [sp [Hsp Hle]]. unfold stop_touched.
  destruct t as [i d et eb ep sz s tk [dist|] rk mf ma v xt xb xp pn co cc xr];
    cbn in Hsp, Hle; subst s; destruct d; cbn.
  - eexists. split; [reflexivity|].
    eapply Qle_trans; [exact Hle|apply py_max_l].
  - eexists. split; [reflexivity|].
    eapply Qle_trans; [apply py_min_l|exact Hle].
  - now exists sp.
  - now exists sp.
Qed.

Lemma take_touched_update (h l c : Q) (t : Trade.t) :
  take_touched h l t <-> take_touched h l (update_trade h l c t).
Proof.
  unfold take_touched.
  destruct (update_trade_entry h l c t) as [_ [-> [_ [_ [_ [_ [-> _]]]]]]].
  reflexivity.
Qed.

(** The closed trades of a state stay in the next one. *)
Lemma bar_step_closed (self : Backtester) (data : data_frame) (k : nat)
    (row : Row.t) (st st' : state) :
  bar_step self data k row st = Ok st' ->
  forall x,
    In x (closed_trades st
          ++ exited self (Row.datetime row) (Row.high row) (Row.low row)
               (Row.close row) k (open_trades st)) ->
    In x (closed_trades st').
Proof.
  intros Hstep x Hin. apply bar_step_cases in Hstep. cbv zeta in Hstep.
  destruct Hstep as [_ [[_ [_ [_ ->]]]|[[_ [_ ->]]|[_ ->]]]].
  - unfold append_new. destruct (open_row _ _ _ _ _); cbn;
      apply in_or_app; now left.
  - unfold append_new. now destruct (open_row _ _ _ _ _).
  - exact Hin.
Qed.

(** C3.  In a run, let a trade be open when bar [k] starts, and let the bar
    touch both its target and its stop (the stop it held when the bar
    started, or the one the bar's trailing ratchet leaves it with).  Then
    the bar closes the trade with reason [sl] at its stop price, and no
    other record of that trade exists after the bar: it is not closed with
    reason [tp]. *)
Theorem stop_takes_priority (self : Backtester) (data : data_frame) (k : nat)
    (row : Row.t) (st st' : state) (t : Trade.t) :
  state_after self data k = Ok st ->
  nth_error (d_rows data) k = Some row ->
  state_after self data (S k) = Ok st' ->
  In t (open_trades st) ->
  stop_touched (Row.high row) (Row.low row) t \/
  stop_touched (Row.high row) (Row.low row) (update_on row t) ->
  take_touched (Row.high row) (Row.low row) t ->
  exists sp closed,
    Trade.stop_price (update_on row t) = Some sp /\
    closed = _close_trade self (update_on row t) sp (Row.datetime row) k "sl" /\
    Trade.exit_reason closed = Some "sl"%string /\
    Trade.exit_price closed
    = Some (sp * (1 - dir_factor (Trade.direction t) * slippage self)) /\
    In closed (closed_trades st') /\
    forall other,
      In other (closed_trades st' ++ open_trades st') ->
      Trade.id other = Trade.id t ->
      other = closed.
Proof.
  intros Hst Hrow Hst' Hin Hs _.
  assert (Hs' : stop_touched (Row.high row) (Row.low row) (update_on row t)).
  { destruct Hs as [Hs|Hs]; [now apply stop_touched_update|exact Hs]. }
  rewrite (state_after_S _ _ _ _ Hrow), Hst in Hst'. cbn [bind] in Hst'.
  destruct (exit_on_sl row _ Hs') as [sp [Hsp Hexit]].
  exists sp. eexists. split; [exact Hsp|]. split; [reflexivity|].
  split; [reflexivity|].
  split.
  { cbn. unfold update_on.
    now destruct (update_trade_entry (Row.high row) (Row.low row)
                    (Row.close row) t) as [_ [-> _]]. }
  assert (Hclosed : In (_close_trade self (update_on row t) sp
                          (Row.datetime row) k "sl") (closed_trades st')).
  { eapply bar_step_closed; [exact Hst'|].
    apply in_or_app. right. now apply exited_intro. }
  split; [exact Hclosed|].
  intros other Hother Hid.
  assert (Hids : ids_exact st').
  { eapply bar_step_ids; [|exact Hst']. eapply state_after_ids, Hst. }
  eapply ids_exact_unique; [exact Hids|exact Hother| |].
  - apply in_or_app. now left.
  - rewrite Hid. cbn. unfold update_on. now rewrite update_trade_id.
Qed.

Lemma stop_takes_priority_witness :
  state_after tie_bt tie_data 1 = Ok tie_state_1 /\
  nth_error (d_rows tie_data) 1 = Some tie_row_1 /\
  state_after tie_bt tie_data 2 = Ok tie_state_2 /\
  exists t closed,
    open_trades tie_state_1 = [t] /\
    Trade.stop_price t = Some 95 /\ Trade.take_price t = Some 105 /\
    Row.low tie_row_1 <= 95 /\ 105 <= Row.high tie_row_1 /\
    In closed (closed_trades tie_state_2) /\
    Trade.id closed = Trade.id t /\
    Trade.exit_reason closed = Some "sl"%string /\
    Trade.exit_price closed = Some (95 * (1 - 1 * 0)).
Proof.
  split; [vm_compute; reflexivity|]. split; [reflexivity|].
  split; [vm_compute; reflexivity|].
  destruct (stop_takes_priority tie_bt tie_data 1 tie_row_1 tie_state_1
              tie_state_2 (hd no_trade (open_trades tie_state_1)))
    as (sp & closed & Hsp & Hc & Hr & Hpx & Hin & _).
  - vm_compute. reflexivity.
  - reflexivity.
  - vm_compute. reflexivity.
  - left. reflexivity.
  - left. apply hit_sl_touched. reflexivity.
  - apply hit_tp_touched. reflexivity.
  - eexists. exists closed. split; [reflexivity|].
    split; [reflexivity|]. split; [reflexivity|].
    split; [apply Qle_bool_iff; reflexivity|].
    split; [apply Qle_bool_iff; reflexivity|].
    split; [exact Hin|]. split; [rewrite Hc; reflexivity|].
    split; [exact Hr|].
    cbn in Hsp. injection Hsp as <-. exact Hpx.
Defined.

(** ** C4: what is open at the end is closed there *)

Lemma trade_of_aggregate (trades : list Trade.t) :
  map LedgerRow.trade (map aggregate trades) = trades.
Proof.
  rewrite map_map. cbn. apply map_id.
Qed.

Lemma close_eod_ids (self : Backtester) (data : data_frame) (st : state) :
  Forall (open_before self data (List.length (d_rows data))) (open_trades st) ->
  map Trade.id (close_eod self data st)
  = map Trade.id (closed_trades st ++ open_trades st).
Proof.
  intro Ho.
  destruct (close_eod_eq self data st Ho) as [[Eo ->]|[last_row [_ ->]]].
  - now rewrite Eo, app_nil_r.
  - rewrite !map_app, map_map. reflexivity.
Qed.

(** C4.  Let [st] be the state of the loop after the last bar of a run.
    Every trade still open in [st] is on the ledger as a record closed with
    reason [eod], at the index, the timestamp and the close (before
    slippage) of the last bar.  The identifiers on the ledger are those of
    all the trades the run opened, [0] to [trade_id st - 1], each on one
    row. *)
Theorem forced_closure (self : Backtester) (signals : signal_frame)
    (ledger : list LedgerRow.t) :
  frame_empty signals = false ->
  run self (Some signals) = Ok ledger ->
  exists data st,
    prepare self signals = Ok data /\
    bar_loop self data 0 (d_rows data) initial_state = Ok st /\
    (forall t, In t (open_trades st) ->
       exists last_row closed,
         nth_error (d_rows data) (List.length (d_rows data) - 1)
         = Some last_row /\
         closed = _close_trade self t (Row.close last_row)
                    (Row.datetime last_row)
                    (List.length (d_rows data) - 1) "eod" /\
         In closed (map LedgerRow.trade ledger) /\
         Trade.id closed = Trade.id t /\
         Trade.exit_reason closed = Some "eod"%string /\
         Trade.exit_bar_index closed = Some (List.length (d_rows data) - 1)%nat /\
         Trade.exit_time closed = Some (Row.datetime last_row) /\
         Trade.exit_price closed
         = Some (Row.close last_row
                 * (1 - dir_factor (Trade.direction t) * slippage self))) /\
    Permutation (map Trade.id (map LedgerRow.trade ledger))
                (seq 0 (trade_id st)).
Proof.
  intros He Hrun. apply run_inv in Hrun as [trades [Hrun ->]].
  rewrite trade_of_aggregate.
  apply run_trades_inv in Hrun as [data [st [Hp [Hl ->]]]]; [|exact He].
  exists data, st. split; [exact Hp|]. split; [exact Hl|].
  pose proof (bar_loop_all_traced self data st Hl) as [Ho _].
  split.
  - intros t Hin.
    destruct (close_eod_eq self data st Ho) as [[Eo _]|[last_row [Hlast E]]].
    + rewrite Eo in Hin. destruct Hin.
    + exists last_row. eexists. split; [exact Hlast|]. split; [reflexivity|].
      split.
      { rewrite E. apply in_or_app. right.
        apply (in_map (fun t => _close_trade self t (Row.close last_row)
                 (Row.datetime last_row) (List.length (d_rows data) - 1) "eod")).
        exact Hin. }
      repeat split.
  - rewrite close_eod_ids by exact Ho.
    apply (bar_loop_ids self data (d_rows data) 0 initial_state st);
      [constructor|exact Hl].
Qed.

Lemma forced_closure_witness :
  frame_empty scenario_D_signals = false /\
  run scenario_D_bt (Some scenario_D_signals) = Ok scenario_D_ledger /\
  map (fun lr => (Trade.id (LedgerRow.trade lr),
                  Trade.exit_reason (LedgerRow.trade lr),
                  Trade.exit_bar_index (LedgerRow.trade lr)))
      scenario_D_ledger
  = [(0%nat, Some "signal"%string, Some 2%nat);
     (1%nat, Some "eod"%string, Some 4%nat)] /\
  exists n,
    Permutation (map Trade.id (map LedgerRow.trade scenario_D_ledger))
                (seq 0 n).
Proof.
  split; [reflexivity|]. split; [vm_compute; reflexivity|].
  split; [reflexivity|].
  destruct (forced_closure scenario_D_bt scenario_D_signals scenario_D_ledger)
    as [data [st [_ [_ [_ Hperm]]]]].
  - reflexivity.
  - vm_compute. reflexivity.
  - exists (trade_id st). exact Hperm.
Defined.

(** ** The life of a trade *)

Lemma firstn_snoc {A : Type} (l : list A) (k : nat) (x : A) :
  nth_error l k = Some x -> firstn (S k) l = firstn k l ++ [x].
Proof.
  revert k. induction l as [|a l IH]; intros k H.
  - destruct k; discriminate.
  - destruct k as [|k].
    + cbn in H. injection H as ->. reflexivity.
    + cbn [firstn app]. f_equal. now apply IH.
Qed.

Lemma slice_empty {A : Type} (l : list A) (a : nat) : slice l a a = [].
Proof. unfold slice. now rewrite Nat.sub_diag. Qed.

Lemma slice_snoc {A : Type} (l : list A) (a k : nat) (x : A) :
  (a <= k)%nat -> nth_error l k = Some x ->
  slice l a (S k) = slice l a k ++ [x].
Proof.
  intros Hle H. unfold slice.
  replace (S k - a)%nat with (S (k - a)) by lia.
  apply firstn_snoc. rewrite nth_error_skipn.
  now replace (a + (k - a))%nat with k by lia.
Qed.

Lemma updated_over_snoc (t : Trade.t) (bars : list Row.t) (row : Row.t) :
  updated_over t (bars ++ [row]) = update_on row (updated_over t bars).
Proof.
  revert t. induction bars as [|r bars IH]; intro t; [reflexivity|].
  cbn [app updated_over]. apply IH.
Qed.

Lemma open_before_lived (self : Backtester) (data : data_frame) (k : nat)
    (u : Trade.t) :
  open_before self data k u -> exists e t0, lived self data e k t0 u.
Proof.
  intro H. induction H as [k row tid nt Hrow Hnew|k row t Hopen IH Hrow Hexit].
  - exists k, nt. exists row.
    assert (k < List.length (d_rows data))%nat
      by (apply nth_error_Some; congruence).
    split; [lia|]. split; [exact Hrow|].
    rewrite (open_row_id _ _ _ _ _ _ Hnew). split; [exact Hnew|].
    now rewrite slice_empty.
  - destruct IH as [e [t0 [row0 [Hek [Hrow0 [Hnew ->]]]]]].
    exists e, t0. exists row0.
    assert (k < List.length (d_rows data))%nat
      by (apply nth_error_Some; congruence).
    split; [lia|]. split; [exact Hrow0|]. split; [exact Hnew|].
    rewrite (slice_snoc _ _ _ _ (proj1 Hek) Hrow). symmetry.
    apply updated_over_snoc.
Qed.

(** A closing bar updates the trade before it closes it. *)
Lemma lived_update (self : Backtester) (data : data_frame) (e k : nat)
    (t0 u : Trade.t) (row : Row.t) :
  lived self data e k t0 u ->
  nth_error (d_rows data) k = Some row ->
  lived self data e (S k) t0 (update_on row u).
Proof.
  intros [row0 [Hek [Hrow0 [Hnew ->]]]] Hrow. exists row0.
  assert (k < List.length (d_rows data))%nat
    by (apply nth_error_Some; congruence).
  split; [lia|]. split; [exact Hrow0|]. split; [exact Hnew|].
  rewrite (slice_snoc _ _ _ _ (proj1 Hek) Hrow). symmetry.
  apply updated_over_snoc.
Qed.

Lemma closed_in_loop_lived (self : Backtester) (data : data_frame)
    (x : Trade.t) :
  closed_in_loop self data x ->
  exists e j t0 u row p r,
    (e < j)%nat /\
    lived self data e (S j) t0 u /\
    nth_error (d_rows data) j = Some row /\
    x = _close_trade self u p (Row.datetime row) j r /\
    (r = "sl" \/ r = "tp" \/ r = "signal")%string.
Proof.
  intro H. destruct H as [k row t p r Hopen Hrow Hexit|k row t Hopen Hrow Hexit Hm Hs];
    apply open_before_lived in Hopen as [e [t0 Hl]];
    pose proof Hl as [_ [[Hek _] _]];
    exists e, k, t0, (update_on row t), row.
  - exists p, r. split; [exact Hek|]. split; [now apply lived_update|].
    split; [exact Hrow|]. split; [reflexivity|].
    apply exit_decision_reason in Hexit as [->| ->]; auto.
  - exists (Row.close row), "signal"%string. split; [exact Hek|].
    split; [now apply lived_update|]. auto.
Qed.

Lemma closed_at_end_lived (self : Backtester) (data : data_frame)
    (x : Trade.t) :
  closed_at_end self data x ->
  exists e t0 u last_row,
    lived self data e (List.length (d_rows data)) t0 u /\
    nth_error (d_rows data) (List.length (d_rows data) - 1) = Some last_row /\
    x = _close_trade self u (Row.close last_row) (Row.datetime last_row)
          (List.length (d_rows data) - 1) "eod".
Proof.
  intro H. destruct H as [t last_row Hopen Hlast].
  apply open_before_lived in Hopen as [e [t0 Hl]].
  now exists e, t0, t, last_row.
Qed.

(** The fields fixed at entry, over a run of bars. *)
Lemma updated_over_entry (bars : list Row.t) (t : Trade.t) :
  let t' := updated_over t bars in
  Trade.id t' = Trade.id t /\
  Trade.direction t' = Trade.direction t /\
  Trade.entry_time t' = Trade.entry_time t /\
  Trade.entry_bar_index t' = Trade.entry_bar_index t /\
  Trade.entry_price t' = Trade.entry_price t /\
  Trade.size t' = Trade.size t /\
  Trade.take_price t' = Trade.take_price t /\
  Trade.trailing_distance t' = Trade.trailing_distance t /\
  Trade.risk t' = Trade.risk t /\
  Trade.commission_open t' = Trade.commission_open t /\
  Trade.exit_bar_index t' = Trade.exit_bar_index t /\
  Trade.exit_reason t' = Trade.exit_reason t.
Proof.
  revert t. induction bars as [|row bars IH]; intro t.
  - cbn. repeat split; reflexivity.
  - cbn [updated_over]. cbv zeta in *.
    specialize (IH (update_on row t)).
    pose proof (update_trade_entry (Row.high row) (Row.low row) (Row.close row) t)
      as HU. cbv zeta in HU. fold (update_on row t) in HU.
    destruct IH as (I1 & I2 & I3 & I4 & I5 & I6 & I7 & I8 & I9 & I10 & I11 & I12).
    destruct HU as (U1 & U2 & U3 & U4 & U5 & U6 & U7 & U8 & U9 & U10 & U11 & U12).
    repeat split; congruence.
Qed.

(** What [_open_trade_from_row] puts on a new trade. *)
Lemma open_row_fields (self : Backtester) (data : data_frame) (tid e : nat)
    (row : Row.t) (t0 : Trade.t) :
  open_row self data tid e row = Some t0 ->
  Row.signal row <> 0%Z /\
  Trade.direction t0 = (if (0 <? Row.signal row)%Z then long else short) /\
  Trade.entry_bar_index t0 = e /\
  Trade.entry_time t0 = Row.datetime row /\
  Trade.entry_price t0
  = Row.close row * (1 + dir_factor (Trade.direction t0) * slippage self) /\
  Trade.commission_open t0
  = fmul (Some (commission_perc self * Trade.entry_price t0)) (Trade.size t0) /\
  Trade.max_favor t0 = 0 /\ Trade.max_adverse t0 = 0 /\
  Trade.exit_bar_index t0 = None /\ Trade.exit_reason t0 = None.
Proof.
  unfold open_row, _open_trade_from_row.
  destruct (Row.signal row =? 0)%Z eqn:Es; [discriminate|].
  apply Z.eqb_neq in Es.
  destruct (Row.joined row) as [s|]; [|discriminate].
  intro H. injection H as <-.
  cbn [Trade.direction Trade.entry_bar_index Trade.entry_time
       Trade.entry_price Trade.commission_open Trade.size Trade.max_favor
       Trade.max_adverse Trade.exit_bar_index Trade.exit_reason].
  repeat split; auto.
Qed.

(** The size of a new trade is the size cell of its bar, and 1 without a
    size column; nothing is charged for the exit yet. *)
Lemma open_row_size (self : Backtester) (data : data_frame) (tid e : nat)
    (row : Row.t) (t0 : Trade.t) :
  open_row self data tid e row = Some t0 ->
  Trade.size t0 = supplied_size data row /\
  Trade.commission_close t0 = Some 0.
Proof.
  unfold open_row, _open_trade_from_row, supplied_size.
  destruct (Row.signal row =? 0)%Z; [discriminate|].
  destruct (Row.joined row) as [s|]; [|discriminate].
  intro H. injection H as <-. split; reflexivity.
Qed.

(** ** C5: the trailing stop only ratchets *)

Lemma trail_step (h l c : Q) (t : Trade.t) (dist : Q) :
  Trade.trailing_distance t = Some dist ->
  stop_not_worse (Trade.direction t) (Trade.stop_price t)
    (Trade.stop_price (update_trade h l c t)) /\
  (Trade.stop_price t = None ->
   Trade.stop_price (update_trade h l c t)
   = Some (candidate_stop (Trade.direction t) c dist)).
Proof.
  destruct t as [i d et eb ep sz [sp|] tk td rk mf ma v xt xb xp pn co cc xr];
    cbn; intros ->; destruct d; cbn; split;
    try discriminate; try reflexivity; trivial.
  - apply py_max_l.
  - apply py_min_l.
Qed.

Lemma trail_ratchet (h l c : Q) (t : Trade.t) (dist : Q) :
  Trade.trailing_distance t = Some dist ->
  ratchet_step (Trade.direction t) (candidate_stop (Trade.direction t) c dist)
    (Trade.stop_price t) (Trade.stop_price (update_trade h l c t)).
Proof.
  unfold ratchet_step.
  destruct t as [i d et eb ep sz [sp|] tk td rk mf ma v xt xb xp pn co cc xr];
    cbn; intros ->; destruct d; cbn; eexists; (split; [reflexivity|]).
  - split; [apply py_max_r|]. split; [apply py_max_l|].
    unfold py_max. destruct (Qltb sp (c - dist)); auto.
  - split; [apply py_min_r|]. split; [apply py_min_l|].
    unfold py_min. destruct (Qltb (c + dist) sp); auto.
  - split; [apply Qle_refl|reflexivity].
  - split; [apply Qle_refl|reflexivity].
Qed.

Lemma stops_over_head (t : Trade.t) (bars : list Row.t) :
  exists rest, stops_over t bars = Trade.stop_price t :: rest.
Proof. destruct bars; eexists; reflexivity. Qed.

Lemma stops_over_last (bars : list Row.t) (t : Trade.t) :
  last (stops_over t bars) None = Trade.stop_price (updated_over t bars).
Proof.
  revert t. induction bars as [|row bars IH]; intro t; [reflexivity|].
  cbn [stops_over updated_over]. rewrite <- IH.
  destruct (stops_over_head (update_on row t) bars) as [rest ->]. reflexivity.
Qed.

Lemma stops_over_chain (bars : list Row.t) (t : Trade.t) (dist : Q) :
  Trade.trailing_distance t = Some dist ->
  chain (stop_not_worse (Trade.direction t)) (stops_over t bars).
Proof.
  revert t. induction bars as [|row bars IH]; intros t Ht; [exact I|].
  cbn [stops_over].
  pose proof (update_trade_entry (Row.high row) (Row.low row) (Row.close row) t)
    as HU. cbv zeta in HU. fold (update_on row t) in HU.
  destruct HU as (_ & Hd & _ & _ & _ & _ & _ & Htd & _).
  specialize (IH (update_on row t)). rewrite Htd, Hd in IH.
  specialize (IH Ht).
  destruct (stops_over_head (update_on row t) bars) as [rest E].
  rewrite E in *. cbn [chain]. split; [|exact IH].
  apply (trail_step (Row.high row) (Row.low row) (Row.close row) t dist Ht).
Qed.

Lemma lived_index (self : Backtester) (data : data_frame) (e j : nat)
    (t0 u : Trade.t) :
  lived self data e j t0 u ->
  Trade.entry_bar_index u = e /\ Trade.id u = Trade.id t0.
Proof.
  intros [row0 (Hej & Hrow0 & Hnew & ->)].
  pose proof (updated_over_entry (slice (d_rows data) (S e) j) t0) as HE.
  cbv zeta in HE. destruct HE as (Hid & _ & _ & Heb & _).
  apply open_row_fields in Hnew as (_ & _ & Hidx & _).
  split; congruence.
Qed.

Lemma lived_not_exited (self : Backtester) (data : data_frame) (e j : nat)
    (t0 u : Trade.t) :
  lived self data e j t0 u -> Trade.exit_bar_index u = None.
Proof.
  intros [row0 (_ & _ & Hnew & ->)].
  pose proof (updated_over_entry (slice (d_rows data) (S e) j) t0) as HE.
  cbv zeta in HE.
  destruct HE as (_ & _ & _ & _ & _ & _ & _ & _ & _ & _ & Hx & _).
  rewrite Hx. now apply open_row_fields in Hnew.
Qed.

Lemma stops_over_ratchets (bars : list Row.t) (t : Trade.t) (dist : Q) :
  Trade.trailing_distance t = Some dist ->
  ratchets (Trade.direction t) dist (stops_over t bars) bars.
Proof.
  revert t. induction bars as [|row bars IH]; intros t Ht; [exact I|].
  cbn [stops_over].
  pose proof (update_trade_entry (Row.high row) (Row.low row) (Row.close row) t)
    as HU. cbv zeta in HU. fold (update_on row t) in HU.
  destruct HU as (_ & Hd & _ & _ & _ & _ & _ & Htd & _).
  specialize (IH (update_on row t)). rewrite Htd, Hd in IH.
  specialize (IH Ht).
  destruct (stops_over_head (update_on row t) bars) as [rest E].
  rewrite E in *. cbn [ratchets]. split; [|exact IH].
  apply (trail_ratchet (Row.high row) (Row.low row) (Row.close row) t dist Ht).
Qed.

(** Every trade of a state has lived from its entry bar to the last bar of
    the state, when it is open, and to its exit bar, when it is closed. *)
Lemma state_trade_lived (self : Backtester) (data : data_frame) (k : nat)
    (st : state) (t : Trade.t) :
  state_after self data k = Ok st ->
  In t (open_trades st ++ closed_trades st) ->
  exists t0 u,
    lived self data (Trade.entry_bar_index t)
      match Trade.exit_bar_index t with
      | Some i => S i
      | None => Nat.min k (List.length (d_rows data))
      end t0 u /\
    (t = u \/ exists p time i r, t = _close_trade self u p time i r).
Proof.
  intros Hst Hin. apply state_after_traced in Hst as [Ho Hc].
  rewrite Forall_forall in Ho, Hc.
  apply in_app_or in Hin as [Hin|Hin].
  - destruct (open_before_lived _ _ _ _ (Ho t Hin)) as [e [t0 Hl]].
    destruct (lived_index _ _ _ _ _ _ Hl) as [He _].
    rewrite (lived_not_exited _ _ _ _ _ _ Hl), He.
    exists t0, t. auto.
  - destruct (closed_in_loop_lived _ _ _ (Hc t Hin))
      as (e & j & t0 & u & row & p & r & _ & Hl & _ & -> & _).
    destruct (lived_index _ _ _ _ _ _ Hl) as [He _].
    cbn [_close_trade Trade.set_exit Trade.exit_bar_index
         Trade.entry_bar_index]. rewrite He.
    exists t0, u. split; [exact Hl|]. right. repeat eexists.
Qed.

(** C5.  Take any trade, open or closed, of the state a run is in after [k]
    bars, and let it have a trailing distance.  It was built on the bar at
    its [entry_bar_index] and updated by every bar after that one, up to the
    last of the [k] bars when it is still open and up to its exit bar when
    it is closed.  The stops it held on the way, from the one it was built
    with to the one it has now, never move against it: they do not decrease
    for a long trade and do not increase for a short one, and a stop once
    set is never removed.  On each of those bars the stop becomes the better
    of the stop before and the bar's candidate, the close minus the distance
    (long) or plus the distance (short); so if the trade was built without a
    stop, the first of those bars sets the stop to its candidate. *)
Theorem trailing_stop_monotone (self : Backtester) (data : data_frame)
    (k : nat) (st : state) (t : Trade.t) (dist : Q) :
  state_after self data k = Ok st ->
  In t (open_trades st ++ closed_trades st) ->
  Trade.trailing_distance t = Some dist ->
  let e := Trade.entry_bar_index t in
  let j := match Trade.exit_bar_index t with
           | Some i => S i
           | None => Nat.min k (List.length (d_rows data))
           end in
  exists row0 t0,
    (e < j <= List.length (d_rows data))%nat /\
    nth_error (d_rows data) e = Some row0 /\
    open_row self data (Trade.id t) e row0 = Some t0 /\
    let bars := slice (d_rows data) (S e) j in
    List.length bars = (j - S e)%nat /\
    last (stops_over t0 bars) None = Trade.stop_price t /\
    chain (stop_not_worse (Trade.direction t)) (stops_over t0 bars) /\
    ratchets (Trade.direction t) dist (stops_over t0 bars) bars /\
    (Trade.stop_price t0 = None ->
     forall row rest, bars = row :: rest ->
       exists later,
         stops_over t0 bars
         = None
           :: Some (candidate_stop (Trade.direction t) (Row.close row) dist)
           :: later).
Proof.
  intros Hst Hin Htd e j. subst e j.
  destruct (state_trade_lived _ _ _ _ _ Hst Hin)
    as (t0 & u & [row0 (Hej & Hrow0 & Hnew & Hu)] & Ht).
  set (e := Trade.entry_bar_index t) in *.
  set (j := match Trade.exit_bar_index t with
            | Some i => S i
            | None => Nat.min k (List.length (d_rows data))
            end) in *.
  pose proof (updated_over_entry (slice (d_rows data) (S e) j) t0) as HE.
  cbv zeta in HE. rewrite <- Hu in HE.
  destruct HE as (Hid & Hd & _ & _ & _ & _ & _ & Htd0 & _).
  assert (Hsame : Trade.id t = Trade.id u /\
                  Trade.direction t = Trade.direction u /\
                  Trade.trailing_distance t = Trade.trailing_distance u /\
                  Trade.stop_price t = Trade.stop_price u).
  { destruct Ht as [->|(p & tm & i & r & ->)]; repeat split. }
  destruct Hsame as (Hi & Hdir & Htr & Hsp).
  exists row0, t0. split; [exact Hej|]. split; [exact Hrow0|].
  split; [now rewrite Hi, Hid|].
  assert (Htd' : Trade.trailing_distance t0 = Some dist) by congruence.
  cbv zeta. rewrite Hdir, Hd. split; [|split; [|split; [|split]]].
  - unfold slice. rewrite length_firstn, length_skipn. lia.
  - rewrite stops_over_last, <- Hu. now symmetry.
  - now apply stops_over_chain with (dist := dist).
  - now apply stops_over_ratchets.
  - intros Hnone row rest ->. cbn [stops_over].
    destruct (stops_over_head (update_on row t0) rest) as [later ->].
    exists later. rewrite Hnone. do 2 f_equal.
    apply (trail_step (Row.high row) (Row.low row) (Row.close row) t0 dist Htd'
             ), Hnone.
Qed.

Lemma trailing_stop_monotone_witness :
  state_after trail_bt trail_data 4 = Ok trail_state_4 /\
  In trail_trade_4 (open_trades trail_state_4 ++ closed_trades trail_state_4) /\
  Trade.trailing_distance trail_trade_4 = Some 5 /\
  Trade.entry_bar_index trail_trade_4 = 0%nat /\
  Trade.exit_bar_index trail_trade_4 = None /\
  exists row0 t0,
    nth_error (d_rows trail_data) 0 = Some row0 /\
    open_row trail_bt trail_data (Trade.id trail_trade_4) 0 row0 = Some t0 /\
    Trade.stop_price t0 = None /\
    stops_over t0 (slice (d_rows trail_data) 1 4)
    = [None; Some 99; Some 105; Some 105] /\
    Trade.stop_price trail_trade_4 = Some 105 /\
    chain (stop_not_worse long) (stops_over t0 (slice (d_rows trail_data) 1 4)).
Proof.
  split; [vm_compute; reflexivity|]. split; [left; reflexivity|].
  split; [reflexivity|]. split; [reflexivity|]. split; [reflexivity|].
  destruct (trailing_stop_monotone trail_bt trail_data 4 trail_state_4
              trail_trade_4 5)
    as (row0 & t0 & _ & Hrow & Hopen & _ & _ & Hchain & _ & _).
  - vm_compute. reflexivity.
  - left. reflexivity.
  - reflexivity.
  - exists row0, t0.
    change (Trade.entry_bar_index trail_trade_4) with 0%nat in Hrow, Hopen,
      Hchain.
    change (Trade.direction trail_trade_4) with long in Hchain.
    change (match Trade.exit_bar_index trail_trade_4 with
            | Some i => S i
            | None => Nat.min 4 (List.length (d_rows trail_data))
            end) with 4%nat in Hchain.
    split; [exact Hrow|]. split; [exact Hopen|].
    vm_compute in Hrow. injection Hrow as <-.
    vm_compute in Hopen. injection Hopen as <-.
    split; [reflexivity|]. split; [vm_compute; reflexivity|].
    split; [reflexivity|exact Hchain].
Defined.

(** ** The trades of the ledger and the bars that opened them *)

Lemma ledger_trade_lived (self : Backtester) (signals : option signal_frame)
    (ledger : list Trade.t) (t : Trade.t) :
  run_trades self signals = Ok ledger ->
  In t ledger ->
  exists sig data e j t0 u p time i r,
    signals = Some sig /\ prepare self sig = Ok data /\
    lived self data e j t0 u /\
    t = _close_trade self u p time i r.
Proof.
  intros Hrun Hin.
  destruct (run_trades_closed _ _ _ Hrun) as [->|[sig [data [-> [Hp H]]]]];
    [destruct Hin|].
  exists sig, data.
  destruct (H t Hin) as [Hc|Hc].
  - apply closed_in_loop_lived in Hc
      as (e & j & t0 & u & row & p & r & _ & Hl & _ & -> & _).
    exists e, (S j), t0, u, p, (Row.datetime row), j, r. auto.
  - apply closed_at_end_lived in Hc as (e & t0 & u & last_row & Hl & _ & ->).
    exists e, (List.length (d_rows data)), t0, u, (Row.close last_row),
      (Row.datetime last_row), (List.length (d_rows data) - 1)%nat,
      "eod"%string.
    auto.
Qed.

(** What a trade keeps from the bar that opened it. *)
Lemma lived_entry (self : Backtester) (data : data_frame) (e j : nat)
    (t0 u : Trade.t) :
  lived self data e j t0 u ->
  exists row,
    nth_error (d_rows data) (Trade.entry_bar_index u) = Some row /\
    Trade.entry_bar_index u = e /\
    Row.signal row <> 0%Z /\
    Trade.direction u = (if (0 <? Row.signal row)%Z then long else short) /\
    Trade.entry_time u = Row.datetime row /\
    Trade.entry_price u
    = Row.close row * (1 + dir_factor (Trade.direction u) * slippage self) /\
    Trade.commission_open u
    = fmul (Some (commission_perc self * Trade.entry_price u)) (Trade.size u).
Proof.
  intros [row0 (Hej & Hrow0 & Hnew & ->)].
  pose proof (updated_over_entry (slice (d_rows data) (S e) j) t0) as HE.
  cbv zeta in HE.
  destruct HE as (_ & Hd & Het & Heb & Hep & Hsz & _ & _ & _ & Hco & _).
  apply open_row_fields in Hnew
    as (Hs & Hdir & Hidx & Htime & Hpx & Hcom & _).
  exists row0. rewrite Heb, Hd, Het, Hep, Hsz, Hco, Hidx.
  repeat split; assumption.
Qed.

(** The size of a trade is the size cell of the bar that opened it. *)
Lemma lived_size (self : Backtester) (data : data_frame) (e j : nat)
    (t0 u : Trade.t) (row : Row.t) :
  lived self data e j t0 u ->
  nth_error (d_rows data) e = Some row ->
  Trade.size u = supplied_size data row.
Proof.
  intros [row0 (Hej & Hrow0 & Hnew & ->)] Hrow.
  assert (row0 = row) by congruence. subst row0.
  pose proof (updated_over_entry (slice (d_rows data) (S e) j) t0) as HE.
  cbv zeta in HE.
  destruct HE as (_ & _ & _ & _ & _ & Hsz & _).
  rewrite Hsz. now apply open_row_size in Hnew as [-> _].
Qed.

(** Closing a trade whose opening commission is the product of the rate, the
    entry price and the size: the record reconciles when the size is a
    number, and holds nothing but [NaN] otherwise. *)
Lemma close_trade_reconciled (self : Backtester) (t : Trade.t) (p : Q)
    (time : Z) (i : nat) (r : string) :
  Trade.commission_open t
  = fmul (Some (commission_perc self * Trade.entry_price t)) (Trade.size t) ->
  match Trade.size t with
  | Some _ => reconciled (_close_trade self t p time i r)
  | None => nan_sized (_close_trade self t p time i r)
  end.
Proof.
  intro Hco. unfold reconciled, nan_sized, _close_trade.
  cbn [Trade.set_exit Trade.exit_price Trade.pnl Trade.direction
       Trade.entry_price Trade.size Trade.commission_open
       Trade.commission_close].
  rewrite Hco. destruct (Trade.size t) as [sz|]; cbn [fmul fsub].
  - do 5 eexists. repeat (split; [reflexivity|]).
    unfold gross, dir_factor. destruct (Trade.direction t); ring.
  - repeat split.
Qed.

(** ** C1: profit reconciles *)

(** C1.  Every row of the ledger returned by [run] was opened on the bar at
    its [entry_bar_index] and has the size that the bar supplies: the cell
    of the [size] column, or 1 without that column.  Its net profit is the
    gross profit minus the opening and the closing commission, the gross
    profit being [(exit_price - entry_price) * size] for a long trade and
    [(entry_price - exit_price) * size] for a short one, computed from the
    prices after slippage that the row records.  The equation is between
    floats: when the size is a number, the two commissions and the net
    profit are numbers and it holds between them; when the size cell is
    [NaN], both commissions are [NaN] and so are both sides of it. *)
Theorem run_pnl_reconciled (self : Backtester) (signals : option signal_frame)
    (ledger : list LedgerRow.t) (lr : LedgerRow.t) :
  run self signals = Ok ledger ->
  In lr ledger ->
  let t := LedgerRow.trade lr in
  exists sig data row px,
    signals = Some sig /\ prepare self sig = Ok data /\
    nth_error (d_rows data) (Trade.entry_bar_index t) = Some row /\
    Trade.size t = supplied_size data row /\
    Trade.exit_price t = Some px /\
    feq (Trade.pnl t)
      (fsub (fsub (fgross (Trade.direction t) (Trade.entry_price t) px
                     (Trade.size t))
               (Trade.commission_open t))
         (Trade.commission_close t)) /\
    match Trade.size t with
    | Some _ => reconciled t
    | None => nan_sized t
    end.
Proof.
  intros Hrun Hin t. apply run_inv in Hrun as [trades [Hrun ->]].
  apply in_map_iff in Hin as [t' [<- Hin]]. subst t.
  cbn [aggregate LedgerRow.trade].
  destruct (ledger_trade_lived _ _ _ _ Hrun Hin)
    as (sig & data & e & j & t0 & u & p & tm & i & r & -> & Hp & Hl & ->).
  destruct (lived_entry _ _ _ _ _ _ Hl)
    as (row & Hrow & He & _ & _ & _ & _ & Hcom).
  rewrite He in Hrow.
  pose proof (lived_size _ _ _ _ _ _ _ Hl Hrow) as Hsz.
  pose proof (close_trade_reconciled self u p tm i r Hcom) as Hrec.
  exists sig, data, row.
  exists (p * (1 - dir_factor (Trade.direction u) * slippage self)).
  split; [reflexivity|]. split; [exact Hp|].
  split; [cbn [_close_trade Trade.set_exit Trade.entry_bar_index];
          now rewrite He|].
  split; [exact Hsz|]. split; [reflexivity|].
  split; [|exact Hrec].
  cbn [_close_trade Trade.set_exit Trade.pnl Trade.direction
       Trade.entry_price Trade.size Trade.commission_open
       Trade.commission_close].
  rewrite Hcom. unfold fgross.
  destruct (Trade.size u), (Trade.direction u);
    cbn [fmul fsub feq dir_factor]; try exact I; ring.
Qed.

Lemma run_pnl_reconciled_witness :
  run scenario_D_bt (Some nan_size_signals) = Ok nan_size_ledger /\
  exists first second,
    nan_size_ledger = [first; second] /\
    Trade.direction (LedgerRow.trade first) = long /\
    Trade.size (LedgerRow.trade first) = Some 2 /\
    reconciled (LedgerRow.trade first) /\
    Trade.direction (LedgerRow.trade second) = short /\
    nan_sized (LedgerRow.trade second).
Proof.
  split; [vm_compute; reflexivity|].
  exists (nth 0 nan_size_ledger (aggregate no_trade)),
    (nth 1 nan_size_ledger (aggregate no_trade)).
  split; [reflexivity|]. split; [reflexivity|]. split; [reflexivity|].
  destruct (run_pnl_reconciled scenario_D_bt (Some nan_size_signals)
              nan_size_ledger (nth 0 nan_size_ledger (aggregate no_trade)))
    as (sig & data & row & px & _ & _ & _ & _ & _ & _ & H0);
    [vm_compute; reflexivity|left; reflexivity|].
  destruct (run_pnl_reconciled scenario_D_bt (Some nan_size_signals)
              nan_size_ledger (nth 1 nan_size_ledger (aggregate no_trade)))
    as (sig' & data' & row' & px' & _ & _ & _ & _ & _ & _ & H1);
    [vm_compute; reflexivity|right; left; reflexivity|].
  split; [exact H0|]. split; [reflexivity|exact H1].
Defined.

(** ** C7: entry price and opening commission *)

(** C7.  Every row of the ledger comes from a bar, the one at its
    [entry_bar_index], whose signal is not zero.  If that signal is positive
    the trade is long and its entry price is the bar's close times
    [1 + slippage]; if it is negative the trade is short and its entry price
    is the close times [1 - slippage].  The size of the row is the one the
    bar supplies: the cell of the [size] column, or 1 without that column.
    The opening commission is the float
    [commission_perc * entry_price * size]: that number when the size is a
    number, and [NaN] when the size cell is [NaN]. *)
Theorem entry_price_and_commission (self : Backtester)
    (signals : option signal_frame) (ledger : list LedgerRow.t)
    (lr : LedgerRow.t) :
  run self signals = Ok ledger ->
  In lr ledger ->
  let t := LedgerRow.trade lr in
  exists sig data row,
    signals = Some sig /\ prepare self sig = Ok data /\
    nth_error (d_rows data) (Trade.entry_bar_index t) = Some row /\
    Row.signal row <> 0%Z /\
    ((0 < Row.signal row)%Z ->
     Trade.direction t = long /\
     Trade.entry_price t == Row.close row * (1 + slippage self)) /\
    ((Row.signal row < 0)%Z ->
     Trade.direction t = short /\
     Trade.entry_price t == Row.close row * (1 - slippage self)) /\
    Trade.size t = supplied_size data row /\
    Trade.commission_open t
    = fmul (Some (commission_perc self * Trade.entry_price t)) (Trade.size t)
    /\
    match Trade.size t with
    | Some size =>
        Trade.commission_open t
        = Some (commission_perc self * Trade.entry_price t * size)
    | None => Trade.commission_open t = None
    end.
Proof.
  intros Hrun Hin t. apply run_inv in Hrun as [trades [Hrun ->]].
  apply in_map_iff in Hin as [t' [<- Hin]]. subst t.
  cbn [aggregate LedgerRow.trade].
  destruct (ledger_trade_lived _ _ _ _ Hrun Hin)
    as (sig & data & e & j & t0 & u & p & tm & i & r & -> & Hp & Hl & ->).
  destruct (lived_entry _ _ _ _ _ _ Hl)
    as (row & Hrow & He & Hs & Hd & _ & Hpx & Hcom).
  assert (Hsz : Trade.size u = supplied_size data row).
  { apply (lived_size _ _ _ _ _ _ _ Hl). now rewrite <- He. }
  exists sig, data, row. split; [reflexivity|]. split; [exact Hp|].
  cbn [_close_trade Trade.set_exit Trade.entry_bar_index Trade.direction
       Trade.entry_price Trade.commission_open Trade.size].
  split; [exact Hrow|]. split; [exact Hs|].
  split; [|split; [|split; [exact Hsz|split; [exact Hcom|]]]].
  - intro H. split.
    + rewrite Hd. apply Z.ltb_lt in H. now rewrite H.
    + rewrite Hpx, Hd. apply Z.ltb_lt in H. rewrite H. cbn [dir_factor]. ring.
  - intro H. split.
    + rewrite Hd. destruct (0 <? Row.signal row)%Z eqn:E; [|reflexivity].
      apply Z.ltb_lt in E. lia.
    + rewrite Hpx, Hd. destruct (0 <? Row.signal row)%Z eqn:E.
      * apply Z.ltb_lt in E. lia.
      * cbn [dir_factor]. ring.
  - rewrite Hcom. destruct (Trade.size u); reflexivity.
Qed.

(** Scenario D: fees of 0.001 and slippage of 0.0005, a long entry at 100.
    And, under the same fees, the short entry at 104 of a signal whose size
    cell is [NaN]. *)
Lemma entry_price_and_commission_witness :
  commission_perc scenario_D_bt = 1 # 1000 /\
  slippage scenario_D_bt = 5 # 10000 /\
  run scenario_D_bt (Some scenario_D_signals) = Ok scenario_D_ledger /\
  (exists lr,
     In lr scenario_D_ledger /\
     Trade.direction (LedgerRow.trade lr) = long /\
     Trade.entry_price (LedgerRow.trade lr) == 100 * (10005 # 10000) /\
     Trade.size (LedgerRow.trade lr) = Some 1 /\
     Trade.commission_open (LedgerRow.trade lr)
     = Some ((1 # 1000) * Trade.entry_price (LedgerRow.trade lr) * 1)) /\
  run scenario_D_bt (Some nan_size_signals) = Ok nan_size_ledger /\
  (exists lr,
     In lr nan_size_ledger /\
     Trade.direction (LedgerRow.trade lr) = short /\
     Trade.entry_price (LedgerRow.trade lr) == 104 * (9995 # 10000) /\
     Trade.size (LedgerRow.trade lr) = None /\
     Trade.commission_open (LedgerRow.trade lr) = None).
Proof.
  split; [reflexivity|]. split; [reflexivity|].
  split; [vm_compute; reflexivity|]. split; [|split].
  - exists (hd (aggregate no_trade) scenario_D_ledger).
    split; [left; reflexivity|]. split; [reflexivity|].
    split; [reflexivity|]. split; [reflexivity|].
    destruct (entry_price_and_commission scenario_D_bt
                (Some scenario_D_signals) scenario_D_ledger
                (hd (aggregate no_trade) scenario_D_ledger))
      as (sig & data & row & _ & _ & _ & _ & _ & _ & _ & _ & Hcom);
      [vm_compute; reflexivity|left; reflexivity|].
    exact Hcom.
  - vm_compute. reflexivity.
  - exists (nth 1 nan_size_ledger (aggregate no_trade)).
    split; [right; left; reflexivity|]. split; [reflexivity|].
    split; [reflexivity|]. split; [reflexivity|].
    destruct (entry_price_and_commission scenario_D_bt
                (Some nan_size_signals) nan_size_ledger
                (nth 1 nan_size_ledger (aggregate no_trade)))
      as (sig & data & row & _ & _ & _ & _ & _ & _ & _ & _ & Hcom);
      [vm_compute; reflexivity|right; left; reflexivity|].
    exact Hcom.
Defined.

(** ** C6: the risk inferred from the stop *)

Lemma open_row_risk (self : Backtester) (data : data_frame) (tid e : nat)
    (row : Row.t) (t0 : Trade.t) :
  open_row self data tid e row = Some t0 ->
  Trade.stop_price t0 = supplied_stop data row /\
  Trade.risk t0
  = match supplied_risk data row, supplied_stop data row with
    | None, Some sp => fmul (Some (Qabs (Row.close row - sp))) (Trade.size t0)
    | _, _ => supplied_risk data row
    end.
Proof.
  unfold open_row, _open_trade_from_row, supplied_risk, supplied_stop.
  destruct (Row.signal row =? 0)%Z; [discriminate|].
  destruct (Row.joined row) as [s|]; [|discriminate].
  intro H. injection H as <-.
  cbn [Trade.stop_price Trade.risk Trade.size]. split; reflexivity.
Qed.

(** The trade of the ledger whose risk was inferred: the close of bar 0 is
    100, the entry price 100.05, the stop 95, and the risk is 5. *)
Lemma risk_from_entry_price_counterexample :
  run scenario_D_bt (Some risk_signals) = Ok risk_ledger /\
  In risk_trade (map LedgerRow.trade risk_ledger) /\
  Trade.entry_price risk_trade == 100 * (1 + slippage scenario_D_bt) /\
  Trade.stop_price risk_trade = Some 95 /\
  Trade.size risk_trade = Some 1 /\
  Trade.risk risk_trade = Some 5 /\
  ~ 5 == Qabs (Trade.entry_price risk_trade - 95) * 1.
Proof.
  split; [vm_compute; reflexivity|]. split; [left; reflexivity|].
  split; [reflexivity|]. split; [reflexivity|]. split; [reflexivity|].
  split; [reflexivity|]. intro H. vm_compute in H. discriminate H.
Qed.

(** C6, amended.  A row of the ledger comes from the bar at its
    [entry_bar_index] and has the size that the bar supplies: the cell of
    the [size] column, or 1 without that column.  If the bar supplied no
    risk but did supply a stop price, the risk on the row is the float
    [|close - stop_price| * size], where [close] is the bar's close, the
    price before slippage, and not the entry price: when the size is a
    number the risk is that number, which with no slippage is the distance
    from the entry price times the size; when the size cell is [NaN] the
    risk is [NaN]. *)
Theorem risk_inferred_from_close (self : Backtester)
    (signals : option signal_frame) (ledger : list LedgerRow.t)
    (lr : LedgerRow.t) :
  run self signals = Ok ledger ->
  In lr ledger ->
  let t := LedgerRow.trade lr in
  exists sig data row,
    signals = Some sig /\ prepare self sig = Ok data /\
    nth_error (d_rows data) (Trade.entry_bar_index t) = Some row /\
    Trade.size t = supplied_size data row /\
    forall sp,
      supplied_risk data row = None ->
      supplied_stop data row = Some sp ->
      Trade.risk t = fmul (Some (Qabs (Row.close row - sp))) (Trade.size t) /\
      match Trade.size t with
      | Some size =>
          Trade.risk t = Some (Qabs (Row.close row - sp) * size) /\
          (slippage self == 0 ->
           Qabs (Row.close row - sp) * size
           == Qabs (Trade.entry_price t - sp) * size)
      | None => Trade.risk t = None
      end.
Proof.
  intros Hrun Hin t. apply run_inv in Hrun as [trades [Hrun ->]].
  apply in_map_iff in Hin as [t' [<- Hin]]. subst t.
  cbn [aggregate LedgerRow.trade].
  destruct (ledger_trade_lived _ _ _ _ Hrun Hin)
    as (sig & data & e & j & t0 & u & p & tm & i & r & -> & Hp & Hl & ->).
  destruct (lived_entry _ _ _ _ _ _ Hl)
    as (row & Hrow & He & _ & _ & _ & Hpx & _).
  assert (Hsize : Trade.size u = supplied_size data row).
  { apply (lived_size _ _ _ _ _ _ _ Hl). now rewrite <- He. }
  destruct Hl as [row0 (Hej & Hrow0 & Hnew & Hu)].
  assert (row0 = row) by congruence. subst row0.
  pose proof (updated_over_entry (slice (d_rows data) (S e) j) t0) as HE.
  cbv zeta in HE. rewrite <- Hu in HE.
  destruct HE as (_ & _ & _ & _ & _ & Hsz & _ & _ & Hrisk & _).
  apply open_row_risk in Hnew as [_ Hr].
  exists sig, data, row. split; [reflexivity|]. split; [exact Hp|].
  cbn [_close_trade Trade.set_exit Trade.entry_bar_index Trade.risk
       Trade.entry_price Trade.size].
  split; [exact Hrow|]. split; [exact Hsize|]. intros sp Hnr Hsp.
  rewrite Hrisk, Hr, Hnr, Hsp, <- Hsz. split; [reflexivity|].
  destruct (Trade.size u) as [size|]; [|reflexivity].
  split; [reflexivity|].
  intro H0. rewrite Hpx, H0. apply Qmult_comp; [|reflexivity].
  apply Qabs_wd. ring.
Qed.

Lemma risk_inferred_from_close_witness :
  run scenario_D_bt (Some risk_signals) = Ok risk_ledger /\
  In (hd (aggregate no_trade) risk_ledger) risk_ledger /\
  Trade.size risk_trade = Some 1 /\
  Trade.risk risk_trade = Some 5 /\
  (exists row,
     nth_error (d_rows (merge (df scenario_D_bt) risk_signals))
       (Trade.entry_bar_index risk_trade) = Some row /\
     Row.close row = 100 /\
     supplied_risk (merge (df scenario_D_bt) risk_signals) row = None /\
     supplied_stop (merge (df scenario_D_bt) risk_signals) row = Some 95 /\
     Trade.risk risk_trade = Some (Qabs (Row.close row - 95) * 1)) /\
  run scenario_D_bt (Some nan_size_signals) = Ok nan_size_ledger /\
  Trade.stop_price nan_size_trade = Some 120 /\
  Trade.size nan_size_trade = None /\
  Trade.risk nan_size_trade = None.
Proof.
  split; [vm_compute; reflexivity|]. split; [left; reflexivity|].
  split; [reflexivity|]. split; [reflexivity|].
  split; [|split; [vm_compute; reflexivity|split; [reflexivity|split;
                                                    [reflexivity|]]]].
  - destruct (risk_inferred_from_close scenario_D_bt (Some risk_signals)
                risk_ledger (hd (aggregate no_trade) risk_ledger))
      as (sig & data & row & Hsig & Hp & Hrow & _ & H);
      [vm_compute; reflexivity|left; reflexivity|].
    injection Hsig as <-. vm_compute in Hp. injection Hp as <-.
    change (LedgerRow.trade (hd (aggregate no_trade) risk_ledger))
      with risk_trade in Hrow, H.
    vm_compute in Hrow. injection Hrow as <-.
    eexists. split; [vm_compute; reflexivity|]. split; [reflexivity|].
    split; [reflexivity|]. split; [reflexivity|].
    destruct (H 95) as (_ & Hr & _); [reflexivity|reflexivity|].
    exact Hr.
  - destruct (risk_inferred_from_close scenario_D_bt (Some nan_size_signals)
                nan_size_ledger (nth 1 nan_size_ledger (aggregate no_trade)))
      as (sig & data & row & Hsig & Hp & Hrow & _ & H);
      [vm_compute; reflexivity|right; left; reflexivity|].
    injection Hsig as <-. vm_compute in Hp. injection Hp as <-.
    change (LedgerRow.trade (nth 1 nan_size_ledger (aggregate no_trade)))
      with nan_size_trade in Hrow, H.
    vm_compute in Hrow. injection Hrow as <-.
    destruct (H 120) as (_ & Hr); [reflexivity|reflexivity|].
    exact Hr.
Defined.

(** ** C9: nothing happens to a trade on its entry bar *)

(** C9.  In a run over the merged frame [data]:
    - a trade that is open after [k] bars and was opened on the last of
      them, bar [k - 1], is exactly the record that [_open_trade_from_row]
      built from that bar: the bar has not updated its excursions or its
      stop, and has not tested its stop and target against its high and
      low;
    - every row of the ledger has an exit bar [j] that is not before its
      entry bar [e]; the two are equal only for a trade closed with reason
      [eod] on the last bar; and the bars that updated the trade before it
      was closed are [e + 1], ..., [j]. *)
Theorem no_update_on_entry_bar (self : Backtester) (signals : signal_frame)
    (data : data_frame) (ledger : list LedgerRow.t) :
  prepare self signals = Ok data ->
  run self (Some signals) = Ok ledger ->
  (forall k st t,
     state_after self data k = Ok st ->
     In t (open_trades st) ->
     S (Trade.entry_bar_index t) = Nat.min k (List.length (d_rows data)) ->
     exists row,
       nth_error (d_rows data) (Trade.entry_bar_index t) = Some row /\
       open_row self data (Trade.id t) (Trade.entry_bar_index t) row = Some t /\
       Trade.max_favor t = 0 /\ Trade.max_adverse t = 0 /\
       Trade.stop_price t = supplied_stop data row) /\
  (forall lr, In lr ledger ->
     let t := LedgerRow.trade lr in
     let e := Trade.entry_bar_index t in
     exists j row t0 p time r,
       Trade.exit_bar_index t = Some j /\
       Trade.exit_reason t = Some r /\
       (e <= j)%nat /\
       (e = j -> r = "eod"%string /\ S j = List.length (d_rows data)) /\
       nth_error (d_rows data) e = Some row /\
       open_row self data (Trade.id t) e row = Some t0 /\
       t = _close_trade self
             (updated_over t0 (slice (d_rows data) (S e) (S j))) p time j r).
Proof.
  intros Hp Hrun. split.
  - intros k st t Hst Hin Hidx.
    apply state_after_traced in Hst as [Ho _]. rewrite Forall_forall in Ho.
    destruct (open_before_lived _ _ _ _ (Ho t Hin)) as (e & t0 & Hl).
    destruct (lived_index _ _ _ _ _ _ Hl) as [He Hid].
    destruct Hl as [row0 (Hej & Hrow0 & Hnew & Hu)].
    rewrite He in Hidx. rewrite <- Hidx, slice_empty in Hu. cbn in Hu.
    subst t0. rewrite He. exists row0. split; [exact Hrow0|].
    split; [exact Hnew|].
    pose proof (open_row_fields _ _ _ _ _ _ Hnew)
      as (_ & _ & _ & _ & _ & _ & Hmf & Hma & _).
    pose proof (open_row_risk _ _ _ _ _ _ Hnew) as [Hsp _].
    auto.
  - intros lr Hin t e. subst e t.
    apply run_inv in Hrun as [trades [Hrun ->]].
    apply in_map_iff in Hin as [t [<- Hin]]. cbn [aggregate LedgerRow.trade].
    destruct (run_trades_closed _ _ _ Hrun) as [->|(sig & data' & E & Hp' & H)];
      [destruct Hin|].
    injection E as <-. rewrite Hp in Hp'. injection Hp' as <-.
    destruct (H t Hin) as [Hc|Hc].
    + apply closed_in_loop_lived in Hc
        as (e & j & t0 & u & row & p & r & Hej & Hl & Hrow & -> & Hr).
      destruct (lived_index _ _ _ _ _ _ Hl) as [He Hid].
      destruct Hl as [row0 (_ & Hrow0 & Hnew & Hu)].
      cbn [_close_trade Trade.set_exit Trade.entry_bar_index Trade.id
           Trade.exit_bar_index Trade.exit_reason].
      rewrite He, Hid.
      exists j, row0, t0, p, (Row.datetime row), r.
      split; [reflexivity|]. split; [reflexivity|]. split; [lia|].
      split; [lia|]. split; [exact Hrow0|]. split; [exact Hnew|].
      now rewrite <- Hu.
    + apply closed_at_end_lived in Hc as (e & t0 & u & last_row & Hl & Hlast & ->).
      destruct (lived_index _ _ _ _ _ _ Hl) as [He Hid].
      destruct Hl as [row0 (Hej & Hrow0 & Hnew & Hu)].
      cbn [_close_trade Trade.set_exit Trade.entry_bar_index Trade.id
           Trade.exit_bar_index Trade.exit_reason].
      rewrite He, Hid.
      exists (List.length (d_rows data) - 1)%nat, row0, t0,
        (Row.close last_row), (Row.datetime last_row), "eod"%string.
      split; [reflexivity|]. split; [reflexivity|]. split; [lia|].
      split; [intros _; split; [reflexivity|lia]|].
      split; [exact Hrow0|]. split; [exact Hnew|].
      replace (S (List.length (d_rows data) - 1)) with (List.length (d_rows data))
        by lia.
      now rewrite <- Hu.
Qed.

Lemma no_update_on_entry_bar_witness :
  prepare breach_bt breach_signals = Ok breach_data /\
  run breach_bt (Some breach_signals) = Ok breach_ledger /\
  state_after breach_bt breach_data 1 = Ok breach_state_1 /\
  open_trades breach_state_1 = [breach_trade_1] /\
  closed_trades breach_state_1 = [] /\
  Trade.stop_price breach_trade_1 = Some 95 /\
  Trade.take_price breach_trade_1 = Some (1005 # 10) /\
  exists row,
    nth_error (d_rows breach_data) 0 = Some row /\
    Row.low row <= 95 /\ 1005 # 10 <= Row.high row /\
    open_row breach_bt breach_data 0 0 row = Some breach_trade_1.
Proof.
  split; [vm_compute; reflexivity|]. split; [vm_compute; reflexivity|].
  split; [vm_compute; reflexivity|]. split; [reflexivity|].
  split; [reflexivity|]. split; [reflexivity|]. split; [reflexivity|].
  destruct (no_update_on_entry_bar breach_bt breach_signals breach_data
              breach_ledger) as [H _].
  - vm_compute. reflexivity.
  - vm_compute. reflexivity.
  - destruct (H 1%nat breach_state_1 breach_trade_1)
      as (row & Hrow & Hopen & _).
    + vm_compute. reflexivity.
    + left. reflexivity.
    + reflexivity.
    + exists row. split; [exact Hrow|].
      cbn in Hrow. injection Hrow as <-.
      split; [apply Qle_bool_iff; reflexivity|].
      split; [apply Qle_bool_iff; reflexivity|exact Hopen].
Defined.

(** ** C10: the signs of the excursions *)

Lemma update_signed (h l c : Q) (t : Trade.t) :
  excursions_signed t -> excursions_signed (update_trade h l c t).
Proof.
  unfold excursions_signed.
  destruct t as [i d et eb ep sz sp tk td rk mf ma v xt xb xp pn co cc xr].
  cbn. intros [Hf Ha].
  assert (G : forall a b, 0 <= py_max mf a /\ py_min ma b <= 0).
  { intros a b. split.
    - eapply Qle_trans; [exact Hf|apply py_max_l].
    - eapply Qle_trans; [apply py_min_l|exact Ha]. }
  destruct sz as [y|], td as [dist|], d, sp as [s|]; cbn;
    first [apply G|split; assumption].
Qed.

Lemma updated_over_signed (bars : list Row.t) (t : Trade.t) :
  excursions_signed t -> excursions_signed (updated_over t bars).
Proof.
  revert t. induction bars as [|row bars IH]; intros t H; [exact H|].
  cbn [updated_over]. apply IH. now apply update_signed.
Qed.

Lemma lived_signed (self : Backtester) (data : data_frame) (e j : nat)
    (t0 u : Trade.t) :
  lived self data e j t0 u -> excursions_signed u.
Proof.
  intros [row0 (_ & _ & Hnew & ->)]. apply updated_over_signed.
  apply open_row_fields in Hnew as (_ & _ & _ & _ & _ & _ & Hmf & Hma & _).
  unfold excursions_signed. rewrite Hmf, Hma. split; apply Qle_refl.
Qed.

(** C10.  The favourable excursion of a trade is never negative and its
    adverse excursion never positive: on every trade, open or closed, of
    the state a run is in after any number of bars, and on every row of the
    ledger. *)
Theorem excursions_keep_sign (self : Backtester) :
  (forall data k st t,
     state_after self data k = Ok st ->
     In t (open_trades st ++ closed_trades st) ->
     0 <= Trade.max_favor t /\ Trade.max_adverse t <= 0) /\
  (forall signals ledger lr,
     run self signals = Ok ledger ->
     In lr ledger ->
     0 <= Trade.max_favor (LedgerRow.trade lr) /\
     Trade.max_adverse (LedgerRow.trade lr) <= 0).
Proof.
  split.
  - intros data k st t Hst Hin.
    destruct (state_trade_lived _ _ _ _ _ Hst Hin)
      as (t0 & u & Hl & Ht).
    apply lived_signed in Hl.
    destruct Ht as [->|(p & tm & i & r & ->)]; exact Hl.
  - intros signals ledger lr Hrun Hin.
    apply run_inv in Hrun as [trades [Hrun ->]].
    apply in_map_iff in Hin as [t [<- Hin]]. cbn [aggregate LedgerRow.trade].
    destruct (ledger_trade_lived _ _ _ _ Hrun Hin)
      as (sig & data & e & j & t0 & u & p & tm & i & r & _ & _ & Hl & ->).
    apply lived_signed in Hl. exact Hl.
Qed.

Lemma excursions_keep_sign_witness :
  run scenario_D_bt (Some scenario_D_signals) = Ok scenario_D_ledger /\
  exists lr,
    In lr scenario_D_ledger /\
    Trade.direction (LedgerRow.trade lr) = short /\
    Trade.max_favor (LedgerRow.trade lr) = 0 /\
    0 <= Trade.max_favor (LedgerRow.trade lr) /\
    Trade.max_adverse (LedgerRow.trade lr) <= 0.
Proof.
  split; [vm_compute; reflexivity|].
  eexists. split; [right; left; reflexivity|]. split; [reflexivity|].
  split; [reflexivity|].
  apply (proj2 (excursions_keep_sign scenario_D_bt) (Some scenario_D_signals)
           scenario_D_ledger).
  - vm_compute. reflexivity.
  - right. left. reflexivity.
Defined.

(** ** C8: price frames without a required column *)

Lemma init_ok (frame : price_frame) (cfg : option config) (bt : Backtester) :
  __init__ frame cfg = Ok bt ->
  df bt = frame /\ has_pcol P_datetime (p_columns frame) = true.
Proof.
  unfold __init__. destruct (has_pcol P_datetime (p_columns frame));
    [|discriminate].
  intro H. injection H as <-. now split.
Qed.

Lemma merge_row_cons (srows : list SignalRow.t) (p : PriceRow.t) :
  exists row rest, merge_row srows p = row :: rest.
Proof.
  unfold merge_row. destruct (filter _ srows); repeat eexists.
Qed.

Lemma prepare_ok (self : Backtester) (sig : signal_frame) :
  has_pcol P_datetime (p_columns (df self)) = true ->
  has_scol S_datetime (s_columns sig) = true ->
  exists data,
    prepare self sig = Ok data /\
    d_pcols data = p_columns (df self) /\
    (p_rows (df self) = [] -> d_rows data = []) /\
    (p_rows (df self) <> [] -> exists row rest, d_rows data = row :: rest).
Proof.
  intros Hp Hs. unfold prepare. rewrite Hp, Hs. cbn [negb].
  assert (Hm : p_rows (df self) <> [] ->
               exists row rest, d_rows (merge (df self) sig) = row :: rest).
  { cbn. destruct (p_rows (df self)) as [|p ps]; [congruence|]. intros _.
    cbn [flat_map]. destruct (merge_row_cons (s_rows sig) p) as [row [rest ->]].
    repeat eexists. }
  assert (Hn : p_rows (df self) = [] -> d_rows (merge (df self) sig) = []).
  { cbn. now intros ->. }
  destruct (has_scol S_signal (d_scols (merge (df self) sig))).
  - eexists. split; [reflexivity|]. auto.
  - eexists. split; [reflexivity|]. split; [reflexivity|]. split.
    + intro H. cbn. cbn in Hn. now rewrite (Hn H).
    + intro H. destruct (Hm H) as [row [rest E]]. cbn. cbn in E. rewrite E.
      repeat eexists.
Qed.

(** A frame without the [open] column and no signal: the simulator is built
    and the run returns the empty ledger. *)
Lemma missing_price_column_counterexample :
  has_pcol P_open (p_columns no_open_prices) = false /\
  __init__ no_open_prices None = Ok no_open_bt /\
  run no_open_bt None = Ok [] /\
  run no_open_bt (Some no_signals) = Ok [].
Proof. repeat split. Qed.

(** C8, amended.  A price frame without the timestamp column is refused
    when the simulator is built ([KeyError]).  A price frame with that
    column but without one of the four price columns is accepted: the
    simulator is built on it, and then
    - with no signal frame, or an empty one, the run returns the empty
      ledger;
    - with a signal frame that is not empty and has no timestamp column the
      run raises [KeyError], whether the price frame has rows or not;
    - with a signal frame that is not empty and has its timestamp column,
      the run returns the empty ledger when the price frame has no row, and
      otherwise raises the [AttributeError] of the first bar, from the
      initial state, before any trade is opened. *)
Theorem missing_price_columns (frame : price_frame) (cfg : option config) :
  (has_pcol P_datetime (p_columns frame) = false ->
   __init__ frame cfg = Raise (KeyError "datetime")) /\
  (has_pcol P_datetime (p_columns frame) = true ->
   has_ohlc (p_columns frame) = false ->
   exists bt,
     __init__ frame cfg = Ok bt /\
     df bt = frame /\
     run bt None = Ok [] /\
     (forall sig, frame_empty sig = true -> run bt (Some sig) = Ok []) /\
     (forall sig,
        frame_empty sig = false ->
        has_scol S_datetime (s_columns sig) = false ->
        run bt (Some sig) = Raise (KeyError "datetime")) /\
     (forall sig,
        frame_empty sig = false ->
        has_scol S_datetime (s_columns sig) = true ->
        p_rows frame = [] ->
        run bt (Some sig) = Ok []) /\
     (forall sig,
        frame_empty sig = false ->
        has_scol S_datetime (s_columns sig) = true ->
        p_rows frame <> [] ->
        exists name data row rest,
          run bt (Some sig) = Raise (AttributeError name) /\
          prepare bt sig = Ok data /\
          d_rows data = row :: rest /\
          bar_step bt data 0 row initial_state
          = Raise (AttributeError name))).
Proof.
  split.
  - intro H. unfold __init__. now rewrite H.
  - intros Hdt Hcols.
    assert (Hinit : exists bt, __init__ frame cfg = Ok bt)
      by (unfold __init__; rewrite Hdt; eexists; reflexivity).
    destruct Hinit as [bt Hinit]. exists bt. split; [exact Hinit|].
    apply init_ok in Hinit as [Hdf _].
    split; [exact Hdf|]. split; [reflexivity|]. split; [|split; [|split]].
    + intros sig He. unfold run, run_trades. now rewrite He.
    + intros sig He Hs. unfold run, run_trades, prepare. rewrite He, Hs.
      reflexivity.
    + intros sig He Hs Hrows. unfold run, run_trades. rewrite He.
      destruct (prepare_ok bt sig) as (data & Hp & _ & Hn & _);
        [now rewrite Hdf|exact Hs|].
      rewrite Hdf in Hn. rewrite Hp. cbn [bind]. rewrite (Hn Hrows).
      reflexivity.
    + intros sig He Hs Hrows. unfold run, run_trades. rewrite He.
      destruct (prepare_ok bt sig) as (data & Hp & Hpc & _ & Hr);
        [now rewrite Hdf|exact Hs|].
      rewrite Hdf in Hr, Hpc. destruct (Hr Hrows) as (row & rest & E).
      rewrite Hp. cbn [bind]. rewrite E. cbn [bar_loop].
      destruct (bar_step_raises bt data 0 row initial_state) as [name Hb];
        [now rewrite Hpc|].
      rewrite Hb. cbn [bind]. exists name, data, row, rest. auto.
Qed.

Lemma missing_price_columns_witness :
  has_pcol P_datetime (p_columns no_open_prices) = true /\
  has_ohlc (p_columns no_open_prices) = false /\
  frame_empty scenario_A_signals = false /\
  has_scol S_datetime (s_columns scenario_A_signals) = true /\
  p_rows no_open_prices <> [] /\
  exists bt,
    __init__ no_open_prices None = Ok bt /\
    run bt None = Ok [] /\
    run bt (Some scenario_A_signals) = Raise (AttributeError "open").
Proof.
  split; [reflexivity|]. split; [reflexivity|]. split; [reflexivity|].
  split; [reflexivity|]. split; [discriminate|].
  destruct (proj2 (missing_price_columns no_open_prices None))
    as (bt & Hinit & _ & Hnone & _ & _ & _ & H);
    [reflexivity|reflexivity|].
  exists bt. split; [exact Hinit|]. split; [exact Hnone|].
  destruct (H scenario_A_signals) as (name & data & row & rest & Hrun & _);
    [reflexivity|reflexivity|discriminate|].
  cbv in Hinit. injection Hinit as <-.
  rewrite Hrun. vm_compute in Hrun. symmetry. exact Hrun.
Defined.

(** * Further properties of the simulator *)

(** ** One ledger row for each signal *)

Lemma signal_joined (row : Row.t) :
  Row.signal row <> 0%Z -> exists s, Row.joined row = Some s.
Proof.
  unfold Row.signal. destruct (Row.joined row) as [s|]; [eauto|congruence].
Qed.

(** On a bar with a signal [_open_trade_from_row] builds a trade. *)
Lemma open_row_some (self : Backtester) (data : data_frame) (tid k : nat)
    (row : Row.t) :
  Row.signal row <> 0%Z ->
  exists nt, open_row self data tid k row = Some nt.
Proof.
  intro Hs. destruct (signal_joined row Hs) as [s Hj].
  unfold open_row, _open_trade_from_row. rewrite Hj.
  apply Z.eqb_neq in Hs. rewrite Hs. eexists. reflexivity.
Qed.

Lemma append_new_trade_id (self : Backtester) (data : data_frame) (tid k : nat)
    (row : Row.t) (ots cls : list Trade.t) :
  Row.signal row <> 0%Z ->
  trade_id (append_new (open_row self data tid k row) ots cls tid) = S tid.
Proof.
  intro Hs. destruct (open_row_some self data tid k row Hs) as [nt ->].
  reflexivity.
Qed.

Lemma bar_step_trade_id (self : Backtester) (data : data_frame) (k : nat)
    (row : Row.t) (st st' : state) :
  bar_step self data k row st = Ok st' ->
  trade_id st' = (trade_id st + List.length (signal_bars [row]))%nat.
Proof.
  intro Hstep. apply bar_step_cases in Hstep. cbv zeta in Hstep.
  unfold signal_bars. cbn [filter].
  destruct Hstep as [_ [[_ [Hs [_ ->]]]|[[Hs [_ ->]]|[Hs ->]]]].
  - rewrite append_new_trade_id by exact Hs.
    apply Z.eqb_neq in Hs. rewrite Hs. cbn. lia.
  - rewrite append_new_trade_id by exact Hs.
    apply Z.eqb_neq in Hs. rewrite Hs. cbn. lia.
  - rewrite Hs. cbn. lia.
Qed.

Lemma bar_loop_trade_id (self : Backtester) (data : data_frame)
    (rows : list Row.t) (k : nat) (st st' : state) :
  bar_loop self data k rows st = Ok st' ->
  trade_id st' = (trade_id st + List.length (signal_bars rows))%nat.
Proof.
  revert k st. induction rows as [|row rest IH]; intros k st H.
  - cbn in H. injection H as <-. cbn. lia.
  - cbn [bar_loop] in H.
    destruct (bar_step self data k row st) as [st1|e] eqn:Hstep; [|discriminate].
    cbn [bind] in H. apply IH in H. apply bar_step_trade_id in Hstep.
    rewrite H, Hstep. unfold signal_bars. cbn [filter].
    destruct (negb (Row.signal row =? 0)%Z); cbn [List.length]; lia.
Qed.

Lemma run_trades_length (self : Backtester) (signals : signal_frame)
    (data : data_frame) (trades : list Trade.t) :
  frame_empty signals = false ->
  prepare self signals = Ok data ->
  run_trades self (Some signals) = Ok trades ->
  List.length trades = List.length (signal_bars (d_rows data)).
Proof.
  intros He Hp Hrun.
  apply run_trades_inv in Hrun as (data' & st & Hp' & Hl & ->);
    [|exact He].
  rewrite Hp in Hp'. injection Hp' as <-.
  pose proof (bar_loop_all_traced self data st Hl) as [Ho _].
  pose proof (close_eod_ids self data st Ho) as Hids.
  pose proof (bar_loop_ids self data (d_rows data) 0 initial_state st) as Hperm.
  unfold ids_exact in Hperm. rewrite <- Hids in Hperm.
  assert (Hlen : List.length (close_eod self data st) = trade_id st).
  { transitivity (List.length (map Trade.id (close_eod self data st)));
      [symmetry; apply length_map|].
    transitivity (List.length (seq 0 (trade_id st))); [|apply length_seq].
    apply Permutation_length, Hperm; [constructor|exact Hl]. }
  rewrite Hlen. apply bar_loop_trade_id in Hl. exact Hl.
Qed.

(** X1.  When [run] returns, its ledger has one row for each bar of the
    merged frame whose signal is not zero, in single-position mode and in
    hedge mode alike. *)
Theorem one_row_per_signal (self : Backtester) (signals : signal_frame)
    (data : data_frame) (ledger : list LedgerRow.t) :
  frame_empty signals = false ->
  prepare self signals = Ok data ->
  run self (Some signals) = Ok ledger ->
  List.length ledger = List.length (signal_bars (d_rows data)).
Proof.
  intros He Hp Hrun. apply run_inv in Hrun as [trades [Hrun ->]].
  rewrite length_map.
  now apply (run_trades_length self signals data trades).
Qed.

Lemma one_row_per_signal_witness :
  frame_empty scenario_D_signals = false /\
  prepare scenario_D_bt scenario_D_signals = Ok scenario_D_data /\
  run scenario_D_bt (Some scenario_D_signals) = Ok scenario_D_ledger /\
  List.length (signal_bars (d_rows scenario_D_data)) = 2%nat /\
  List.length scenario_D_ledger
  = List.length (signal_bars (d_rows scenario_D_data)).
Proof.
  split; [reflexivity|]. split; [vm_compute; reflexivity|].
  split; [vm_compute; reflexivity|]. split; [reflexivity|].
  apply (one_row_per_signal scenario_D_bt scenario_D_signals scenario_D_data
           scenario_D_ledger).
  - reflexivity.
  - vm_compute. reflexivity.
  - vm_compute. reflexivity.
Defined.

(** ** Why a trade was closed *)

Lemma exit_decision_some (h l : Q) (t : Trade.t) (p : Q) (r : string) :
  exit_decision h l t = Some (p, r) ->
  (r = "sl"%string /\ Trade.stop_price t = Some p /\ hit_sl h l t = true) \/
  (r = "tp"%string /\ Trade.take_price t = Some p /\ hit_tp h l t = true /\
   hit_sl h l t = false).
Proof.
  unfold exit_decision.
  destruct (hit_sl h l t) eqn:Hs; cbn [orb].
  - destruct (Trade.stop_price t) as [sp|]; [|discriminate].
    intro H. injection H as <- <-. left. auto.
  - destruct (hit_tp h l t) eqn:Ht; [|discriminate].
    destruct (Trade.take_price t) as [tp|]; [|discriminate].
    intro H. injection H as <- <-. right. auto.
Qed.

Lemma exit_decision_none (h l : Q) (t : Trade.t) :
  exit_decision h l t = None ->
  hit_sl h l t = false /\ hit_tp h l t = false.
Proof.
  unfold exit_decision, hit_sl, hit_tp.
  destruct (Trade.stop_price t) as [sp|], (Trade.take_price t) as [tp|],
    (Trade.direction t); cbn;
    repeat match goal with
           | |- context [Qleb ?a ?b] => destruct (Qleb a b); cbn
           end; intro H; try discriminate H; auto.
Qed.

Lemma not_hit_sl (h l : Q) (t : Trade.t) :
  hit_sl h l t = false -> ~ stop_touched h l t.
Proof. intros H Ht. apply hit_sl_touched in Ht. congruence. Qed.

Lemma not_hit_tp (h l : Q) (t : Trade.t) :
  hit_tp h l t = false -> ~ take_touched h l t.
Proof. intros H Ht. apply hit_tp_touched in Ht. congruence. Qed.

(** Closing a trade does not change what its stop and target touch. *)
Lemma close_trade_touched (self : Backtester) (t : Trade.t) (p : Q) (tm : Z)
    (i : nat) (r : string) (h l : Q) :
  (stop_touched h l (_close_trade self t p tm i r) <-> stop_touched h l t) /\
  (take_touched h l (_close_trade self t p tm i r) <-> take_touched h l t).
Proof. split; reflexivity. Qed.

(** X2.  Every row of the ledger was closed on a bar of the merged frame,
    at that bar's timestamp, for one of four reasons:
    - [sl]: the bar touched the trade's stop, and the exit price is the stop
      after slippage;
    - [tp]: the bar touched the target and not the stop, and the exit price
      is the target after slippage;
    - [signal]: the simulator is in single-position mode, the bar carries a
      signal and touched neither stop nor target, and the exit price is the
      bar's close after slippage;
    - [eod]: the bar is the last one, and the exit price is its close after
      slippage. *)
Theorem exit_cause (self : Backtester) (signals : signal_frame)
    (data : data_frame) (ledger : list LedgerRow.t) (lr : LedgerRow.t) :
  prepare self signals = Ok data ->
  run self (Some signals) = Ok ledger ->
  In lr ledger ->
  let t := LedgerRow.trade lr in
  let slip p := p * (1 - dir_factor (Trade.direction t) * slippage self) in
  exists j row,
    Trade.exit_bar_index t = Some j /\
    nth_error (d_rows data) j = Some row /\
    Trade.exit_time t = Some (Row.datetime row) /\
    ((Trade.exit_reason t = Some "sl"%string /\
      stop_touched (Row.high row) (Row.low row) t /\
      exists sp, Trade.stop_price t = Some sp /\
                 Trade.exit_price t = Some (slip sp))
     \/
     (Trade.exit_reason t = Some "tp"%string /\
      take_touched (Row.high row) (Row.low row) t /\
      ~ stop_touched (Row.high row) (Row.low row) t /\
      exists tp, Trade.take_price t = Some tp /\
                 Trade.exit_price t = Some (slip tp))
     \/
     (Trade.exit_reason t = Some "signal"%string /\
      single_position_mode self = true /\
      Row.signal row <> 0%Z /\
      ~ stop_touched (Row.high row) (Row.low row) t /\
      ~ take_touched (Row.high row) (Row.low row) t /\
      Trade.exit_price t = Some (slip (Row.close row)))
     \/
     (Trade.exit_reason t = Some "eod"%string /\
      S j = List.length (d_rows data) /\
      Trade.exit_price t = Some (slip (Row.close row)))).
Proof.
  intros Hp Hrun Hin t slip. subst t slip.
  apply run_inv in Hrun as [trades [Hrun ->]].
  apply in_map_iff in Hin as [t [<- Hin]]. cbn [aggregate LedgerRow.trade].
  destruct (run_trades_closed _ _ _ Hrun) as [->|(sig & data' & E & Hp' & H)];
    [destruct Hin|].
  injection E as <-. rewrite Hp in Hp'. injection Hp' as <-.
  destruct (H t Hin) as [Hc|Hc].
  - destruct Hc as [k row u p r Hopen Hrow Hexit|k row u Hopen Hrow Hexit Hm Hs];
      exists k, row; (split; [reflexivity|]); (split; [exact Hrow|]);
      (split; [reflexivity|]).
    + apply exit_decision_some in Hexit
        as [(-> & Hsp & Hhit)|(-> & Htp & Hhit & Hno)].
      * left. split; [reflexivity|]. split.
        { apply close_trade_touched. now apply hit_sl_touched. }
        exists p. split; [exact Hsp|reflexivity].
      * right. left. split; [reflexivity|]. split.
        { apply close_trade_touched. now apply hit_tp_touched. }
        split.
        { intro Ht. apply close_trade_touched in Ht.
          now apply (not_hit_sl _ _ _ Hno). }
        exists p. split; [exact Htp|reflexivity].
    + apply exit_decision_none in Hexit as [Hno1 Hno2].
      right. right. left. split; [reflexivity|]. split; [exact Hm|].
      split; [exact Hs|]. split.
      { intro Ht. apply close_trade_touched in Ht.
        now apply (not_hit_sl _ _ _ Hno1). }
      split.
      { intro Ht. apply close_trade_touched in Ht.
        now apply (not_hit_tp _ _ _ Hno2). }
      reflexivity.
  - destruct Hc as [u last_row Hopen Hlast].
    apply open_before_pos in Hopen.
    exists (List.length (d_rows data) - 1)%nat, last_row.
    split; [reflexivity|]. split; [exact Hlast|]. split; [reflexivity|].
    right. right. right. split; [reflexivity|]. split; [lia|reflexivity].
Qed.

Lemma exit_cause_witness :
  prepare tie_bt tie_signals = Ok tie_data /\
  run tie_bt (Some tie_signals) = Ok tie_ledger /\
  exists lr j row,
    In lr tie_ledger /\
    Trade.exit_reason (LedgerRow.trade lr) = Some "sl"%string /\
    Trade.exit_bar_index (LedgerRow.trade lr) = Some j /\
    nth_error (d_rows tie_data) j = Some row /\
    Trade.exit_time (LedgerRow.trade lr) = Some (Row.datetime row).
Proof.
  split; [vm_compute; reflexivity|]. split; [vm_compute; reflexivity|].
  destruct (exit_cause tie_bt tie_signals tie_data tie_ledger
              (hd (aggregate no_trade) tie_ledger))
    as (j & row & Hj & Hrow & Htime & _).
  - vm_compute. reflexivity.
  - vm_compute. reflexivity.
  - left. reflexivity.
  - eexists. exists j, row. split; [left; reflexivity|].
    split; [reflexivity|]. auto.
Defined.

(** ** The order of the ledger *)

Lemma ForallOrdPairs_app {A : Type} (R : A -> A -> Prop) (l l' : list A) :
  ForallOrdPairs R l -> ForallOrdPairs R l' ->
  (forall x y, In x l -> In y l' -> R x y) ->
  ForallOrdPairs R (l ++ l').
Proof.
  intros Hl Hl' Hx. induction Hl as [|a l Ha Hl IH]; [exact Hl'|].
  cbn [app]. constructor.
  - apply Forall_app. split; [exact Ha|].
    apply Forall_forall. intros y Hy. apply Hx; [now left|exact Hy].
  - apply IH. intros x y Hin. apply Hx. now right.
Qed.

Lemma ForallOrdPairs_same {A : Type} (R : A -> A -> Prop) (l : list A) :
  (forall x y, In x l -> In y l -> R x y) -> ForallOrdPairs R l.
Proof.
  induction l as [|a l IH]; intro H; constructor.
  - apply Forall_forall. intros y Hy. apply H; [now left|now right].
  - apply IH. intros x y Hx Hy. apply H; now right.
Qed.

Lemma ForallOrdPairs_short {A : Type} (R : A -> A -> Prop) (l : list A) :
  (List.length l <= 1)%nat -> ForallOrdPairs R l.
Proof.
  destruct l as [|a [|b l]]; cbn; intro H; [constructor| |lia].
  constructor; constructor.
Qed.

(** What a bar adds to the closed trades: records closed on that bar. *)
Lemma bar_step_new_closed (self : Backtester) (data : data_frame) (k : nat)
    (row : Row.t) (st st' : state) :
  bar_step self data k row st = Ok st' ->
  exists new,
    closed_trades st' = closed_trades st ++ new /\
    forall x, In x new ->
      Trade.exit_bar_index x = Some k /\
      exists t, In t (open_trades st) /\
                Trade.entry_bar_index x = Trade.entry_bar_index t.
Proof.
  intro Hstep. apply bar_step_cases in Hstep. cbv zeta in Hstep.
  assert (Hex : forall x,
            In x (exited self (Row.datetime row) (Row.high row) (Row.low row)
                    (Row.close row) k (open_trades st)) ->
            Trade.exit_bar_index x = Some k /\
            exists t, In t (open_trades st) /\
                      Trade.entry_bar_index x = Trade.entry_bar_index t).
  { intros x Hin. apply exited_elim in Hin as (t & p & r & Hin & _ & ->).
    split; [reflexivity|]. exists t. split; [exact Hin|]. cbn.
    apply (update_trade_entry (Row.high row) (Row.low row) (Row.close row) t). }
  destruct Hstep as [_ [[_ [_ [_ ->]]]|[[_ [_ ->]]|[_ ->]]]].
  - eexists. split.
    { unfold append_new. destruct (open_row _ _ _ _ _); cbn;
        rewrite <- app_assoc; reflexivity. }
    intros x Hin. apply in_app_or in Hin as [Hin|Hin]; [now apply Hex|].
    apply in_map_iff in Hin as [t' [<- Hin]].
    apply kept_elim in Hin as (t & Hin & -> & _).
    split; [reflexivity|]. exists t. split; [exact Hin|]. cbn.
    apply (update_trade_entry (Row.high row) (Row.low row) (Row.close row) t).
  - eexists. split; [|exact Hex].
    unfold append_new. now destruct (open_row _ _ _ _ _).
  - eexists. split; [reflexivity|exact Hex].
Qed.

Lemma bar_loop_exit_order (self : Backtester) (data : data_frame)
    (rows : list Row.t) (k : nat) (st st' : state) :
  Forall (exited_before k) (closed_trades st) ->
  ForallOrdPairs exits_no_later (closed_trades st) ->
  bar_loop self data k rows st = Ok st' ->
  Forall (exited_before (k + List.length rows)) (closed_trades st') /\
  ForallOrdPairs exits_no_later (closed_trades st').
Proof.
  revert k st. induction rows as [|row rest IH]; intros k st Hb Ho H.
  - cbn in H. injection H as <-. cbn. now rewrite Nat.add_0_r.
  - cbn [bar_loop] in H.
    destruct (bar_step self data k row st) as [st1|e] eqn:Hstep; [|discriminate].
    cbn [bind] in H.
    destruct (bar_step_new_closed _ _ _ _ _ _ Hstep) as (new & E & Hnew).
    cbn [List.length]. rewrite Nat.add_succ_r. apply (IH (S k) st1); [| |exact H].
    + rewrite E. apply Forall_app. split.
      * eapply Forall_impl; [|exact Hb]. intros x (j & Hj & Hlt).
        exists j. split; [exact Hj|lia].
      * apply Forall_forall. intros x Hin. exists k.
        split; [apply (Hnew x Hin)|lia].
    + rewrite E. apply ForallOrdPairs_app; [exact Ho| |].
      * apply ForallOrdPairs_same. intros x y Hx Hy.
        exists k, k. split; [apply (Hnew x Hx)|]. split; [apply (Hnew y Hy)|lia].
      * intros x y Hx Hy. rewrite Forall_forall in Hb.
        destruct (Hb x Hx) as (j & Hj & Hlt). exists j, k.
        split; [exact Hj|]. split; [apply (Hnew y Hy)|lia].
Qed.

(** X3.  The ledger is in closing order: no row was closed on a later bar
    than a row that comes after it. *)
Theorem ledger_in_exit_order (self : Backtester)
    (signals : option signal_frame) (ledger : list LedgerRow.t) :
  run self signals = Ok ledger ->
  ForallOrdPairs exits_no_later (map LedgerRow.trade ledger).
Proof.
  intro Hrun. apply run_inv in Hrun as [trades [Hrun ->]].
  rewrite trade_of_aggregate.
  destruct signals as [sig|]; [|cbn in Hrun; injection Hrun as <-; constructor].
  destruct (frame_empty sig) eqn:He.
  { rewrite run_trades_empty in Hrun by exact He. injection Hrun as <-.
    constructor. }
  apply run_trades_inv in Hrun as (data & st & Hp & Hl & ->); [|exact He].
  pose proof (bar_loop_all_traced self data st Hl) as [Ho _].
  destruct (bar_loop_exit_order self data (d_rows data) 0 initial_state st)
    as [Hb Hord]; [constructor|constructor|exact Hl|].
  cbn [Nat.add] in Hb.
  destruct (close_eod_eq self data st Ho) as [[_ ->]|(last_row & Hlast & ->)];
    [exact Hord|].
  apply ForallOrdPairs_app; [exact Hord| |].
  - apply ForallOrdPairs_same. intros x y Hx Hy.
    apply in_map_iff in Hx as [x0 [<- _]]. apply in_map_iff in Hy as [y0 [<- _]].
    eexists. eexists. split; [reflexivity|]. split; [reflexivity|lia].
  - intros x y Hx Hy. apply in_map_iff in Hy as [y0 [<- _]].
    rewrite Forall_forall in Hb. destruct (Hb x Hx) as (j & Hj & Hlt).
    exists j. eexists. split; [exact Hj|]. split; [reflexivity|lia].
Qed.

Lemma ledger_in_exit_order_witness :
  run scenario_D_bt (Some scenario_D_signals) = Ok scenario_D_ledger /\
  map (fun lr => Trade.exit_bar_index (LedgerRow.trade lr)) scenario_D_ledger
  = [Some 2%nat; Some 4%nat] /\
  ForallOrdPairs exits_no_later (map LedgerRow.trade scenario_D_ledger).
Proof.
  split; [vm_compute; reflexivity|]. split; [reflexivity|].
  apply (ledger_in_exit_order scenario_D_bt (Some scenario_D_signals)).
  vm_compute. reflexivity.
Defined.

(** ** Positions do not overlap in single-position mode *)

Lemma update_on_entry_index (row : Row.t) (t : Trade.t) :
  Trade.entry_bar_index (update_on row t) = Trade.entry_bar_index t.
Proof.
  apply (update_trade_entry (Row.high row) (Row.low row) (Row.close row) t).
Qed.

Lemma append_new_open_entry (self : Backtester) (data : data_frame)
    (tid k : nat) (row : Row.t) (cls : list Trade.t) (t' : Trade.t) :
  In t' (open_trades (append_new (open_row self data tid k row) [] cls tid)) ->
  Trade.entry_bar_index t' = k.
Proof.
  unfold append_new.
  destruct (open_row self data tid k row) as [nt|] eqn:Hnew; cbn;
    [|intros []].
  intros [<-|[]]. now apply open_row_fields in Hnew.
Qed.

(** In single-position mode a bar either leaves the position and the closed
    trades as they are, or closes at most one trade and leaves open only a
    trade that it has just opened. *)
Lemma single_step (self : Backtester) (data : data_frame) (k : nat)
    (row : Row.t) (st st' : state) :
  single_position_mode self = true ->
  (List.length (open_trades st) <= 1)%nat ->
  bar_step self data k row st = Ok st' ->
  exists new,
    closed_trades st' = closed_trades st ++ new /\
    (List.length new <= 1)%nat /\
    (forall x, In x new ->
       Trade.exit_bar_index x = Some k /\
       exists t, In t (open_trades st) /\
                 Trade.entry_bar_index x = Trade.entry_bar_index t) /\
    ((new = [] /\
      forall t', In t' (open_trades st') ->
        exists t, In t (open_trades st) /\
                  Trade.entry_bar_index t' = Trade.entry_bar_index t)
     \/
     forall t', In t' (open_trades st') -> Trade.entry_bar_index t' = k).
Proof.
  intros Hm Hlen Hstep.
  destruct (bar_step_new_closed _ _ _ _ _ _ Hstep) as (new & E & Hnew).
  exists new. split; [exact E|].
  apply bar_step_cases in Hstep. cbv zeta in Hstep.
  destruct Hstep as [_ Hstep].
  assert (Hnew_eq : forall cl', closed_trades st' = closed_trades st ++ cl' ->
                                new = cl').
  { intros cl' E'. rewrite E in E'. now apply app_inv_head in E'. }
  destruct (open_trades st) as [|t [|t2 rest]] eqn:Eo;
    [| |cbn in Hlen; lia].
  - (* no position *)
    cbn in Hstep.
    destruct Hstep as [(_ & _ & Hne & _)|[(_ & _ & ->)|(_ & ->)]];
      [congruence| |].
    + assert (new = []).
      { apply Hnew_eq. unfold append_new.
        destruct (open_row _ _ _ _ _); cbn; now rewrite app_nil_r. }
      subst new. split; [cbn; lia|]. split; [intros x []|].
      right. apply append_new_open_entry.
    + assert (new = []) by (apply Hnew_eq; cbn; now rewrite app_nil_r).
      subst new. split; [cbn; lia|]. split; [intros x []|].
      right. intros t' [].
  - (* one position *)
    unfold kept, exited in Hstep. cbn [map filter flat_map] in Hstep.
    fold (update_on row t) in Hstep.
    destruct (exit_decision (Row.high row) (Row.low row) (update_on row t))
      as [[p r]|] eqn:Hd; cbn [app] in Hstep.
    + (* closed by its stop or target *)
      destruct Hstep as [(_ & _ & Hne & _)|[(_ & _ & ->)|(_ & ->)]];
        [congruence| |].
      * assert (new = [_close_trade self (update_on row t) p
                         (Row.datetime row) k r]).
        { apply Hnew_eq. unfold append_new.
          now destruct (open_row _ _ _ _ _). }
        split; [subst new; cbn; lia|]. split; [exact Hnew|].
        right. apply append_new_open_entry.
      * assert (new = [_close_trade self (update_on row t) p
                         (Row.datetime row) k r]) by now apply Hnew_eq.
        split; [subst new; cbn; lia|]. split; [exact Hnew|].
        right. intros t' [].
    + (* still open after its update *)
      destruct Hstep as [(_ & _ & _ & ->)|[(_ & [Hc|Hc] & _)|(_ & ->)]];
        [|congruence|discriminate|].
      * assert (new = [_close_trade self (update_on row t) (Row.close row)
                         (Row.datetime row) k "signal"]).
        { apply Hnew_eq. unfold append_new.
          destruct (open_row _ _ _ _ _); cbn; now rewrite app_nil_r. }
        split; [subst new; cbn; lia|]. split; [exact Hnew|].
        right. apply append_new_open_entry.
      * assert (new = []) by (apply Hnew_eq; cbn; now rewrite app_nil_r).
        subst new. split; [cbn; lia|]. split; [intros x []|].
        left. split; [reflexivity|]. cbn. intros t' [<-|[]].
        exists t. split; [now left|apply update_on_entry_index].
Qed.

Lemma bar_loop_no_overlap (self : Backtester) (data : data_frame)
    (rows : list Row.t) (k : nat) (st st' : state) :
  single_position_mode self = true ->
  (List.length (open_trades st) <= 1)%nat ->
  Forall (exited_before k) (closed_trades st) ->
  Forall (fun t => (Trade.entry_bar_index t < k)%nat) (open_trades st) ->
  ForallOrdPairs exits_before_entry (closed_trades st) ->
  (forall c t, In c (closed_trades st) -> In t (open_trades st) ->
     exits_before_entry c t) ->
  bar_loop self data k rows st = Ok st' ->
  (List.length (open_trades st') <= 1)%nat /\
  ForallOrdPairs exits_before_entry (closed_trades st') /\
  (forall c t, In c (closed_trades st') -> In t (open_trades st') ->
     exits_before_entry c t).
Proof.
  intro Hm. revert k st.
  induction rows as [|row rest IH]; intros k st Hlen Hb He Ho Hx H.
  - cbn in H. injection H as <-. auto.
  - cbn [bar_loop] in H.
    destruct (bar_step self data k row st) as [st1|e] eqn:Hstep; [|discriminate].
    cbn [bind] in H.
    pose proof (bar_step_single _ _ _ _ _ _ Hm Hlen Hstep) as Hlen1.
    destruct (single_step _ _ _ _ _ _ Hm Hlen Hstep)
      as (new & E & Hshort & Hnew & Hopen).
    rewrite Forall_forall in Hb, He.
    assert (Hnew' : forall x, In x new ->
              Trade.exit_bar_index x = Some k /\
              (Trade.entry_bar_index x < k)%nat).
    { intros x Hin. destruct (Hnew x Hin) as (Hk & t & Hint & Het).
      split; [exact Hk|]. rewrite Het. now apply He. }
    apply (IH (S k) st1); [exact Hlen1| | | | |exact H].
    + rewrite E. apply Forall_app. split; apply Forall_forall; intros x Hin.
      * destruct (Hb x Hin) as (j & Hj & Hlt). exists j. split; [exact Hj|lia].
      * exists k. split; [apply (Hnew' x Hin)|lia].
    + apply Forall_forall. intros t' Hin. cbv beta.
      destruct Hopen as [[_ Hheld]|Hnow].
      * destruct (Hheld t' Hin) as (t & Hint & ->). specialize (He t Hint). lia.
      * rewrite (Hnow t' Hin). lia.
    + rewrite E. apply ForallOrdPairs_app;
        [exact Ho|now apply ForallOrdPairs_short|].
      intros c x Hc Hin. destruct (Hnew x Hin) as (_ & t & Hint & Het).
      destruct (Hx c t Hc Hint) as (j & Hj & Hle). exists j.
      split; [exact Hj|]. now rewrite Het.
    + intros c t' Hc Hin. rewrite E in Hc.
      destruct Hopen as [[-> Hheld]|Hnow].
      * rewrite app_nil_r in Hc. destruct (Hheld t' Hin) as (t & Hint & Het).
        destruct (Hx c t Hc Hint) as (j & Hj & Hle). exists j.
        split; [exact Hj|]. now rewrite Het.
      * unfold exits_before_entry. rewrite (Hnow t' Hin).
        apply in_app_or in Hc as [Hc|Hc].
        -- destruct (Hb c Hc) as (j & Hj & Hlt). exists j. split; [exact Hj|lia].
        -- exists k. split; [apply (Hnew' c Hc)|lia].
Qed.

(** X4.  In single-position mode positions do not overlap: on the ledger,
    the exit bar of a row is never after the entry bar of a row that comes
    after it. *)
Theorem single_position_no_overlap (self : Backtester)
    (signals : option signal_frame) (ledger : list LedgerRow.t) :
  single_position_mode self = true ->
  run self signals = Ok ledger ->
  ForallOrdPairs exits_before_entry (map LedgerRow.trade ledger).
Proof.
  intros Hm Hrun. apply run_inv in Hrun as [trades [Hrun ->]].
  rewrite trade_of_aggregate.
  destruct signals as [sig|]; [|cbn in Hrun; injection Hrun as <-; constructor].
  destruct (frame_empty sig) eqn:He.
  { rewrite run_trades_empty in Hrun by exact He. injection Hrun as <-.
    constructor. }
  apply run_trades_inv in Hrun as (data & st & Hp & Hl & ->); [|exact He].
  pose proof (bar_loop_all_traced self data st Hl) as [Ho _].
  destruct (bar_loop_no_overlap self data (d_rows data) 0 initial_state st)
    as (Hlen & Hord & Hx);
    [exact Hm|cbn; lia|constructor|constructor|constructor|intros c t []
    |exact Hl|].
  destruct (close_eod_eq self data st Ho) as [[_ ->]|(last_row & Hlast & ->)];
    [exact Hord|].
  apply ForallOrdPairs_app; [exact Hord| |].
  - apply ForallOrdPairs_short. now rewrite length_map.
  - intros c y Hc Hy. apply in_map_iff in Hy as [t [<- Hin]].
    destruct (Hx c t Hc Hin) as (j & Hj & Hle). exists j. split; [exact Hj|].
    exact Hle.
Qed.

Lemma single_position_no_overlap_witness :
  single_position_mode scenario_D_bt = true /\
  run scenario_D_bt (Some scenario_D_signals) = Ok scenario_D_ledger /\
  map (fun lr => (Trade.entry_bar_index (LedgerRow.trade lr),
                  Trade.exit_bar_index (LedgerRow.trade lr)))
      scenario_D_ledger
  = [(0%nat, Some 2%nat); (2%nat, Some 4%nat)] /\
  ForallOrdPairs exits_before_entry (map LedgerRow.trade scenario_D_ledger).
Proof.
  split; [reflexivity|]. split; [vm_compute; reflexivity|].
  split; [reflexivity|].
  apply (single_position_no_overlap scenario_D_bt (Some scenario_D_signals)).
  - reflexivity.
  - vm_compute. reflexivity.
Defined.

(** ** The cost of a round trip *)

(** X5.  A row of the ledger that was opened and closed on the same bar (a
    trade opened on the last bar and closed there at the end of the data)
    loses the slippage and the commission on both legs: with numbers taken
    as exact and a size that is a number, its net profit is
    [- 2 * (slippage + commission_perc) * close * size].  With a size that
    is [NaN] its net profit is [NaN]. *)
Theorem same_bar_round_trip (self : Backtester) (signals : signal_frame)
    (data : data_frame) (ledger : list LedgerRow.t) (lr : LedgerRow.t) :
  prepare self signals = Ok data ->
  run self (Some signals) = Ok ledger ->
  In lr ledger ->
  let t := LedgerRow.trade lr in
  Trade.exit_bar_index t = Some (Trade.entry_bar_index t) ->
  exists row,
    nth_error (d_rows data) (Trade.entry_bar_index t) = Some row /\
    match Trade.size t with
    | Some size =>
        exists pnl,
          Trade.pnl t = Some pnl /\
          pnl == - (2 * (slippage self + commission_perc self)
                    * Row.close row * size)
    | None => Trade.pnl t = None
    end.
Proof.
  intros Hp Hrun Hin t Hsame. subst t.
  apply run_inv in Hrun as [trades [Hrun ->]].
  apply in_map_iff in Hin as [t [<- Hin]].
  cbn [aggregate LedgerRow.trade] in *.
  destruct (run_trades_closed _ _ _ Hrun) as [->|(sig & data' & E & Hp' & H)];
    [destruct Hin|].
  injection E as <-. rewrite Hp in Hp'. injection Hp' as <-.
  destruct (H t Hin) as [Hc|Hc].
  - exfalso. apply closed_in_loop_lived in Hc
      as (e & j & t0 & u & row & p & r & Hej & Hl & _ & -> & _).
    destruct (lived_index _ _ _ _ _ _ Hl) as [He _].
    cbn in Hsame. injection Hsame as Hsame. lia.
  - apply closed_at_end_lived in Hc as (e & t0 & u & last_row & Hl & Hlast & ->).
    destruct (lived_index _ _ _ _ _ _ Hl) as [He _].
    destruct Hl as [row0 (Hej & Hrow0 & Hnew & Hu)].
    cbn in Hsame. injection Hsame as Hsame.
    assert (Hn : List.length (d_rows data) = S e) by lia.
    rewrite Hn, slice_empty in Hu. cbn in Hu. subst u.
    rewrite Hn in Hlast. cbn in Hlast. rewrite Nat.sub_0_r in Hlast.
    assert (last_row = row0) by congruence. subst last_row.
    apply open_row_fields in Hnew
      as (_ & _ & Hidx & _ & Hpx & Hcom & _).
    exists row0. cbn [_close_trade Trade.set_exit Trade.pnl
      Trade.entry_bar_index Trade.size].
    split; [now rewrite Hidx|].
    rewrite Hcom. destruct (Trade.size t0) as [size|]; cbn [fmul fsub];
      [|reflexivity].
    eexists. split; [reflexivity|].
    rewrite Hpx. destruct (Trade.direction t0); cbn [dir_factor]; ring.
Qed.

Lemma same_bar_round_trip_witness :
  prepare one_bar_bt scenario_A_signals
  = Ok (merge (df one_bar_bt) scenario_A_signals) /\
  run one_bar_bt (Some scenario_A_signals) = Ok one_bar_ledger /\
  exists lr row pnl,
    In lr one_bar_ledger /\
    nth_error (d_rows (merge (df one_bar_bt) scenario_A_signals))
      (Trade.entry_bar_index (LedgerRow.trade lr)) = Some row /\
    Trade.size (LedgerRow.trade lr) = Some 1 /\
    Trade.pnl (LedgerRow.trade lr) = Some pnl /\
    pnl == - (2 * ((5 # 10000) + (1 # 1000)) * Row.close row * 1).
Proof.
  split; [reflexivity|]. split; [vm_compute; reflexivity|].
  destruct (same_bar_round_trip one_bar_bt scenario_A_signals
              (merge (df one_bar_bt) scenario_A_signals) one_bar_ledger
              (hd (aggregate no_trade) one_bar_ledger))
    as (row & Hrow & pnl & Hpnl & Heq).
  - reflexivity.
  - vm_compute. reflexivity.
  - left. reflexivity.
  - reflexivity.
  - exists (hd (aggregate no_trade) one_bar_ledger), row, pnl.
    split; [left; reflexivity|]. split; [exact Hrow|].
    split; [reflexivity|]. split; [exact Hpnl|exact Heq].
Defined.

(** ** No signal, no trade *)

Lemma assign_signal_zero_signal (data : data_frame) (row : Row.t) :
  In row (d_rows (assign_signal_zero data)) -> Row.signal row = 0%Z.
Proof.
  cbn. rewrite in_map_iff. intros [r [<- _]]. unfold Row.signal. cbn.
  now destruct (Row.joined r).
Qed.

Lemma signal_bars_nil (rows : list Row.t) :
  (forall row, In row rows -> Row.signal row = 0%Z) -> signal_bars rows = [].
Proof.
  induction rows as [|r rows IH]; intro H; [reflexivity|].
  unfold signal_bars. cbn [filter]. rewrite (H r) by now left. cbn.
  apply IH. intros row Hin. apply H. now right.
Qed.

(** X6.  Without a signal there is no trade: when the signal frame has no
    [signal] column, or when every bar of the merged frame has signal [0],
    a run that returns returns the empty ledger. *)
Theorem no_signal_no_trade (self : Backtester) (signals : signal_frame)
    (data : data_frame) (ledger : list LedgerRow.t) :
  prepare self signals = Ok data ->
  run self (Some signals) = Ok ledger ->
  has_scol S_signal (s_columns signals) = false \/
  (forall row, In row (d_rows data) -> Row.signal row = 0%Z) ->
  ledger = [].
Proof.
  intros Hp Hrun Hno. apply run_inv in Hrun as [trades [Hrun ->]].
  destruct (frame_empty signals) eqn:He.
  { rewrite (run_trades_empty self (Some signals)) in Hrun by exact He.
    now injection Hrun as <-. }
  assert (Hz : forall row, In row (d_rows data) -> Row.signal row = 0%Z).
  { destruct Hno as [Hcol|Hz]; [|exact Hz].
    unfold prepare in Hp.
    destruct (negb (has_scol S_datetime (s_columns signals))); [discriminate|].
    destruct (negb (has_pcol P_datetime (p_columns (df self))));
      [discriminate|].
    change (d_scols (merge (df self) signals)) with (s_columns signals) in Hp.
    rewrite Hcol in Hp. injection Hp as <-. apply assign_signal_zero_signal. }
  pose proof (run_trades_length _ _ _ _ He Hp Hrun) as Hlen.
  rewrite (signal_bars_nil _ Hz) in Hlen.
  destruct trades; [reflexivity|discriminate].
Qed.

Lemma no_signal_no_trade_witness :
  prepare scenario_D_bt unsigned_signals
  = Ok (assign_signal_zero (merge (df scenario_D_bt) unsigned_signals)) /\
  has_scol S_signal (s_columns unsigned_signals) = false /\
  run scenario_D_bt (Some unsigned_signals)
  = Ok (ledger_of (run scenario_D_bt (Some unsigned_signals))) /\
  ledger_of (run scenario_D_bt (Some unsigned_signals)) = [].
Proof.
  split; [reflexivity|]. split; [reflexivity|].
  split; [vm_compute; reflexivity|].
  apply (no_signal_no_trade scenario_D_bt unsigned_signals
           (assign_signal_zero (merge (df scenario_D_bt) unsigned_signals))).
  - reflexivity.
  - vm_compute. reflexivity.
  - left. reflexivity.
Defined.

(** ** The derived columns of the ledger *)

Lemma aggregate_result (t : Trade.t) (pnl : Q) :
  Trade.pnl t = Some pnl ->
  (LedgerRow.result (aggregate t) = "win"%string <-> 0 < pnl) /\
  (LedgerRow.result (aggregate t) = "loss"%string <-> pnl < 0) /\
  (LedgerRow.result (aggregate t) = "be"%string <-> pnl == 0).
Proof.
  intro Hp. unfold aggregate. cbn [LedgerRow.result]. rewrite Hp.
  destruct (Qltb 0 pnl) eqn:Hw.
  - apply Qltb_lt in Hw. repeat split; intro H; try discriminate H; auto.
    + exfalso. apply (Qlt_irrefl 0). now apply Qlt_trans with pnl.
    + exfalso. rewrite H in Hw. now apply (Qlt_irrefl 0).
  - apply Qltb_ge in Hw. destruct (Qltb pnl 0) eqn:Hl.
    + apply Qltb_lt in Hl. repeat split; intro H; try discriminate H; auto.
      * exfalso. apply (Qlt_irrefl pnl). now apply Qle_lt_trans with 0.
      * exfalso. rewrite H in Hl. now apply (Qlt_irrefl 0).
    + apply Qltb_ge in Hl. repeat split; intro H; try discriminate H; auto.
      * exfalso. apply (Qlt_irrefl 0). now apply Qlt_le_trans with pnl.
      * exfalso. apply (Qlt_irrefl 0). now apply Qle_lt_trans with pnl.
      * now apply Qle_antisym.
Qed.

Lemma aggregate_risk_reward (t : Trade.t) (pnl : Q) :
  Trade.pnl t = Some pnl ->
  match Trade.risk t with
  | None => LedgerRow.risk_reward (aggregate t) = None
  | Some risk =>
      (risk == 0 -> LedgerRow.risk_reward (aggregate t) = None) /\
      (~ risk == 0 ->
       exists rr, LedgerRow.risk_reward (aggregate t) = Some rr /\
                  rr * risk == pnl)
  end.
Proof.
  intro Hp. unfold aggregate. cbn [LedgerRow.risk_reward]. rewrite Hp.
  destruct (Trade.risk t) as [risk|]; [|reflexivity].
  destruct (Qeq_bool risk 0) eqn:E.
  - apply Qeq_bool_iff in E. split; [reflexivity|]. intro H. now destruct H.
  - apply Qeq_bool_neq in E. split; [intro H; now destruct E|].
    intros _. eexists. split; [reflexivity|]. now field.
Qed.

Lemma aggregate_nan (t : Trade.t) :
  Trade.pnl t = None ->
  LedgerRow.result (aggregate t) = "be"%string /\
  LedgerRow.risk_reward (aggregate t) = None.
Proof.
  intro Hp. unfold aggregate. cbn [LedgerRow.result LedgerRow.risk_reward].
  rewrite Hp. split; [reflexivity|]. now destruct (Trade.risk t).
Qed.

(** The net profit that [_close_trade] stores is a number exactly when the
    size of the trade is. *)
Lemma close_trade_pnl (self : Backtester) (t : Trade.t) (p : Q)
    (time : Z) (i : nat) (r : string) :
  Trade.commission_open t
  = fmul (Some (commission_perc self * Trade.entry_price t)) (Trade.size t) ->
  match Trade.size t with
  | Some _ => exists pnl, Trade.pnl (_close_trade self t p time i r) = Some pnl
  | None => Trade.pnl (_close_trade self t p time i r) = None
  end.
Proof.
  intro Hco. pose proof (close_trade_reconciled self t p time i r Hco) as H.
  destruct (Trade.size t).
  - destruct H as (px & pnl & sz & co & cc & _ & Hp & _). now exists pnl.
  - now destruct H as (_ & _ & _ & Hp).
Qed.

(** X7.  The derived columns of every row of the ledger.  The row was opened
    and closed on bars of the merged frame and has the size that its entry
    bar supplies; [duration] is the difference of the timestamps of the two
    bars and [bars_in_trade] the difference of their indexes, which is not
    negative.  When the size is a number, the net profit is a number,
    [result] is [win], [loss] or [be] as the net profit is positive,
    negative or zero, and [risk_reward] is missing when the risk is missing
    or zero and is otherwise, with numbers taken as exact, the number that
    multiplied by the risk gives the net profit.  When the size is [NaN],
    the net profit is [NaN], [result] is [be] and [risk_reward] is
    missing. *)
Theorem derived_columns (self : Backtester) (signals : signal_frame)
    (data : data_frame) (ledger : list LedgerRow.t) (lr : LedgerRow.t) :
  prepare self signals = Ok data ->
  run self (Some signals) = Ok ledger ->
  In lr ledger ->
  let t := LedgerRow.trade lr in
  exists entry_row exit_row j,
    nth_error (d_rows data) (Trade.entry_bar_index t) = Some entry_row /\
    Trade.exit_bar_index t = Some j /\
    nth_error (d_rows data) j = Some exit_row /\
    Trade.size t = supplied_size data entry_row /\
    LedgerRow.duration lr
    = Some (Row.datetime exit_row - Row.datetime entry_row)%Z /\
    LedgerRow.bars_in_trade lr
    = Some (Z.of_nat j - Z.of_nat (Trade.entry_bar_index t))%Z /\
    (0 <= Z.of_nat j - Z.of_nat (Trade.entry_bar_index t))%Z /\
    match Trade.size t with
    | Some _ =>
        exists pnl,
          Trade.pnl t = Some pnl /\
          (LedgerRow.result lr = "win"%string <-> 0 < pnl) /\
          (LedgerRow.result lr = "loss"%string <-> pnl < 0) /\
          (LedgerRow.result lr = "be"%string <-> pnl == 0) /\
          match Trade.risk t with
          | None => LedgerRow.risk_reward lr = None
          | Some risk =>
              (risk == 0 -> LedgerRow.risk_reward lr = None) /\
              (~ risk == 0 ->
               exists rr,
                 LedgerRow.risk_reward lr = Some rr /\ rr * risk == pnl)
          end
    | None =>
        Trade.pnl t = None /\
        LedgerRow.result lr = "be"%string /\
        LedgerRow.risk_reward lr = None
    end.
Proof.
  intros Hp Hrun Hin t. subst t.
  apply run_inv in Hrun as [trades [Hrun ->]].
  apply in_map_iff in Hin as [t [<- Hin]].
  destruct (run_trades_closed _ _ _ Hrun) as [->|(sig & data' & E & Hp' & H)];
    [destruct Hin|].
  injection E as <-. rewrite Hp in Hp'. injection Hp' as <-.
  assert (Hshape : exists e j t0 u row p r,
            (e <= j)%nat /\ lived self data e (S j) t0 u /\
            nth_error (d_rows data) j = Some row /\
            t = _close_trade self u p (Row.datetime row) j r).
  { destruct (H t Hin) as [Hc|Hc].
    - apply closed_in_loop_lived in Hc
        as (e & j & t0 & u & row & p & r & Hej & Hl & Hrow & -> & _).
      exists e, j, t0, u, row, p, r. split; [lia|]. auto.
    - apply closed_at_end_lived in Hc
        as (e & t0 & u & last_row & Hl & Hlast & ->).
      pose proof Hl as [_ [Hej _]].
      exists e, (List.length (d_rows data) - 1)%nat, t0, u, last_row,
        (Row.close last_row), "eod"%string.
      split; [lia|].
      replace (S (List.length (d_rows data) - 1)) with (List.length (d_rows data))
        by lia.
      auto. }
  destruct Hshape as (e & j & t0 & u & row & p & r & Hej & Hl & Hrow & ->).
  destruct (lived_entry _ _ _ _ _ _ Hl)
    as (erow & Herow & He & _ & _ & Het & _ & Hco).
  assert (Hsz : Trade.size u = supplied_size data erow).
  { apply (lived_size _ _ _ _ _ _ _ Hl). now rewrite <- He. }
  pose proof (close_trade_pnl self u p (Row.datetime row) j r Hco) as Hpnl.
  cbn [aggregate LedgerRow.trade].
  remember (_close_trade self u p (Row.datetime row) j r) as x eqn:Ex.
  exists erow, row, j.
  assert (Hidx : Trade.entry_bar_index x = Trade.entry_bar_index u)
    by (subst x; reflexivity).
  assert (Hxj : Trade.exit_bar_index x = Some j) by (subst x; reflexivity).
  assert (Hxt : Trade.exit_time x = Some (Row.datetime row))
    by (subst x; reflexivity).
  assert (Hent : Trade.entry_time x = Trade.entry_time u)
    by (subst x; reflexivity).
  assert (Hxs : Trade.size x = Trade.size u) by (subst x; reflexivity).
  rewrite Hidx, Hxs. split; [exact Herow|]. split; [exact Hxj|].
  split; [exact Hrow|]. split; [exact Hsz|].
  split; [unfold aggregate; cbn [LedgerRow.duration];
          now rewrite Hxt, Hent, Het|].
  split; [unfold aggregate; cbn [LedgerRow.bars_in_trade];
          now rewrite Hxj, Hidx|].
  split; [lia|].
  destruct (Trade.size u).
  - destruct Hpnl as [pnl Hpnl]. exists pnl. split; [exact Hpnl|].
    destruct (aggregate_result x pnl Hpnl) as (Hw & Hlo & Hbe).
    split; [exact Hw|]. split; [exact Hlo|]. split; [exact Hbe|].
    apply aggregate_risk_reward, Hpnl.
  - split; [exact Hpnl|]. now apply aggregate_nan.
Qed.

Lemma derived_columns_witness :
  prepare scenario_D_bt nan_size_signals
  = Ok (merge (df scenario_D_bt) nan_size_signals) /\
  run scenario_D_bt (Some nan_size_signals) = Ok nan_size_ledger /\
  exists first second pnl,
    nan_size_ledger = [first; second] /\
    Trade.size (LedgerRow.trade first) = Some 2 /\
    LedgerRow.bars_in_trade first = Some 2%Z /\
    Trade.pnl (LedgerRow.trade first) = Some pnl /\ 0 < pnl /\
    LedgerRow.result first = "win"%string /\
    Trade.size (LedgerRow.trade second) = None /\
    Trade.pnl (LedgerRow.trade second) = None /\
    LedgerRow.result second = "be"%string /\
    LedgerRow.risk_reward second = None.
Proof.
  split; [reflexivity|]. split; [vm_compute; reflexivity|].
  destruct (derived_columns scenario_D_bt nan_size_signals
              (merge (df scenario_D_bt) nan_size_signals) nan_size_ledger
              (nth 0 nan_size_ledger (aggregate no_trade)))
    as (erow & xrow & j & _ & _ & _ & _ & _ & Hb & _ & pnl & Hpnl & Hw & _);
    [reflexivity|vm_compute; reflexivity|left; reflexivity|].
  destruct (derived_columns scenario_D_bt nan_size_signals
              (merge (df scenario_D_bt) nan_size_signals) nan_size_ledger
              (nth 1 nan_size_ledger (aggregate no_trade)))
    as (erow' & xrow' & j' & _ & _ & _ & _ & _ & _ & _ & Hn & Hbe & Hrr);
    [reflexivity|vm_compute; reflexivity|right; left; reflexivity|].
  exists (nth 0 nan_size_ledger (aggregate no_trade)),
    (nth 1 nan_size_ledger (aggregate no_trade)), pnl.
  split; [reflexivity|]. split; [reflexivity|]. split; [reflexivity|].
  split; [exact Hpnl|]. split; [apply Hw; reflexivity|].
  split; [reflexivity|]. split; [reflexivity|]. split; [exact Hn|].
  split; [exact Hbe|exact Hrr].
Defined.

(** * The performance metrics *)

(** ** Rounding *)

Lemma round_half_even_cases (q : Q) :
  let n := Qfloor q in
  (round_half_even q = n /\ q - inject_Z n <= 1 # 2) \/
  (round_half_even q = (n + 1)%Z /\ 1 # 2 <= q - inject_Z n).
Proof.
  intro n. unfold round_half_even. fold n.
  destruct (Qcompare_spec (q - inject_Z n) (1 # 2)) as [H|H|H].
  - destruct (Z.even n); [left|right]; split; auto; rewrite H; apply Qle_refl.
  - left. split; [reflexivity|now apply Qlt_le_weak].
  - right. split; [reflexivity|now apply Qlt_le_weak].
Qed.



Lemma round_half_even_Z (n : Z) : round_half_even (inject_Z n) = n.
Proof.
  unfold round_half_even. rewrite Qfloor_Z.
  destruct (Qcompare_spec (inject_Z n - inject_Z n) (1 # 2)) as [H|H|H];
    [|reflexivity|]; exfalso; lra.
Qed.

Lemma round_half_even_mono (a b : Q) :
  a <= b -> (round_half_even a <= round_half_even b)%Z.
Proof.
  intro Hab. pose proof (Qfloor_resp_le a b Hab) as Hf.
  destruct (Z.eq_dec (Qfloor a) (Qfloor b)) as [E|E].
  - unfold round_half_even. rewrite E.
    destruct (Qcompare_spec (a - inject_Z (Qfloor b)) (1 # 2)) as [Ha|Ha|Ha];
      destruct (Qcompare_spec (b - inject_Z (Qfloor b)) (1 # 2)) as [Hb|Hb|Hb];
      try lia; try (destruct (Z.even (Qfloor b)); lia); exfalso; lra.
  - destruct (round_half_even_cases a) as [[-> _]|[-> _]];
      destruct (round_half_even_cases b) as [[-> _]|[-> _]]; lia.
Qed.

Lemma round_half_even_comp (a b : Q) :
  a == b -> round_half_even a = round_half_even b.
Proof.
  intro H. unfold round_half_even. rewrite (Qfloor_comp a b H).
  now rewrite H.
Qed.

Lemma py_round2_comp (a b : Q) : a == b -> py_round2 a = py_round2 b.
Proof.
  intro H. unfold py_round2. f_equal. f_equal.
  apply round_half_even_comp. now rewrite H.
Qed.


Lemma py_round2_mono (a b : Q) : a <= b -> py_round2 a <= py_round2 b.
Proof.
  intro H. unfold py_round2.
  assert (Hz : (round_half_even (a * 100) <= round_half_even (b * 100))%Z).
  { apply round_half_even_mono. lra. }
  rewrite Zle_Qle in Hz.
  apply Qle_shift_div_l; [reflexivity|].
  assert (E : inject_Z (round_half_even (a * 100)) / 100 * 100
              == inject_Z (round_half_even (a * 100))) by field.
  now rewrite E.
Qed.

(** A whole number is its own rounding. *)
Lemma py_round2_Z (n : Z) : py_round2 (inject_Z n) == inject_Z n.
Proof.
  unfold py_round2.
  assert (E : inject_Z n * 100 == inject_Z (n * 100)).
  { rewrite inject_Z_mult. reflexivity. }
  rewrite (round_half_even_comp _ _ E), round_half_even_Z, inject_Z_mult.
  field.
Qed.

Lemma py_round2_nonneg (q : Q) : 0 <= q -> 0 <= py_round2 q.
Proof.
  intro H. apply py_round2_mono in H.
  now rewrite (py_round2_Z 0) in H.
Qed.

Lemma py_round2_nonpos (q : Q) : q <= 0 -> py_round2 q <= 0.
Proof.
  intro H. apply py_round2_mono in H.
  now rewrite (py_round2_Z 0) in H.
Qed.

(** ** Sums over the [pnl] column *)

Lemma nansum_from_acc (s : list (option Q)) (acc : Q) :
  Metrics.nansum_from acc s == acc + Metrics.nansum s.
Proof.
  unfold Metrics.nansum. revert acc.
  induction s as [|[q|] s IH]; intro acc; cbn [Metrics.nansum_from].
  - ring.
  - rewrite (IH (acc + q)), (IH (0 + q)). ring.
  - apply IH.
Qed.

Lemma nansum_cons_some (q : Q) (s : list (option Q)) :
  Metrics.nansum (Some q :: s) == q + Metrics.nansum s.
Proof.
  unfold Metrics.nansum at 1. cbn [Metrics.nansum_from].
  rewrite nansum_from_acc. ring.
Qed.

Lemma is_loss_not_win (q : Q) :
  Metrics.is_loss (Some q) = negb (Metrics.is_win (Some q)).
Proof. unfold Metrics.is_loss, Metrics.is_win, Qltb, Qleb. now rewrite negb_involutive. Qed.


Lemma nansum_wins_nonneg (s : list (option Q)) :
  0 <= Metrics.nansum (filter Metrics.is_win s).
Proof.
  induction s as [|[q|] s IH]; [apply Qle_refl| |exact IH].
  cbn [filter]. destruct (Metrics.is_win (Some q)) eqn:E; [|exact IH].
  rewrite nansum_cons_some. cbn in E. apply Qltb_lt in E. lra.
Qed.

Lemma nansum_losses_nonpos (s : list (option Q)) :
  Metrics.nansum (filter Metrics.is_loss s) <= 0.
Proof.
  induction s as [|[q|] s IH]; [apply Qle_refl| |exact IH].
  cbn [filter]. destruct (Metrics.is_loss (Some q)) eqn:E; [|exact IH].
  rewrite nansum_cons_some. cbn in E. apply Qleb_le in E. lra.
Qed.

(** The losses sum to less than zero exactly when some cell is negative. *)
Lemma nansum_losses_neg (s : list (option Q)) :
  Metrics.nansum (filter Metrics.is_loss s) < 0 <->
  exists q, In (Some q) s /\ q < 0.
Proof.
  induction s as [|[q|] s IH].
  - split; [intro H; exfalso; revert H; apply Qlt_irrefl|intros (q & [] & _)].
  - cbn [filter]. pose proof (nansum_losses_nonpos s) as Hs.
    destruct (Metrics.is_loss (Some q)) eqn:E.
    + rewrite nansum_cons_some. cbn in E. apply Qleb_le in E. split.
      * intro H. destruct (Qlt_le_dec q 0) as [Hq|Hq].
        -- exists q. split; [now left|exact Hq].
        -- assert (Hneg : Metrics.nansum (filter Metrics.is_loss s) < 0) by lra.
           apply IH in Hneg as (q' & Hin & Hq'). exists q'. split; [now right|].
           exact Hq'.
      * intros (q' & [Heq|Hin] & Hq').
        -- injection Heq as <-. lra.
        -- assert (Metrics.nansum (filter Metrics.is_loss s) < 0)
             by (apply IH; eauto).
           lra.
    + cbn in E. rewrite IH. split.
      * intros (q' & Hin & Hq'). exists q'. split; [now right|exact Hq'].
      * intros (q' & [Heq|Hin] & Hq'); [|eauto].
        injection Heq as <-. exfalso.
        assert (Qleb q 0 = true) by (apply Qleb_le; lra). congruence.
  - rewrite IH. split.
    + intros (q' & Hin & Hq'). exists q'. split; [now right|exact Hq'].
    + intros (q' & [Heq|Hin] & Hq'); [discriminate|eauto].
Qed.

(** ** X8: the summary counts the rows of the ledger *)

Lemma ledger_rows_aggregate (self : Backtester) (signals : option signal_frame)
    (ledger : list LedgerRow.t) :
  run self signals = Ok ledger ->
  Forall (fun lr =>
            exists t, lr = aggregate t /\
              match Trade.size t with
              | Some _ => exists pnl, Trade.pnl t = Some pnl
              | None => Trade.pnl t = None
              end)
         ledger.
Proof.
  intro Hrun. apply run_inv in Hrun as [trades [Hrun ->]].
  apply Forall_forall. intros lr Hin.
  apply in_map_iff in Hin as [t [<- Hin]].
  destruct (run_trades_closed _ _ _ Hrun) as [->|(sig & data & _ & _ & H)];
    [destruct Hin|].
  exists t. split; [reflexivity|].
  destruct (H t Hin) as [Hc|Hc].
  - apply closed_in_loop_lived in Hc
      as (e & j & t0 & u & row & p & r & _ & Hl & _ & -> & _).
    destruct (lived_entry _ _ _ _ _ _ Hl) as (_ & _ & _ & _ & _ & _ & _ & Hco).
    exact (close_trade_pnl self u p (Row.datetime row) j r Hco).
  - apply closed_at_end_lived in Hc as (e & t0 & u & last_row & Hl & _ & ->).
    destruct (lived_entry _ _ _ _ _ _ Hl) as (_ & _ & _ & _ & _ & _ & _ & Hco).
    exact (close_trade_pnl self u _ _ _ _ Hco).
Qed.

Lemma aggregate_is_win (t : Trade.t) (pnl : Q) :
  Trade.pnl t = Some pnl ->
  Metrics.is_win (Trade.pnl t)
  = existsb (String.eqb (LedgerRow.result (aggregate t))) ["win"%string] /\
  Metrics.is_loss (Trade.pnl t)
  = existsb (String.eqb (LedgerRow.result (aggregate t)))
      ["loss"%string; "be"%string].
Proof.
  intro Hp. rewrite Hp, is_loss_not_win. unfold aggregate.
  cbn [LedgerRow.result Metrics.is_win]. rewrite Hp.
  destruct (Qltb 0 pnl); [split; reflexivity|].
  destruct (Qltb pnl 0); split; reflexivity.
Qed.

Lemma filter_pnl_column (ledger : list LedgerRow.t) :
  Forall (fun lr =>
            exists t, lr = aggregate t /\
              match Trade.size t with
              | Some _ => exists pnl, Trade.pnl t = Some pnl
              | None => Trade.pnl t = None
              end)
         ledger ->
  List.length (filter Metrics.is_win (pnl_column ledger))
  = List.length (rows_with ["win"%string] ledger) /\
  (List.length (filter Metrics.is_loss (pnl_column ledger))
   + List.length (nan_size_rows ledger))%nat
  = List.length (rows_with ["loss"%string; "be"%string] ledger) /\
  (List.length (filter Metrics.is_win (pnl_column ledger))
   + List.length (filter Metrics.is_loss (pnl_column ledger))
   + List.length (nan_size_rows ledger))%nat
  = List.length ledger.
Proof.
  induction 1 as [|lr ledger (t & -> & Hp) _ (IHw & IHl & IHs)];
    [repeat split|].
  unfold pnl_column, rows_with, nan_size_rows in *. cbn [map filter].
  change (LedgerRow.trade (aggregate t)) with t.
  destruct (Trade.size t).
  - destruct Hp as [pnl Hp].
    destruct (aggregate_is_win t pnl Hp) as [<- <-].
    rewrite Hp, is_loss_not_win.
    destruct (Metrics.is_win (Some pnl)); cbn [negb List.length];
      repeat split; lia.
  - destruct (aggregate_nan t Hp) as [Hres _]. rewrite Hres, Hp.
    change (existsb (String.eqb "be") ["win"%string]) with false.
    change (existsb (String.eqb "be") ["loss"%string; "be"%string]) with true.
    cbn [Metrics.is_win Metrics.is_loss List.length].
    repeat split; lia.
Qed.

(** X8.  The summary of a ledger that [run] returned counts its rows:
    [trades] is the number of rows, [wins] the number of rows whose result
    is [win], and [losses] the number of rows whose result is [loss] or
    [be] and whose size is a number, so that a trade that breaks even
    counts as a loss.  A row whose size is [NaN] has the result [be] and is
    counted neither as a win nor as a loss: [wins + losses] and the number
    of those rows add up to [trades]. *)
Theorem summary_counts_ledger (self : Backtester)
    (signals : option signal_frame) (ledger : list LedgerRow.t)
    (initial_cap : Q) :
  run self signals = Ok ledger ->
  let s := Metrics.performance_summary (pnl_column ledger) initial_cap in
  Metrics.trades s = List.length ledger /\
  Metrics.wins s = List.length (rows_with ["win"%string] ledger) /\
  (Metrics.losses s + List.length (nan_size_rows ledger))%nat
  = List.length (rows_with ["loss"%string; "be"%string] ledger) /\
  (Metrics.wins s + Metrics.losses s
   + List.length (nan_size_rows ledger))%nat = Metrics.trades s.
Proof.
  intros Hrun s. subst s.
  pose proof (ledger_rows_aggregate _ _ _ Hrun) as Hrows.
  destruct (filter_pnl_column ledger Hrows) as (Hw & Hl & Hs).
  assert (Hlen : List.length (pnl_column ledger) = List.length ledger)
    by apply length_map.
  unfold Metrics.performance_summary.
  destruct (pnl_column ledger) as [|c cs] eqn:E.
  - destruct ledger; [|discriminate]. repeat split.
  - cbn [Metrics.trades Metrics.wins Metrics.losses].
    repeat split; auto. now rewrite Hlen.
Qed.

Lemma summary_counts_ledger_witness :
  run scenario_D_bt (Some nan_size_signals) = Ok nan_size_ledger /\
  List.length nan_size_ledger = 2%nat /\
  List.length (nan_size_rows nan_size_ledger) = 1%nat /\
  let s := Metrics.performance_summary (pnl_column nan_size_ledger) 1000 in
  Metrics.trades s = 2%nat /\ Metrics.wins s = 1%nat /\
  Metrics.losses s = 0%nat.
Proof.
  split; [vm_compute; reflexivity|]. split; [reflexivity|].
  split; [reflexivity|].
  destruct (summary_counts_ledger scenario_D_bt (Some nan_size_signals)
              nan_size_ledger 1000) as (Ht & Hw & Hl & Hsum).
  - vm_compute. reflexivity.
  - cbv zeta.
    change (List.length (nan_size_rows nan_size_ledger)) with 1%nat in Hl, Hsum.
    change (List.length nan_size_ledger) with 2%nat in Ht.
    change (List.length (rows_with ["win"%string] nan_size_ledger))
      with 1%nat in Hw.
    split; [exact Ht|]. split; [exact Hw|]. lia.
Defined.

(** ** X9: the reported figures reconcile *)




(** ** X10: the ranges of the summary *)

Lemma py_round2_100 : py_round2 100 == 100.
Proof. apply (py_round2_Z 100). Qed.

(** X10.  In every summary the win rate is between 0 and 100, the gross
    profit is not negative, the gross loss is not positive, and the profit
    factor is a number that is not negative or is infinite.  On a ledger
    with at least one row it is infinite exactly when no trade lost
    money. *)
Theorem summary_ranges (pnl : list (option Q)) (initial_cap : Q) :
  let s := Metrics.performance_summary pnl initial_cap in
  0 <= Metrics.win_rate_pct s /\ Metrics.win_rate_pct s <= 100 /\
  0 <= Metrics.gross_profit s /\ Metrics.gross_loss s <= 0 /\
  match Metrics.profit_factor s with
  | Fin pf => 0 <= pf
  | PInf => True
  | NInf | NaN => False
  end /\
  (pnl <> [] ->
   (Metrics.profit_factor s = PInf <-> forall q, In (Some q) pnl -> 0 <= q)).
Proof.
  intro s. subst s. unfold Metrics.performance_summary.
  destruct pnl as [|c cs].
  - cbn [Metrics.win_rate_pct Metrics.gross_profit Metrics.gross_loss
         Metrics.profit_factor].
    split; [lra|]. split; [lra|]. split; [lra|]. split; [lra|].
    split; [lra|]. intro Hne. now destruct Hne.
  - set (pnl := c :: cs).
    cbn [Metrics.win_rate_pct Metrics.gross_profit Metrics.gross_loss
         Metrics.profit_factor].
    pose proof (nansum_wins_nonneg pnl) as Hw.
    pose proof (nansum_losses_nonpos pnl) as Hl.
    assert (Hcount : (List.length (filter Metrics.is_win pnl)
                      <= List.length pnl)%nat) by apply filter_length_le.
    assert (Hpos : (0 < List.length pnl)%nat) by (cbn; lia).
    set (w := List.length (filter Metrics.is_win pnl)) in *.
    set (n := List.length pnl) in *.
    assert (Hn : 0 < inject_Z (Z.of_nat n)).
    { rewrite <- (Zlt_Qlt 0). lia. }
    assert (Hw0 : 0 <= inject_Z (Z.of_nat w)).
    { rewrite <- (Zle_Qle 0). lia. }
    assert (Hwn : inject_Z (Z.of_nat w) <= inject_Z (Z.of_nat n)).
    { rewrite <- Zle_Qle. lia. }
    split; [|split; [|split; [|split; [|split]]]].
    + apply py_round2_nonneg. apply Qle_shift_div_l; [exact Hn|]. lra.
    + apply Qle_trans with (py_round2 100);
        [|rewrite py_round2_100; apply Qle_refl].
      apply py_round2_mono.
      apply Qle_shift_div_r; [exact Hn|]. lra.
    + now apply py_round2_nonneg.
    + now apply py_round2_nonpos.
    + destruct (Qltb (Metrics.nansum (filter Metrics.is_loss pnl)) 0) eqn:E;
        cbn [Metrics.xmap]; [|exact I].
      apply Qltb_lt in E. apply py_round2_nonneg.
      apply Qle_shift_div_l; [|lra].
      apply Qabs_case; lra.
    + intros _.
      destruct (Qltb (Metrics.nansum (filter Metrics.is_loss pnl)) 0) eqn:E;
        cbn [Metrics.xmap].
      * apply Qltb_lt in E. split; [discriminate|]. intro H. exfalso.
        apply nansum_losses_neg in E as (q & Hin & Hq).
        specialize (H q Hin). lra.
      * split; [|reflexivity]. intros _ q Hin.
        destruct (Qlt_le_dec q 0) as [Hq|Hq]; [|exact Hq]. exfalso.
        assert (Hneg : Metrics.nansum (filter Metrics.is_loss pnl) < 0)
          by (apply nansum_losses_neg; eauto).
        apply Qltb_lt in Hneg. congruence.
Qed.

Lemma summary_ranges_witness :
  pnl_column scenario_D_ledger <> [] /\
  Metrics.profit_factor scenario_D_summary <> PInf /\
  ~ (forall q, In (Some q) (pnl_column scenario_D_ledger) -> 0 <= q).
Proof.
  split; [discriminate|].
  destruct (summary_ranges (pnl_column scenario_D_ledger) 1000)
    as (_ & _ & _ & _ & _ & H).
  split; [vm_compute; discriminate|].
  intro Hall. apply H in Hall; [|discriminate].
  vm_compute in Hall. discriminate Hall.
Defined.

(** ** X11: the maximum drawdown *)

Lemma drawdown_cell_ok (e m : Q) :
  0 < e -> e <= m ->
  exists d, Metrics.drawdown_cell (Some e) (Some m) = Fin d /\ -1 < d /\ d <= 0.
Proof.
  intros He Hm. unfold Metrics.drawdown_cell, Metrics.xdiv.
  assert (Hm0 : 0 < m) by lra.
  destruct (Qeq_bool m 0) eqn:E.
  - apply Qeq_bool_iff in E. lra.
  - cbn. eexists. split; [reflexivity|].
    assert (H1 : 0 < e / m) by (apply Qlt_shift_div_l; lra).
    assert (H2 : e / m <= 1) by (apply Qle_shift_div_r; lra).
    split; lra.
Qed.

(** With a positive equity every drawdown is a number in [(-1, 0]], and it
    is missing only where the equity is. *)
Lemma drawdown_cells (s : list (option Q)) (m : option Q) :
  (forall e, In (Some e) s -> 0 < e) ->
  (forall x, m = Some x -> 0 < x) ->
  Forall2 (fun c d => drawdown_ok d /\ (d = NaN -> c = None)) s
    (Metrics.zip_with Metrics.drawdown_cell s (Metrics.cummax_from m s)).
Proof.
  revert m. induction s as [|[e|] s IH]; intros m Hs Hm;
    cbn [Metrics.cummax_from Metrics.zip_with]; [constructor| |].
  - assert (He : 0 < e) by (apply Hs; now left).
    set (m' := match m with Some x => py_max x e | None => e end).
    assert (Hm' : e <= m').
    { subst m'. destruct m as [x|]; [apply py_max_r|apply Qle_refl]. }
    destruct (drawdown_cell_ok e m' He Hm') as (d & Hd & Hlo & Hhi).
    constructor.
    + rewrite Hd. split; [split; assumption|discriminate].
    + apply IH; [intros e' Hin; apply Hs; now right|].
      intros x Hx. injection Hx as <-. lra.
  - constructor; [split; [exact I|reflexivity]|].
    apply IH; [intros e' Hin; apply Hs; now right|exact Hm].
Qed.

Lemma xmin_from_ok (l : list xnum) (m : xnum) :
  Forall drawdown_ok l -> drawdown_ok m ->
  drawdown_ok (Metrics.xmin_from m l) /\
  (Metrics.xmin_from m l = NaN -> m = NaN /\ Forall (eq NaN) l).
Proof.
  intro Hl. revert m. induction Hl as [|x l Hx Hl IH]; intros m Hm;
    cbn [Metrics.xmin_from]; [auto|].
  destruct x as [d| | |]; cbn in Hx; try contradiction.
  - set (m' := match m with
               | NaN => Fin d
               | _ => if Metrics.xltb (Fin d) m then Fin d else m
               end).
    assert (Hm' : drawdown_ok m' /\ m' <> NaN).
    { subst m'. destruct m as [q| | |]; cbn in Hm; try contradiction.
      - destruct (Metrics.xltb (Fin d) (Fin q)); split; try discriminate;
          assumption.
      - split; [exact Hx|discriminate]. }
    destruct Hm' as [Hok Hne]. destruct (IH m' Hok) as [H1 H2].
    split; [exact H1|]. intro H. apply H2 in H as [H _]. contradiction.
  - destruct (IH m Hm) as [H1 H2]. split; [exact H1|].
    intro H. apply H2 in H as [-> Hall]. split; [reflexivity|].
    now constructor.
Qed.

Lemma cumsum_from_none (s : list (option Q)) (acc : Q) :
  Forall2 (fun p c => c = None -> p = None) s (Metrics.cumsum_from acc s).
Proof.
  revert acc. induction s as [|[q|] s IH]; intro acc;
    cbn [Metrics.cumsum_from]; constructor; auto. discriminate.
Qed.

Lemma Forall2_back {A B : Type} (R : A -> B -> Prop) (P : B -> Prop)
    (Q' : A -> Prop) (l : list A) (l' : list B) :
  Forall2 R l l' -> Forall P l' ->
  (forall a b, R a b -> P b -> Q' a) -> Forall Q' l.
Proof.
  intros H2 HP HR. induction H2 as [|a b l l' Hab _ IH]; [constructor|].
  inversion HP; subst. constructor; [eapply HR; eassumption|now apply IH].
Qed.

Lemma Forall2_map_r {A B C : Type} (R : A -> C -> Prop) (f : B -> C)
    (l : list A) (l' : list B) :
  Forall2 (fun a b => R a (f b)) l l' -> Forall2 R l (map f l').
Proof.
  induction 1; cbn; constructor; assumption.
Qed.

(** X11.  Where every point of the equity curve is positive, the maximum
    drawdown of the summary is a percentage between -100 and 0.  It is
    missing only when every [pnl] of a ledger that is not empty is
    missing. *)
Theorem max_drawdown_range (pnl : list (option Q)) (initial_cap : Q) :
  (forall e, In (Some e) (Metrics.equity_curve pnl initial_cap) -> 0 < e) ->
  match Metrics.max_drawdown_pct
          (Metrics.performance_summary pnl initial_cap) with
  | Fin m => -100 <= m /\ m <= 0
  | NaN => pnl <> [] /\ forall c, In c pnl -> c = None
  | PInf | NInf => False
  end.
Proof.
  intro Hpos. unfold Metrics.performance_summary.
  destruct pnl as [|c cs]; [cbn; split; lra|].
  set (pnl := c :: cs) in *. cbn [Metrics.max_drawdown_pct].
  unfold Metrics.compute_drawdown. cbn [Metrics.dd_drawdown].
  unfold Metrics.cummax, Metrics.xmin.
  set (eq := Metrics.equity_curve pnl initial_cap) in *.
  pose proof (drawdown_cells eq None Hpos) as Hcells.
  assert (Hnone : forall x : Q, None = Some x -> 0 < x) by discriminate.
  specialize (Hcells Hnone).
  set (dd := Metrics.zip_with Metrics.drawdown_cell eq
               (Metrics.cummax_from None eq)) in *.
  assert (Hok : Forall drawdown_ok dd).
  { clear -Hcells. induction Hcells as [|? ? ? ? [H _] _ IH]; constructor; auto. }
  destruct (xmin_from_ok dd NaN Hok I) as [Hmin Hnan].
  destruct (Metrics.xmin_from NaN dd) as [d| | |] eqn:E; cbn in Hmin;
    try contradiction; cbn [Metrics.xmap].
  - destruct Hmin as [Hlo Hhi]. split.
    + apply Qle_trans with (py_round2 (inject_Z (-100)));
        [rewrite py_round2_Z; apply Qle_refl|].
      apply py_round2_mono. change (inject_Z (-100)) with (-100). lra.
    + apply py_round2_nonpos. lra.
  - split; [discriminate|].
    destruct (Hnan eq_refl) as [_ Hall].
    assert (Heq : Forall (fun c => c = None) eq).
    { apply (Forall2_back _ _ _ _ _ Hcells Hall).
      intros a b [_ H] <-. now apply H. }
    assert (Hp : Forall (fun c => c = None) pnl).
    { subst eq. unfold Metrics.equity_curve, Metrics.cumsum in Heq.
      apply (Forall2_back (fun p c => c = None -> p = None)
               (fun c => c = None) _ pnl
               (map (option_map (fun c => initial_cap + c))
                  (Metrics.cumsum_from 0 pnl)));
        [|exact Heq|auto].
      apply Forall2_map_r.
      eapply Forall2_impl; [|apply cumsum_from_none].
      intros p c0 H H0. apply H. now destruct c0. }
    rewrite Forall_forall in Hp. exact Hp.
Qed.

Lemma max_drawdown_range_witness :
  (forall e,
     In (Some e) (Metrics.equity_curve (pnl_column scenario_D_ledger) 1000) ->
     0 < e) /\
  Metrics.max_drawdown_pct scenario_D_summary = Fin (py_round2 (- (63 # 100))) /\
  match Metrics.max_drawdown_pct scenario_D_summary with
  | Fin m => -100 <= m /\ m <= 0
  | NaN => pnl_column scenario_D_ledger <> [] /\
           forall c, In c (pnl_column scenario_D_ledger) -> c = None
  | PInf | NInf => False
  end.
Proof.
  assert (H : forall e,
            In (Some e)
               (Metrics.equity_curve (pnl_column scenario_D_ledger) 1000) ->
            0 < e).
  { intros e [E|[E|[]]]; injection E as <-; reflexivity. }
  split; [exact H|]. split; [vm_compute; reflexivity|].
  apply (max_drawdown_range (pnl_column scenario_D_ledger) 1000 H).
Defined.

(** * The sample strategy *)

Lemma signal_cells_shift (f s : list (option Q)) (a b pf ps : option Q) :
  List.length f = List.length s ->
  Strategy.signal_cells (pf :: removelast (a :: f)) (ps :: removelast (b :: s))
    (a :: f) (b :: s)
  = signal_cells_from pf ps (a :: f) (b :: s).
Proof.
  revert s a b pf ps. induction f as [|a' f IH]; intros s a b pf ps Hlen.
  - destruct s; [reflexivity|discriminate].
  - destruct s as [|b' s]; [discriminate|].
    cbn [List.length] in Hlen. injection Hlen as Hlen.
    change (removelast (a :: a' :: f)) with (a :: removelast (a' :: f)).
    change (removelast (b :: b' :: s)) with (b :: removelast (b' :: s)).
    cbn [Strategy.signal_cells signal_cells_from]. f_equal.
    apply (IH s a' b' a b Hlen).
Qed.

Lemma signal_cells_shift1 (f s : list (option Q)) :
  List.length f = List.length s ->
  Strategy.signal_cells (Strategy.shift1 f) (Strategy.shift1 s) f s
  = signal_cells_from None None f s.
Proof.
  destruct f as [|a f], s as [|b s]; try reflexivity; try discriminate.
  intro H. cbn [List.length] in H. injection H as H.
  apply signal_cells_shift, H.
Qed.

Lemma signal_cells_from_length (f s : list (option Q)) (pf ps : option Q) :
  List.length f = List.length s ->
  List.length (signal_cells_from pf ps f s) = List.length f.
Proof.
  revert s pf ps. induction f as [|a f IH]; intros [|b s] pf ps H;
    try reflexivity; try discriminate.
  cbn [signal_cells_from List.length]. f_equal. apply IH.
  now injection H.
Qed.

Lemma signal_cell_range (pf ps f s : option Q) :
  let z := Strategy.signal_cell pf ps f s in
  z = (-1)%Z \/ z = 0%Z \/ z = 1%Z.
Proof.
  unfold Strategy.signal_cell.
  destruct (_ && _); [now left|]. destruct (_ && _); auto.
Qed.

Lemma cell_gt_not_le (a b : option Q) :
  Strategy.cell_gt a b = true -> Strategy.cell_le a b = false.
Proof.
  destruct a as [a|], b as [b|]; cbn; try discriminate.
  intro H. apply Qltb_lt in H.
  destruct (Qleb a b) eqn:E; [|reflexivity].
  apply Qleb_le in E. exfalso. apply (Qlt_not_le _ _ H E).
Qed.

(** After a buy the next cell is not a buy, and likewise for a sell. *)
Lemma signal_cell_not_repeated (pf ps f s f' s' : option Q) :
  not_repeated (Strategy.signal_cell pf ps f s)
               (Strategy.signal_cell f s f' s').
Proof.
  unfold not_repeated, Strategy.signal_cell.
  destruct (Strategy.cell_le ps pf && Strategy.cell_gt s f) eqn:Hsell.
  - intros _. apply andb_prop in Hsell as [_ Hgt].
    rewrite (cell_gt_not_le _ _ Hgt). cbn [andb].
    destruct (Strategy.cell_le f s && Strategy.cell_gt f' s'); cbn;
      intro H; discriminate H.
  - destruct (Strategy.cell_le pf ps && Strategy.cell_gt f s) eqn:Hbuy;
      [|intro H; now destruct H].
    intros _. apply andb_prop in Hbuy as [_ Hgt].
    rewrite (cell_gt_not_le _ _ Hgt). cbn [andb].
    destruct (Strategy.cell_le s f && Strategy.cell_gt s' f'); cbn;
      intro H; discriminate H.
Qed.

Lemma signal_cells_from_shape (f s : list (option Q)) (pf ps : option Q) :
  Forall (fun z => z = (-1)%Z \/ z = 0%Z \/ z = 1%Z)
         (signal_cells_from pf ps f s) /\
  chain not_repeated (signal_cells_from pf ps f s).
Proof.
  revert s pf ps. induction f as [|a f IH]; intros [|b s] pf ps;
    cbn [signal_cells_from]; try (split; [constructor|exact I]).
  destruct (IH s a b) as [Hr Hc]. split.
  - constructor; [apply signal_cell_range|exact Hr].
  - destruct f as [|a' f], s as [|b' s]; cbn [signal_cells_from chain] in *;
      try exact I.
    split; [apply signal_cell_not_repeated|exact Hc].
Qed.

Lemma signal_rows_values (dts : list Z) (sigs : list Z) :
  List.length dts = List.length sigs ->
  map (fun s => match SignalRow.signal s with
                | Some z => z
                | None => 0%Z
                end) (Strategy.signal_rows dts sigs) = sigs /\
  map SignalRow.datetime (Strategy.signal_rows dts sigs) = dts.
Proof.
  revert sigs. induction dts as [|d dts IH]; intros [|z sigs] H;
    try discriminate; [split; reflexivity|].
  cbn [Strategy.signal_rows map SignalRow.signal SignalRow.datetime].
  destruct (IH sigs) as [-> ->]; [now injection H|]. split; reflexivity.
Qed.

Lemma ewm_from_length (alpha prev : Q) (xs : list Q) :
  List.length (Strategy.ewm_from alpha prev xs) = List.length xs.
Proof.
  revert prev. induction xs as [|x xs IH]; intro prev; [reflexivity|].
  cbn. now rewrite IH.
Qed.

Lemma ema_column_length (df : Strategy.frame) (present : bool)
    (cell : Strategy.row -> option Q) (span : Q) (col : list (option Q)) :
  Strategy.ema_column df present cell span = Ok col ->
  List.length col = List.length (Strategy.rows df).
Proof.
  unfold Strategy.ema_column. destruct present.
  - intro H. injection H as <-. apply length_map.
  - destruct (has_pcol P_close (Strategy.columns df)); [|discriminate].
    intro H. injection H as <-. rewrite length_map. unfold Strategy.ewm_mean.
    destruct (Strategy.rows df) as [|r rs]; [reflexivity|].
    cbn [map List.length]. now rewrite ewm_from_length, length_map.
Qed.

(** What [generate_signals] returns, in terms of the two averages. *)
Lemma generate_signals_inv (df : Strategy.frame) (sig : signal_frame)
    (inds : list string) :
  Strategy.generate_signals df = Ok (sig, inds) ->
  exists fast slow,
    Strategy.ema_column df (Strategy.has_ema9 df) Strategy.ema9 9 = Ok fast /\
    Strategy.ema_column df (Strategy.has_ema21 df) Strategy.ema21 21 = Ok slow /\
    s_columns sig = [S_datetime; S_signal] /\
    signal_values sig = signal_cells_from None None fast slow /\
    map SignalRow.datetime (s_rows sig)
    = map (fun r => PriceRow.datetime (Strategy.bar r)) (Strategy.rows df).
Proof.
  unfold Strategy.generate_signals.
  destruct (negb (has_pcol P_datetime (Strategy.columns df))); [discriminate|].
  destruct (Strategy.ema_column df (Strategy.has_ema9 df) Strategy.ema9 9)
    as [fast|e] eqn:Ef; [|discriminate].
  destruct (Strategy.ema_column df (Strategy.has_ema21 df) Strategy.ema21 21)
    as [slow|e] eqn:Es; [|discriminate].
  cbn [bind]. intro H. injection H as <- _.
  apply ema_column_length in Ef, Es.
  exists fast, slow. split; [reflexivity|]. split; [reflexivity|].
  split; [reflexivity|].
  assert (Hlen : List.length fast = List.length slow) by congruence.
  rewrite (signal_cells_shift1 _ _ Hlen).
  unfold signal_values. cbn [s_rows].
  apply signal_rows_values.
  rewrite length_map, signal_cells_from_length by exact Hlen. now symmetry.
Qed.

(** X12.  The signal frame of the EMA strategy has one row for each row of
    the price frame, with its timestamp, and only the columns [datetime] and
    [signal].  Every signal is -1, 0 or 1; the first one is 0; and a buy is
    never followed by a buy on the next bar, nor a sell by a sell. *)
Theorem generate_signals_shape (df : Strategy.frame) (sig : signal_frame)
    (inds : list string) :
  Strategy.generate_signals df = Ok (sig, inds) ->
  s_columns sig = [S_datetime; S_signal] /\
  map SignalRow.datetime (s_rows sig)
  = map (fun r => PriceRow.datetime (Strategy.bar r)) (Strategy.rows df) /\
  Forall (fun z => z = (-1)%Z \/ z = 0%Z \/ z = 1%Z) (signal_values sig) /\
  hd 0%Z (signal_values sig) = 0%Z /\
  chain not_repeated (signal_values sig).
Proof.
  intro H. apply generate_signals_inv in H
    as (fast & slow & _ & _ & Hc & Hv & Hd).
  split; [exact Hc|]. split; [exact Hd|]. rewrite Hv.
  destruct (signal_cells_from_shape fast slow None None) as [Hr Hn].
  split; [exact Hr|]. split; [|exact Hn].
  destruct fast as [|a f], slow as [|b s]; reflexivity.
Qed.

Lemma generate_signals_shape_witness :
  Strategy.generate_signals wave_frame
  = Ok (wave_signals, ["ema9"; "ema21"]%string) /\
  signal_values wave_signals = [0; 0; 1; 0; 0; 0; -1]%Z /\
  chain not_repeated (signal_values wave_signals).
Proof.
  split; [vm_compute; reflexivity|]. split; [reflexivity|].
  apply (generate_signals_shape wave_frame wave_signals
           ["ema9"; "ema21"]%string).
  vm_compute. reflexivity.
Defined.

(** ** The strategy in a market that never falls *)

(** While the closes do not fall the fast average stays between the slow
    one and the close. *)
Lemma ewm_step_order (pf ps x : Q) :
  ps <= pf -> pf <= x ->
  let f := (1 - 2 / (9 + 1)) * pf + 2 / (9 + 1) * x in
  let s := (1 - 2 / (21 + 1)) * ps + 2 / (21 + 1) * x in
  s <= f /\ f <= x /\ (ps < pf -> s < f).
Proof.
  intros H1 H2 f s. subst f s.
  assert (Ea : 2 / (9 + 1) == 1 # 5) by reflexivity.
  assert (Eb : 2 / (21 + 1) == 1 # 11) by reflexivity.
  rewrite Ea, Eb. split; [lra|]. split; [lra|]. intro H3. lra.
Qed.

Lemma rising_cells (xs : list Q) (pf ps px : Q) :
  ps <= pf -> pf <= px -> chain Qle (px :: xs) ->
  let cells :=
    signal_cells_from (Some pf) (Some ps)
      (map Some (Strategy.ewm_from (2 / (9 + 1)) pf xs))
      (map Some (Strategy.ewm_from (2 / (21 + 1)) ps xs)) in
  Forall (fun z => z <> (-1)%Z) cells /\
  (count_occ Z.eq_dec cells 1%Z <= 1)%nat /\
  (ps < pf -> count_occ Z.eq_dec cells 1%Z = 0%nat).
Proof.
  revert pf ps px. induction xs as [|x xs IH]; intros pf ps px H1 H2 Hc.
  - cbn. split; [constructor|]. split; [lia|reflexivity].
  - cbn [Strategy.ewm_from map signal_cells_from].
    assert (Hpx : px <= x /\ chain Qle (x :: xs)).
    { exact Hc. }
    destruct Hpx as [Hpx Hc'].
    destruct (ewm_step_order pf ps x H1 (Qle_trans _ _ _ H2 Hpx))
      as (Hsf & Hfx & Hstrict).
    set (f := (1 - 2 / (9 + 1)) * pf + 2 / (9 + 1) * x) in *.
    set (s := (1 - 2 / (21 + 1)) * ps + 2 / (21 + 1) * x) in *.
    destruct (IH f s x Hsf Hfx Hc') as (IHn & IHc & IHs).
    unfold Strategy.signal_cell at 1 2 3. cbn [Strategy.cell_le Strategy.cell_gt].
    assert (Hnosell : Qltb f s = false) by now apply Qltb_ge.
    rewrite Hnosell, andb_false_r.
    destruct (Qleb pf ps && Qltb s f) eqn:Hbuy.
    + apply andb_prop in Hbuy as [Hle Hlt].
      apply Qleb_le in Hle. apply Qltb_lt in Hlt.
      split; [constructor; [discriminate|exact IHn]|].
      rewrite count_occ_cons_eq by reflexivity. rewrite (IHs Hlt).
      split; [lia|]. intro Hp. exfalso. lra.
    + split; [constructor; [discriminate|exact IHn]|].
      rewrite count_occ_cons_neq by discriminate.
      split; [exact IHc|]. intro Hp. apply IHs, Hstrict, Hp.
Qed.

(** X13.  On a price frame whose closes never fall, and that leaves the two
    averages to the strategy, the strategy never sells and buys at most
    once. *)
Theorem rising_market_signals (df : Strategy.frame) (sig : signal_frame)
    (inds : list string) :
  Strategy.has_ema9 df = false ->
  Strategy.has_ema21 df = false ->
  chain Qle (map (fun r => PriceRow.close (Strategy.bar r)) (Strategy.rows df)) ->
  Strategy.generate_signals df = Ok (sig, inds) ->
  Forall (fun z => z <> (-1)%Z) (signal_values sig) /\
  (count_occ Z.eq_dec (signal_values sig) 1%Z <= 1)%nat.
Proof.
  intros H9 H21 Hc H. apply generate_signals_inv in H
    as (fast & slow & Hf & Hs & _ & -> & _).
  unfold Strategy.ema_column in Hf, Hs. rewrite H9 in Hf. rewrite H21 in Hs.
  destruct (has_pcol P_close (Strategy.columns df)); [|discriminate].
  injection Hf as <-. injection Hs as <-.
  destruct (map (fun r => PriceRow.close (Strategy.bar r)) (Strategy.rows df))
    as [|x0 xs]; [split; [constructor|cbn; lia]|].
  cbn [Strategy.ewm_mean map signal_cells_from].
  destruct (rising_cells xs x0 x0 x0 (Qle_refl _) (Qle_refl _) Hc)
    as (Hn & Hcount & _).
  split.
  - constructor; [discriminate|exact Hn].
  - rewrite count_occ_cons_neq by discriminate. exact Hcount.
Qed.

Lemma rising_market_signals_witness :
  Strategy.generate_signals rising_frame
  = Ok (rising_signals, ["ema9"; "ema21"]%string) /\
  signal_values rising_signals = [0; 0; 1; 0; 0; 0]%Z /\
  (count_occ Z.eq_dec (signal_values rising_signals) 1%Z <= 1)%nat.
Proof.
  split; [vm_compute; reflexivity|]. split; [reflexivity|].
  apply (rising_market_signals rising_frame rising_signals
           ["ema9"; "ema21"]%string).
  - reflexivity.
  - reflexivity.
  - cbn. repeat split; apply Qle_bool_iff; reflexivity.
  - vm_compute. reflexivity.
Defined.

(** ** Runs on plain signals *)

Lemma has_scol_app (c : signal_col) (l1 l2 : list signal_col) :
  has_scol c (l1 ++ l2) = has_scol c l1 || has_scol c l2.
Proof. apply existsb_app. Qed.

Lemma plain_columns_elim (cols : list signal_col) :
  plain_columns cols = true ->
  has_scol S_stop_price cols = false /\
  has_scol S_take_price cols = false /\
  has_scol S_size cols = false /\
  has_scol S_risk cols = false /\
  has_scol S_trailing_distance cols = false.
Proof.
  unfold plain_columns. cbn [forallb].
  destruct (has_scol S_stop_price cols), (has_scol S_take_price cols),
    (has_scol S_size cols), (has_scol S_risk cols),
    (has_scol S_trailing_distance cols); cbn; intro H;
    try discriminate H; auto.
Qed.

(** The merged frame has the enrichment columns of the signal frame. *)
Lemma prepare_plain (self : Backtester) (signals : signal_frame)
    (data : data_frame) :
  plain_columns (s_columns signals) = true ->
  prepare self signals = Ok data ->
  plain_columns (d_scols data) = true.
Proof.
  unfold prepare.
  destruct (negb (has_scol S_datetime (s_columns signals))); [discriminate|].
  destruct (negb (has_pcol P_datetime (p_columns (df self)))); [discriminate|].
  cbn [merge d_scols].
  destruct (has_scol S_signal (s_columns signals)); intros H E;
    injection E as <-; [exact H|].
  cbn [assign_signal_zero d_scols merge].
  unfold plain_columns in *. cbn [forallb] in *.
  rewrite !has_scol_app. cbn [has_scol existsb signal_col_eqb orb].
  rewrite !orb_false_r. exact H.
Qed.

Lemma open_row_plain (self : Backtester) (data : data_frame) (tid k : nat)
    (row : Row.t) (nt : Trade.t) :
  plain_columns (d_scols data) = true ->
  open_row self data tid k row = Some nt -> plain_trade nt.
Proof.
  intros Hc. apply plain_columns_elim in Hc as (H1 & H2 & H3 & H4 & H5).
  unfold open_row, _open_trade_from_row. rewrite H1, H2, H3, H4, H5.
  destruct (Row.signal row =? 0)%Z; [discriminate|].
  destruct (Row.joined row); [|discriminate].
  intro E. injection E as <-. repeat split.
Qed.

Lemma update_on_plain (row : Row.t) (t : Trade.t) :
  plain_trade t -> plain_trade (update_on row t).
Proof.
  destruct t. unfold plain_trade. cbn. intros (-> & -> & -> & -> & ->).
  unfold update_on, update_trade, update_excursion, trail_stop. cbn.
  destruct direction0; cbn; repeat split.
Qed.

Lemma exit_on_plain (row : Row.t) (t : Trade.t) :
  plain_trade t -> exit_on row t = None.
Proof.
  intros (_ & Hs & Ht & _).
  unfold exit_on, exit_decision, hit_sl, hit_tp. now rewrite Hs, Ht.
Qed.

Lemma open_before_plain (self : Backtester) (data : data_frame) (k : nat)
    (t : Trade.t) :
  plain_columns (d_scols data) = true ->
  open_before self data k t -> plain_trade t.
Proof.
  intros Hc H. induction H as [k row tid nt _ Hopen|k row t _ IH _ _].
  - exact (open_row_plain _ _ _ _ _ _ Hc Hopen).
  - apply update_on_plain, IH.
Qed.

Lemma close_trade_plain (self : Backtester) (t : Trade.t) (p : Q) (tm : Z)
    (i : nat) (r : string) :
  plain_trade t -> plain_trade (_close_trade self t p tm i r).
Proof. intro H. exact H. Qed.

(** The trades of a run on plain signals. *)
Lemma plain_trades (self : Backtester) (signals : signal_frame)
    (data : data_frame) (trades : list Trade.t) (t : Trade.t) :
  plain_columns (s_columns signals) = true ->
  prepare self signals = Ok data ->
  run_trades self (Some signals) = Ok trades ->
  In t trades ->
  plain_trade t /\
  ((single_position_mode self = true /\
    Trade.exit_reason t = Some "signal"%string) \/
   (Trade.exit_reason t = Some "eod"%string /\
    Trade.exit_bar_index t = Some (List.length (d_rows data) - 1)%nat)).
Proof.
  intros Hc Hp Hrun Hin.
  destruct (run_trades_closed _ _ _ Hrun) as [->|(sig & data' & E & Hp' & H)];
    [destruct Hin|].
  injection E as <-. rewrite Hp in Hp'. injection Hp' as <-.
  pose proof (prepare_plain _ _ _ Hc Hp) as Hd.
  destruct (H t Hin) as [Hcl|Hcl].
  - destruct Hcl as [k row u p r Hopen Hrow Hexit|k row u Hopen Hrow Hexit Hm Hs].
    + apply (open_before_plain _ _ _ _ Hd) in Hopen.
      rewrite (exit_on_plain row _ (update_on_plain row _ Hopen)) in Hexit.
      discriminate Hexit.
    + apply (open_before_plain _ _ _ _ Hd) in Hopen. split.
      * exact (close_trade_plain self _ (Row.close row) (Row.datetime row)
                 k "signal" (update_on_plain row _ Hopen)).
      * left. split; [exact Hm|reflexivity].
  - destruct Hcl as [u last_row Hopen Hlast].
    apply (open_before_plain _ _ _ _ Hd) in Hopen. split.
    + exact (close_trade_plain self _ (Row.close last_row)
               (Row.datetime last_row) (List.length (d_rows data) - 1)
               "eod" Hopen).
    + right. split; reflexivity.
Qed.

(** X14.  When the signal frame has none of the columns [stop_price],
    [take_price], [size], [risk] and [trailing_distance], every row of the
    ledger is a trade of size one without stop, target, trailing distance,
    risk and risk-reward ratio.  It was closed either by a later signal, in
    single-position mode, or on the last bar; so without single-position
    mode every trade is held to the last bar. *)
Theorem plain_signals_exits (self : Backtester) (signals : signal_frame)
    (data : data_frame) (ledger : list LedgerRow.t) (lr : LedgerRow.t) :
  plain_columns (s_columns signals) = true ->
  prepare self signals = Ok data ->
  run self (Some signals) = Ok ledger ->
  In lr ledger ->
  let t := LedgerRow.trade lr in
  plain_trade t /\
  LedgerRow.risk_reward lr = None /\
  ((single_position_mode self = true /\
    Trade.exit_reason t = Some "signal"%string) \/
   (Trade.exit_reason t = Some "eod"%string /\
    Trade.exit_bar_index t = Some (List.length (d_rows data) - 1)%nat)).
Proof.
  intros Hc Hp Hrun Hin t. subst t.
  apply run_inv in Hrun as [trades [Hrun ->]].
  apply in_map_iff in Hin as [t [<- Hin]].
  cbn [aggregate LedgerRow.trade].
  destruct (plain_trades self signals data trades t Hc Hp Hrun Hin)
    as [Hpl Hreason].
  split; [exact Hpl|]. split; [|exact Hreason].
  destruct Hpl as (_ & _ & _ & _ & Hr).
  unfold aggregate. cbn [LedgerRow.risk_reward]. now rewrite Hr.
Qed.

Lemma plain_signals_exits_witness :
  plain_columns (s_columns scenario_A_signals) = true /\
  prepare scenario_A_bt scenario_A_signals = Ok scenario_A_data /\
  run scenario_A_bt (Some scenario_A_signals) = Ok scenario_A_ledger /\
  exists lr,
    In lr scenario_A_ledger /\
    Trade.size (LedgerRow.trade lr) = Some 1 /\
    Trade.exit_reason (LedgerRow.trade lr) = Some "eod"%string /\
    LedgerRow.risk_reward lr = None.
Proof.
  split; [reflexivity|]. split; [vm_compute; reflexivity|].
  split; [vm_compute; reflexivity|].
  destruct (plain_signals_exits scenario_A_bt scenario_A_signals
              scenario_A_data scenario_A_ledger
              (hd (aggregate no_trade) scenario_A_ledger))
    as ((Hsize & _) & Hrr & _).
  - reflexivity.
  - vm_compute. reflexivity.
  - vm_compute. reflexivity.
  - left. reflexivity.
  - eexists. split; [left; reflexivity|]. split; [exact Hsize|].
    split; [reflexivity|exact Hrr].
Defined.

(** ** The strategy's signals through the simulator *)

Lemma filter_map_comm {A B : Type} (f : B -> bool) (g : A -> B) (l : list A) :
  filter f (map g l) = map g (filter (fun a => f (g a)) l).
Proof.
  induction l as [|a l IH]; [reflexivity|]. cbn [map filter].
  destruct (f (g a)); cbn [map]; now rewrite IH.
Qed.

Lemma filter_none {A : Type} (f : A -> bool) (l : list A) :
  (forall x, In x l -> f x = false) -> filter f l = [].
Proof.
  induction l as [|a l IH]; intro H; [reflexivity|]. cbn [filter].
  rewrite (H a (or_introl eq_refl)). apply IH. intros x Hx. apply H.
  now right.
Qed.

(** With distinct keys, looking a member's key up finds the member alone. *)
Lemma filter_unique {A : Type} (key : A -> Z) (l : list A) (a : A) :
  NoDup (map key l) -> In a l ->
  filter (fun x => (key x =? key a)%Z) l = [a].
Proof.
  induction l as [|x l IH]; intros Hn Hin; [destruct Hin|].
  cbn [map] in Hn. inversion Hn as [|? ? Hnot Hn']; subst.
  cbn [filter]. destruct Hin as [->|Hin].
  - rewrite Z.eqb_refl. f_equal. apply filter_none. intros y Hy.
    apply Z.eqb_neq. intro E. apply Hnot. rewrite <- E.
    now apply in_map.
  - destruct (key x =? key a)%Z eqn:E.
    + apply Z.eqb_eq in E. exfalso. apply Hnot. rewrite E. now apply in_map.
    + now apply IH.
Qed.

Lemma signal_rows_combine (prows : list PriceRow.t) (sigs : list Z) :
  Strategy.signal_rows (map PriceRow.datetime prows) sigs
  = map (fun '(p, z) => plain_signal (PriceRow.datetime p) z)
        (combine prows sigs).
Proof.
  revert sigs. induction prows as [|p prows IH]; intros [|z sigs];
    try reflexivity.
  cbn [map Strategy.signal_rows combine]. now rewrite IH.
Qed.

Lemma map_fst_combine {A B : Type} (l : list A) (l' : list B) :
  List.length l = List.length l' -> map fst (combine l l') = l.
Proof.
  revert l'. induction l as [|a l IH]; intros [|b l'] H;
    try reflexivity; try discriminate.
  cbn [combine map fst]. f_equal. apply IH. now injection H.
Qed.

Lemma flat_map_merge_rows (srows : list SignalRow.t)
    (prows : list PriceRow.t) (sigs : list Z) :
  (forall p z, In (p, z) (combine prows sigs) ->
     filter (fun s => (SignalRow.datetime s =? PriceRow.datetime p)%Z) srows
     = [plain_signal (PriceRow.datetime p) z]) ->
  List.length prows = List.length sigs ->
  flat_map (merge_row srows) prows = aligned prows sigs.
Proof.
  revert sigs. induction prows as [|p prows IH]; intros [|z sigs] H Hlen;
    try reflexivity; try discriminate.
  cbn [flat_map]. unfold aligned. cbn [combine map].
  unfold merge_row at 1. rewrite (H p z) by (left; reflexivity).
  cbn [map app]. f_equal. apply IH.
  - intros p' z' Hin. apply H. now right.
  - now injection Hlen.
Qed.

(** The left join of a price frame with one signal row per bar, when the
    timestamps of the bars are distinct. *)
Lemma merge_aligned (prows : list PriceRow.t) (sigs : list Z) :
  NoDup (map PriceRow.datetime prows) ->
  List.length prows = List.length sigs ->
  flat_map
    (merge_row (Strategy.signal_rows (map PriceRow.datetime prows) sigs))
    prows
  = aligned prows sigs.
Proof.
  intros Hn Hlen. apply flat_map_merge_rows; [|exact Hlen].
  intros p z Hin. rewrite signal_rows_combine, filter_map_comm.
  rewrite (filter_ext _ (fun x : PriceRow.t * Z =>
             (PriceRow.datetime (fst x) =? PriceRow.datetime (fst (p, z)))%Z)).
  - rewrite (filter_unique (fun x => PriceRow.datetime (fst x)) _ (p, z)).
    + reflexivity.
    + rewrite <- (map_map fst PriceRow.datetime).
      now rewrite map_fst_combine.
    + exact Hin.
  - intros [p' z']. reflexivity.
Qed.

Lemma aligned_nth (prows : list PriceRow.t) (sigs : list Z) (e : nat)
    (row : Row.t) :
  nth_error (aligned prows sigs) e = Some row ->
  exists p z,
    nth_error prows e = Some p /\ nth_error sigs e = Some z /\
    Row.signal row = z /\ Row.close row = PriceRow.close p /\
    Row.datetime row = PriceRow.datetime p.
Proof.
  revert sigs e. induction prows as [|p prows IH]; intros [|z sigs] [|e];
    try discriminate.
  - cbn. intro H. injection H as <-. exists p, z. repeat split.
  - cbn [aligned combine map nth_error]. apply IH.
Qed.

Lemma aligned_signal_bars (prows : list PriceRow.t) (sigs : list Z) :
  List.length prows = List.length sigs ->
  List.length (signal_bars (aligned prows sigs)) = List.length (nonzero sigs).
Proof.
  revert sigs. induction prows as [|p prows IH]; intros [|z sigs] H;
    try reflexivity; try discriminate.
  unfold aligned, signal_bars, nonzero. cbn [combine map filter].
  change (Row.signal (Row.mk p (Some (plain_signal (PriceRow.datetime p) z))))
    with z.
  injection H as H. specialize (IH sigs H).
  unfold aligned, signal_bars, nonzero in IH.
  destruct (negb (z =? 0)%Z); cbn [List.length]; now rewrite IH.
Qed.

(** The merged frame of a run on the signals of the strategy. *)
Lemma prepare_strategy (self : Backtester) (sf : Strategy.frame)
    (sig : signal_frame) (inds : list string) (data : data_frame) :
  df self = price_frame_of sf ->
  NoDup (map (fun r => PriceRow.datetime (Strategy.bar r)) (Strategy.rows sf)) ->
  Strategy.generate_signals sf = Ok (sig, inds) ->
  prepare self sig = Ok data ->
  d_rows data = aligned (map Strategy.bar (Strategy.rows sf)) (signal_values sig)
  /\ List.length (Strategy.rows sf) = List.length (signal_values sig)
  /\ plain_columns (s_columns sig) = true.
Proof.
  intros Hdf Hn Hg Hp.
  assert (Hsig : exists cells,
            List.length (Strategy.rows sf) = List.length cells /\
            sig = {| s_columns := [S_datetime; S_signal];
                     s_rows := Strategy.signal_rows
                                 (map (fun r => PriceRow.datetime (Strategy.bar r))
                                      (Strategy.rows sf)) cells |}).
  { revert Hg. unfold Strategy.generate_signals.
    destruct (negb (has_pcol P_datetime (Strategy.columns sf))); [discriminate|].
    destruct (Strategy.ema_column sf (Strategy.has_ema9 sf) Strategy.ema9 9)
      as [fast|e] eqn:Ef; [|discriminate].
    destruct (Strategy.ema_column sf (Strategy.has_ema21 sf) Strategy.ema21 21)
      as [slow|e] eqn:Es; [|discriminate].
    cbn [bind]. intro H. injection H as <- _.
    apply ema_column_length in Ef, Es.
    assert (Hlen : List.length fast = List.length slow) by congruence.
    eexists. split; [|reflexivity].
    rewrite (signal_cells_shift1 _ _ Hlen), signal_cells_from_length
      by exact Hlen.
    now symmetry. }
  destruct Hsig as (cells & Hlen & ->).
  assert (Hv : signal_values
                 {| s_columns := [S_datetime; S_signal];
                    s_rows := Strategy.signal_rows
                                (map (fun r => PriceRow.datetime (Strategy.bar r))
                                     (Strategy.rows sf)) cells |} = cells).
  { unfold signal_values. cbn [s_rows]. apply signal_rows_values.
    now rewrite length_map. }
  rewrite Hv. split; [|split; [exact Hlen|reflexivity]].
  revert Hp. unfold prepare. cbn [s_columns].
  destruct (negb (has_scol S_datetime [S_datetime; S_signal])); [discriminate|].
  destruct (negb (has_pcol P_datetime (p_columns (df self)))); [discriminate|].
  cbn [merge d_scols has_scol existsb signal_col_eqb orb s_columns].
  intro E. injection E as <-. cbn [d_rows s_rows]. rewrite Hdf.
  cbn [price_frame_of p_rows].
  rewrite <- (map_map Strategy.bar PriceRow.datetime).
  apply merge_aligned.
  - now rewrite map_map.
  - now rewrite length_map.
Qed.

(** X15.  The signals of the strategy through the simulator, on a frame
    whose bars have distinct timestamps: the ledger has one row per signal
    that is not zero; each row was opened on a bar where the strategy
    signalled, long on a buy and short on a sell, with size one, at that
    bar's close moved by the slippage; and it was closed by a later signal
    of the strategy or on the last bar, never by a stop or a target. *)
Theorem strategy_ledger (self : Backtester) (sf : Strategy.frame)
    (sig : signal_frame) (inds : list string) (ledger : list LedgerRow.t) :
  df self = price_frame_of sf ->
  NoDup (map (fun r => PriceRow.datetime (Strategy.bar r)) (Strategy.rows sf)) ->
  Strategy.generate_signals sf = Ok (sig, inds) ->
  run self (Some sig) = Ok ledger ->
  List.length ledger = List.length (nonzero (signal_values sig)) /\
  forall lr, In lr ledger ->
    let t := LedgerRow.trade lr in
    exists r z,
      nth_error (Strategy.rows sf) (Trade.entry_bar_index t) = Some r /\
      nth_error (signal_values sig) (Trade.entry_bar_index t) = Some z /\
      (z = 1%Z /\ Trade.direction t = long \/
       z = (-1)%Z /\ Trade.direction t = short) /\
      Trade.entry_time t = PriceRow.datetime (Strategy.bar r) /\
      Trade.entry_price t
      = PriceRow.close (Strategy.bar r)
        * (1 + dir_factor (Trade.direction t) * slippage self) /\
      Trade.size t = Some 1 /\
      (Trade.exit_reason t = Some "signal"%string \/
       Trade.exit_reason t = Some "eod"%string).
Proof.
  intros Hdf Hn Hg Hrun.
  destruct (frame_empty sig) eqn:Hempty.
  - (* the strategy frame has no row *)
    assert (Hl : ledger = []).
    { revert Hrun. unfold run, run_trades. rewrite Hempty. cbn [bind].
      intro E. now injection E as <-. }
    assert (Hrows : s_rows sig = []).
    { apply generate_signals_inv in Hg as (fast & slow & _ & _ & Hc & _ & _).
      unfold frame_empty in Hempty. rewrite Hc in Hempty.
      now destruct (s_rows sig). }
    subst ledger. split.
    + unfold signal_values. rewrite Hrows. reflexivity.
    + intros lr [].
  - destruct (prepare self sig) as [data|e] eqn:Hp.
    2:{ revert Hrun. unfold run, run_trades. rewrite Hempty, Hp. discriminate. }
    destruct (prepare_strategy _ _ _ _ _ Hdf Hn Hg Hp) as (Hrows & Hlen & Hplain).
    split.
    + apply run_inv in Hrun as [trades [Hrun ->]]. rewrite length_map.
      rewrite (run_trades_length _ _ _ _ Hempty Hp Hrun), Hrows.
      apply aligned_signal_bars. now rewrite length_map.
    + intros lr Hin t. subst t.
      apply run_inv in Hrun as [trades [Hrun ->]].
      apply in_map_iff in Hin as [t [<- Hin]].
      cbn [aggregate LedgerRow.trade].
      destruct (plain_trades self sig data trades t Hplain Hp Hrun Hin)
        as ((Hsize & _) & Hreason).
      destruct (ledger_trade_lived _ _ _ _ Hrun Hin)
        as (sig' & data' & e & j & t0 & u & p & tm & i & rs & E & Hp' & Hl & ->).
      injection E as <-. rewrite Hp in Hp'. injection Hp' as <-.
      destruct (lived_entry _ _ _ _ _ _ Hl)
        as (row & Hrow & _ & Hs & Hd & Het & Hpx & _).
      cbn [_close_trade Trade.set_exit Trade.entry_bar_index Trade.direction
           Trade.entry_price Trade.entry_time Trade.size Trade.exit_reason]
        in *.
      rewrite Hrows in Hrow.
      apply aligned_nth in Hrow as (pr & z & Hpr & Hz & Hsz & Hcl & Hdt).
      rewrite nth_error_map in Hpr.
      destruct (nth_error (Strategy.rows sf) (Trade.entry_bar_index u))
        as [r|] eqn:Hr; [|discriminate].
      cbn [option_map] in Hpr. injection Hpr as <-.
      exists r, z. split; [reflexivity|]. split; [exact Hz|].
      split.
      { assert (Hrange : z = (-1)%Z \/ z = 0%Z \/ z = 1%Z).
        { apply generate_signals_inv in Hg as (fast & slow & _ & _ & _ & Hv & _).
          destruct (signal_cells_from_shape fast slow None None) as [Hrg _].
          rewrite <- Hv in Hrg. rewrite Forall_forall in Hrg. apply Hrg.
          eapply nth_error_In, Hz. }
        rewrite Hd, Hsz. rewrite Hsz in Hs.
        destruct Hrange as [-> | [-> | ->]].
        - right. split; reflexivity.
        - now elim Hs.
        - left. split; reflexivity. }
      split; [now rewrite Het, Hdt|].
      split; [now rewrite Hpx, Hcl|].
      split; [exact Hsize|].
      destruct Hreason as [[_ H]|[H _]]; [left|right]; exact H.
Qed.

Lemma strategy_ledger_witness :
  Strategy.generate_signals wave_frame
  = Ok (wave_signals, ["ema9"; "ema21"]%string) /\
  run wave_bt (Some wave_signals) = Ok wave_ledger /\
  signal_values wave_signals = [0; 0; 1; 0; 0; 0; -1]%Z /\
  List.length wave_ledger = 2%nat /\
  List.length wave_ledger
  = List.length (nonzero (signal_values wave_signals)).
Proof.
  split; [vm_compute; reflexivity|]. split; [vm_compute; reflexivity|].
  split; [reflexivity|]. split; [reflexivity|].
  apply (strategy_ledger wave_bt wave_frame wave_signals
           ["ema9"; "ema21"]%string wave_ledger).
  - reflexivity.
  - cbn.
    repeat (constructor;
            [intro H; cbn in H;
             repeat (destruct H as [H|H]; [discriminate H|]); exact H|]).
    constructor.
  - vm_compute. reflexivity.
  - vm_compute. reflexivity.
Defined.

(** ** Indicators *)

Lemma ewm_alpha_range (period : Q) :
  1 <= period -> 0 <= 2 / (period + 1) /\ 2 / (period + 1) <= 1.
Proof.
  intro H. split.
  - apply Qle_shift_div_l; lra.
  - apply Qle_shift_div_r; lra.
Qed.

Lemma ewm_step_bounded (alpha lo hi prev x : Q) :
  0 <= alpha -> alpha <= 1 ->
  lo <= prev /\ prev <= hi -> lo <= x /\ x <= hi ->
  lo <= (1 - alpha) * prev + alpha * x /\
  (1 - alpha) * prev + alpha * x <= hi.
Proof.
  intros Ha0 Ha1 [Hp1 Hp2] [Hx1 Hx2].
  assert (H1 : 0 <= (1 - alpha) * (prev - lo))
    by (apply Qmult_le_0_compat; lra).
  assert (H2 : 0 <= alpha * (x - lo)) by (apply Qmult_le_0_compat; lra).
  assert (H3 : 0 <= (1 - alpha) * (hi - prev))
    by (apply Qmult_le_0_compat; lra).
  assert (H4 : 0 <= alpha * (hi - x)) by (apply Qmult_le_0_compat; lra).
  split; lra.
Qed.

Lemma ewm_from_nth_bounded (alpha lo hi : Q) (xs : list Q) (prev : Q)
    (i : nat) (y : Q) :
  0 <= alpha -> alpha <= 1 ->
  lo <= prev /\ prev <= hi ->
  nth_error (Strategy.ewm_from alpha prev xs) i = Some y ->
  bounded lo hi (firstn (S i) xs) ->
  lo <= y /\ y <= hi.
Proof.
  intros Ha0 Ha1. revert prev i.
  induction xs as [|x xs IH]; intros prev i Hp Hn Hb; [now destruct i|].
  cbn [firstn] in Hb. inversion Hb as [|? ? Hx Hb']; subst.
  pose proof (ewm_step_bounded alpha lo hi prev x Ha0 Ha1 Hp Hx) as Hy.
  cbn [Strategy.ewm_from] in Hn. destruct i as [|i].
  - cbn in Hn. injection Hn as <-. exact Hy.
  - cbn [nth_error] in Hn. exact (IH _ _ Hy Hn Hb').
Qed.

(** X16.  An exponential average stays within the range of the cells seen
    so far: cell [i] of the column added by [add_ema] lies between any two
    bounds of the cells 0 to [i] of the column it reads.  The added column
    is as long as the one read. *)
Theorem ema_within_range (period : Q) (col ys : list Q) (i : nat) (y lo hi : Q) :
  Indicators.add_ema period col = Some ys ->
  nth_error ys i = Some y ->
  bounded lo hi (firstn (S i) col) ->
  List.length ys = List.length col /\ lo <= y /\ y <= hi.
Proof.
  unfold Indicators.add_ema. destruct (Qleb 1 period) eqn:Hp; [|discriminate].
  intro E. injection E as <-. apply Qleb_le in Hp.
  destruct (ewm_alpha_range period Hp) as [Ha0 Ha1].
  intros Hn Hb. destruct col as [|x xs]; [now destruct i|].
  cbn [Strategy.ewm_mean]. split.
  - cbn [List.length]. now rewrite ewm_from_length.
  - cbn [firstn] in Hb. inversion Hb as [|? ? Hx Hb']; subst.
    destruct i as [|i].
    + cbn in Hn. injection Hn as <-. exact Hx.
    + cbn [Strategy.ewm_mean nth_error] in Hn.
      exact (ewm_from_nth_bounded _ lo hi xs x i y Ha0 Ha1 Hx Hn Hb').
Qed.

Lemma ema_within_range_witness :
  exists ys y,
    Indicators.add_ema 3 rsi_closes = Some ys /\
    nth_error ys 3 = Some y /\
    10 <= y /\ y <= 12.
Proof.
  destruct (Indicators.add_ema 3 rsi_closes) as [ys|] eqn:E;
    [|vm_compute in E; discriminate E].
  destruct (nth_error ys 3) as [y|] eqn:Hy.
  2:{ vm_compute in E. injection E as <-. discriminate Hy. }
  exists ys, y. split; [reflexivity|]. split; [exact Hy|].
  apply (ema_within_range 3 rsi_closes ys 3 y 10 12 E Hy).
  unfold bounded, rsi_closes. cbn [firstn].
  repeat (constructor; [split; apply Qle_bool_iff; reflexivity|]).
  constructor.
Defined.

Lemma sumQ_nonneg (l : list Q) :
  Forall (fun x => 0 <= x) l -> 0 <= Indicators.sumQ l.
Proof.
  induction 1 as [|x l Hx _ IH]; [apply Qle_refl|].
  change (0 <= x + Indicators.sumQ l). lra.
Qed.

Lemma sumQ_zero (l : list Q) :
  Forall (fun x => 0 <= x) l ->
  (Indicators.sumQ l == 0 <-> Forall (fun x => x == 0) l).
Proof.
  induction 1 as [|x l Hx Hl IH].
  - split; [constructor|reflexivity].
  - pose proof (sumQ_nonneg l Hl) as Hs.
    change (x + Indicators.sumQ l == 0 <-> Forall (fun x => x == 0) (x :: l)).
    split.
    + intro H. constructor; [lra|]. apply IH. lra.
    + intro H. inversion H as [|? ? H1 H2]; subst.
      apply IH in H2. lra.
Qed.

Lemma where_cell_gain (d : option Q) :
  0 <= Indicators.where_cell (fun d => Qltb 0 d) 0 d.
Proof.
  destruct d as [q|]; cbn; [|apply Qle_refl].
  destruct (Qltb 0 q) eqn:E; [|apply Qle_refl].
  apply Qltb_lt in E. lra.
Qed.

Lemma where_cell_loss (d : option Q) :
  0 <= - Indicators.where_cell (fun d => Qltb d 0) 0 d.
Proof.
  destruct d as [q|]; cbn; [|lra].
  destruct (Qltb q 0) eqn:E; [|lra].
  apply Qltb_lt in E. lra.
Qed.

Lemma gains_nonneg (col : list Q) :
  Forall (fun x => 0 <= x) (Indicators.gains col).
Proof.
  unfold Indicators.gains. apply Forall_map, Forall_forall.
  intros d _. apply where_cell_gain.
Qed.

Lemma losses_nonneg (col : list Q) :
  Forall (fun x => 0 <= x) (Indicators.losses col).
Proof.
  unfold Indicators.losses. apply Forall_map, Forall_forall.
  intros d _. apply where_cell_loss.
Qed.

Lemma Forall_firstn {A : Type} (P : A -> Prop) (n : nat) (l : list A) :
  Forall P l -> Forall P (firstn n l).
Proof.
  intro H. revert n. induction H as [|x l Hx _ IH]; intros [|n];
    cbn [firstn]; constructor; auto.
Qed.

Lemma Forall_skipn {A : Type} (P : A -> Prop) (n : nat) (l : list A) :
  Forall P l -> Forall P (skipn n l).
Proof.
  intro H. revert n. induction H as [|x l Hx Hl IH]; intros [|n];
    cbn [skipn]; auto.
Qed.

Lemma window_at_Forall {A : Type} (P : A -> Prop) (w i : nat) (l : list A) :
  Forall P l -> Forall P (Indicators.window_at w i l).
Proof. intro H. apply Forall_firstn, Forall_skipn, H. Qed.

Lemma window_mean_nonneg (w i : nat) (s : list Q) :
  Forall (fun x => 0 <= x) s ->
  0 <= Indicators.sumQ (Indicators.window_at w i s) / inject_Z (Z.of_nat w).
Proof.
  intro H.
  pose proof (sumQ_nonneg _ (window_at_Forall _ w i s H)) as Hs.
  destruct w as [|w].
  - unfold Qdiv. change (/ inject_Z (Z.of_nat 0)) with 0.
    rewrite Qmult_0_r. apply Qle_refl.
  - apply Qle_shift_div_l.
    + change 0 with (inject_Z 0). rewrite <- Zlt_Qlt. lia.
    + lra.
Qed.

Lemma window_mean_zero (w i : nat) (s : list Q) :
  (0 < w)%nat ->
  Forall (fun x => 0 <= x) s ->
  (Indicators.sumQ (Indicators.window_at w i s) / inject_Z (Z.of_nat w) == 0
   <-> Forall (fun x => x == 0) (Indicators.window_at w i s)).
Proof.
  intros Hw H.
  rewrite <- (sumQ_zero _ (window_at_Forall _ w i s H)).
  assert (Hpos : 0 < inject_Z (Z.of_nat w)).
  { change 0 with (inject_Z 0). rewrite <- Zlt_Qlt. lia. }
  split; intro E.
  - assert (E' : Indicators.sumQ (Indicators.window_at w i s)
                 == Indicators.sumQ (Indicators.window_at w i s)
                    / inject_Z (Z.of_nat w) * inject_Z (Z.of_nat w))
      by (field; lra).
    rewrite E' , E. ring.
  - rewrite E. field. lra.
Qed.

Lemma Qeq_bool_false (x y : Q) : ~ x == y -> Qeq_bool x y = false.
Proof.
  intro H. destruct (Qeq_bool x y) eqn:E; [|reflexivity].
  apply Qeq_bool_eq in E. contradiction.
Qed.

(** The value of the index from a mean gain and a mean loss. *)
Lemma rsi_cell_value (g l : Q) :
  0 <= g -> 0 < l ->
  exists q,
    rsi_cell (Some g) (Some l) = Fin q /\ 0 <= q /\ q < 100 /\
    (q == 0 <-> g == 0).
Proof.
  intros Hg Hl.
  unfold rsi_cell, Indicators.replace_zero, Indicators.ratio, Metrics.xdiv.
  assert (E1 : Qeq_bool l 0 = false).
  { apply Qeq_bool_false. lra. }
  rewrite E1, E1. cbn [Indicators.xadd_l Metrics.xmap Indicators.xdiv_l].
  assert (Hr : 0 <= g / l) by (apply Qle_shift_div_l; lra).
  unfold Metrics.xdiv.
  assert (E2 : Qeq_bool (1 + g / l) 0 = false).
  { apply Qeq_bool_false. lra. }
  rewrite E2. cbn [Indicators.xsub_l].
  exists (100 - 100 / (1 + g / l)). split; [reflexivity|].
  assert (H1 : 0 < 100 / (1 + g / l)) by (apply Qlt_shift_div_l; lra).
  assert (H2 : 100 / (1 + g / l) <= 100) by (apply Qle_shift_div_r; lra).
  split; [lra|]. split; [lra|].
  assert (E3 : 100 / (1 + g / l) * (1 + g / l) == 100) by (field; lra).
  assert (E4 : g / l * l == g) by (field; lra).
  set (r := g / l) in *. set (t := 100 / (1 + r)) in *.
  clearbody t. clearbody r.
  split; intro E.
  - assert (E5 : t == 100) by lra.
    rewrite E5 in E3.
    assert (E6 : r == 0) by lra.
    rewrite E6 in E4. lra.
  - assert (E6 : r == 0).
    { rewrite E in E4. apply Qmult_integral_l with (x := l); [lra|].
      rewrite Qmult_comm. exact E4. }
    rewrite E6 in E3. lra.
Qed.

Lemma rsi_cell_ok (g l : option Q) :
  match g with Some q => 0 <= q | None => True end ->
  match l with Some q => 0 <= q | None => True end ->
  rsi_ok (rsi_cell g l).
Proof.
  intros Hg Hl. destruct l as [l|].
  2:{ destruct g; exact I. }
  destruct g as [g|]; [|unfold rsi_cell; cbn;
                        destruct (Qeq_bool l 0); exact I].
  destruct (Qeq_bool l 0) eqn:E.
  - unfold rsi_cell. cbn. rewrite E. exact I.
  - apply Qeq_bool_neq in E.
    destruct (rsi_cell_value g l Hg) as (q & -> & H1 & H2 & _); [lra|].
    split; assumption.
Qed.

Lemma deltas_from_length (prev : Q) (xs : list Q) :
  List.length (Indicators.deltas_from prev xs) = List.length xs.
Proof.
  revert prev. induction xs as [|x xs IH]; intro prev; [reflexivity|].
  cbn [Indicators.deltas_from List.length]. now rewrite IH.
Qed.

Lemma diff_length (col : list Q) :
  List.length (Indicators.diff col) = List.length col.
Proof.
  destruct col as [|x xs]; [reflexivity|].
  cbn [Indicators.diff List.length]. now rewrite deltas_from_length.
Qed.

Lemma deltas_firstn (n : nat) (prev : Q) (xs : list Q) :
  Indicators.deltas_from prev (firstn n xs)
  = firstn n (Indicators.deltas_from prev xs).
Proof.
  revert prev xs. induction n as [|n IH]; intros prev [|x xs];
    try reflexivity.
  cbn [firstn Indicators.deltas_from]. now rewrite IH.
Qed.

Lemma deltas_skipn (a : nat) (prev : Q) (xs : list Q) (x : Q)
    (rest : list Q) :
  skipn a xs = x :: rest ->
  skipn (S a) (Indicators.deltas_from prev xs)
  = Indicators.deltas_from x rest.
Proof.
  revert prev xs. induction a as [|a IH]; intros prev [|y ys] H;
    try discriminate.
  - cbn in H. injection H as -> ->. reflexivity.
  - cbn [skipn] in H. cbn [Indicators.deltas_from].
    change (skipn (S (S a)) (Some (y - prev) :: Indicators.deltas_from y ys))
      with (skipn (S a) (Indicators.deltas_from y ys)).
    now apply IH.
Qed.

Lemma diff_skipn (a : nat) (col : list Q) (x : Q) (rest : list Q) :
  skipn a col = x :: rest ->
  skipn (S a) (Indicators.diff col) = Indicators.deltas_from x rest.
Proof.
  destruct col as [|x0 xs]; [now destruct a|].
  destruct a as [|a]; intro H.
  - cbn in H. injection H as -> ->. reflexivity.
  - cbn [skipn] in H. cbn [Indicators.diff].
    change (skipn (S (S a)) (None :: Indicators.deltas_from x0 xs))
      with (skipn (S a) (Indicators.deltas_from x0 xs)).
    now apply deltas_skipn.
Qed.

Lemma skipn_cons_ex {A : Type} (a : nat) (l : list A) :
  (a < List.length l)%nat -> exists x rest, skipn a l = x :: rest.
Proof.
  revert l. induction a as [|a IH]; intros [|x l] H; cbn in H; try lia.
  - exists x, l. reflexivity.
  - cbn [skipn]. apply IH. lia.
Qed.

Section WindowOfDeltas.

Variable f : option Q -> Q.
Variable R : Q -> Q -> Prop.
Hypothesis f_none : f None == 0.
Hypothesis f_some : forall a b, f (Some (b - a)) == 0 <-> R a b.

Lemma deltas_zero (xs : list Q) (prev : Q) :
  Forall (fun q => q == 0) (map f (Indicators.deltas_from prev xs))
  <-> chain R (prev :: xs).
Proof.
  revert prev. induction xs as [|x xs IH]; intro prev.
  - cbn. split; [auto|constructor].
  - cbn [Indicators.deltas_from map].
    change (chain R (prev :: x :: xs)) with (R prev x /\ chain R (x :: xs)).
    rewrite <- IH, <- f_some. split.
    + intro H. inversion H; subst. auto.
    + intros [H1 H2]. constructor; assumption.
Qed.

(** The cells of a window are all zero when the closes that it spans are
    in the order [R]. *)
Lemma window_zero (p i : nat) (col : list Q) :
  (0 < p)%nat -> (p <= S i)%nat -> (i < List.length col)%nat ->
  Forall (fun q => q == 0)
         (Indicators.window_at p i (map f (Indicators.diff col)))
  <-> chain R (slice col (i - p) (S i)).
Proof.
  intros Hp Hpi Hi.
  destruct (skipn_cons_ex (i - p) col) as (x & rest & Hs); [lia|].
  unfold slice. rewrite Hs.
  replace (S i - (i - p))%nat with (S (i - (i - p))) by lia. cbn [firstn].
  rewrite <- deltas_zero, deltas_firstn, <- (diff_skipn _ _ _ _ Hs).
  unfold Indicators.window_at.
  destruct (Nat.eq_dec p (S i)) as [->|Hne].
  - replace (S i - S i)%nat with 0%nat by lia.
    replace (i - S i)%nat with 0%nat by lia.
    destruct col as [|x0 xs]; [cbn in Hi; lia|].
    rewrite Nat.sub_0_r.
    cbn [skipn Indicators.diff map firstn]. rewrite firstn_map. split.
    + intro H. inversion H; subst. assumption.
    + intro H. constructor; assumption.
  - replace (S i - p)%nat with (S (i - p)) by lia.
    replace (i - (i - p))%nat with p by lia.
    rewrite skipn_map, firstn_map. reflexivity.
Qed.

End WindowOfDeltas.

Lemma loss_zero (a b : Q) :
  - Indicators.where_cell (fun d => Qltb d 0) 0 (Some (b - a)) == 0
  <-> a <= b.
Proof.
  cbn [Indicators.where_cell]. destruct (Qltb (b - a) 0) eqn:E.
  - apply Qltb_lt in E. split; intro H; lra.
  - apply Qltb_ge in E. split; intro H; lra.
Qed.

Lemma gain_zero (a b : Q) :
  Indicators.where_cell (fun d => Qltb 0 d) 0 (Some (b - a)) == 0
  <-> Qge a b.
Proof.
  unfold Qge. cbn [Indicators.where_cell]. destruct (Qltb 0 (b - a)) eqn:E.
  - apply Qltb_lt in E. split; intro H; lra.
  - apply Qltb_ge in E. split; intro H; lra.
Qed.

Lemma rolling_mean_nth (w : nat) (s : list Q) (i : nat) :
  (i < List.length s)%nat ->
  nth_error (Indicators.rolling_mean w s) i = Some (Indicators.mean_at w i s).
Proof.
  intro H. unfold Indicators.rolling_mean.
  rewrite nth_error_map, nth_error_seq.
  apply Nat.ltb_lt in H. rewrite H. reflexivity.
Qed.

Lemma zip_with_nth {A B C : Type} (f : A -> B -> C) (a : list A)
    (b : list B) (i : nat) (x : A) (y : B) :
  nth_error a i = Some x -> nth_error b i = Some y ->
  nth_error (Metrics.zip_with f a b) i = Some (f x y).
Proof.
  revert b i. induction a as [|a0 a IH]; intros [|b0 b] [|i] Ha Hb;
    try discriminate.
  - cbn in *. congruence.
  - cbn [Metrics.zip_with nth_error] in *. now apply IH.
Qed.

Lemma zip_with_length {A B C : Type} (f : A -> B -> C) (a : list A)
    (b : list B) :
  List.length a = List.length b ->
  List.length (Metrics.zip_with f a b) = List.length a.
Proof.
  revert b. induction a as [|a0 a IH]; intros [|b0 b] H;
    try reflexivity; try discriminate.
  cbn [Metrics.zip_with List.length]. f_equal. apply IH. now injection H.
Qed.

Lemma gains_length (col : list Q) :
  List.length (Indicators.gains col) = List.length col.
Proof. unfold Indicators.gains. now rewrite length_map, diff_length. Qed.

Lemma losses_length (col : list Q) :
  List.length (Indicators.losses col) = List.length col.
Proof. unfold Indicators.losses. now rewrite length_map, diff_length. Qed.

Lemma add_rsi_length (period : nat) (col : list Q) :
  List.length (Indicators.add_rsi period col) = List.length col.
Proof.
  unfold Indicators.add_rsi, Indicators.rolling_mean.
  rewrite length_map, zip_with_length;
    rewrite !length_map, !length_seq, ?gains_length, ?losses_length;
    reflexivity.
Qed.

(** One cell of the index. *)
Lemma add_rsi_nth (period : nat) (col : list Q) (i : nat) :
  (i < List.length col)%nat ->
  nth_error (Indicators.add_rsi period col) i
  = Some (rsi_cell (Indicators.mean_at period i (Indicators.gains col))
                   (Indicators.mean_at period i (Indicators.losses col))).
Proof.
  intro H. unfold Indicators.add_rsi.
  erewrite map_nth_error; [reflexivity|].
  apply zip_with_nth.
  - apply rolling_mean_nth. now rewrite gains_length.
  - erewrite map_nth_error; [reflexivity|].
    apply rolling_mean_nth. now rewrite losses_length.
Qed.

Lemma mean_at_nonneg (w i : nat) (s : list Q) :
  Forall (fun x => 0 <= x) s ->
  match Indicators.mean_at w i s with
  | Some q => 0 <= q
  | None => True
  end.
Proof.
  intro H. unfold Indicators.mean_at.
  destruct ((0 <? w)%nat && (w <=? S i)%nat); [|exact I].
  now apply window_mean_nonneg.
Qed.

(** X17.  Every cell of the column added by [add_rsi] is [NaN] or a number
    from 0 to 100, 100 excluded; the column is as long as the one read. *)
Theorem rsi_range (period : nat) (col : list Q) :
  (0 < period)%nat ->
  List.length (Indicators.add_rsi period col) = List.length col /\
  Forall rsi_ok (Indicators.add_rsi period col).
Proof.
  intros _. split; [apply add_rsi_length|].
  apply Forall_forall. intros x Hx.
  apply In_nth_error in Hx as [i Hi].
  assert (Hlt : (i < List.length col)%nat).
  { rewrite <- (add_rsi_length period). apply nth_error_Some. congruence. }
  rewrite (add_rsi_nth period col i Hlt) in Hi. injection Hi as <-.
  apply rsi_cell_ok; apply mean_at_nonneg.
  - apply gains_nonneg.
  - apply losses_nonneg.
Qed.

Lemma rsi_range_witness :
  nth_error (Indicators.add_rsi 3 rsi_closes) 4 = Some (Fin (300 # 6)) /\
  Forall rsi_ok (Indicators.add_rsi 3 rsi_closes).
Proof.
  split; [reflexivity|]. apply (rsi_range 3 rsi_closes). lia.
Defined.

(** X18.  Where the index is undefined and where it is zero.  With at least
    [period] cells up to cell [i], the index at [i] looks at the closes
    [i - period] to [i] (from the first close when there is none that far
    back).  It is [NaN] exactly when these closes never fall, and also
    while there are fewer than [period] cells; otherwise it is a number,
    which is 0 exactly when these closes never rise. *)
Theorem rsi_undefined (period : nat) (col : list Q) (i : nat) :
  (0 < period)%nat ->
  (i < List.length col)%nat ->
  exists x,
    nth_error (Indicators.add_rsi period col) i = Some x /\
    (x = NaN <->
     (S i < period)%nat \/ chain Qle (slice col (i - period) (S i))) /\
    (forall q, x = Fin q ->
       (q == 0 <-> chain Qge (slice col (i - period) (S i)))).
Proof.
  intros Hp Hi. eexists. split; [apply (add_rsi_nth period col i Hi)|].
  unfold Indicators.mean_at.
  apply Nat.ltb_lt in Hp as Hp'. rewrite Hp'. cbn [andb].
  destruct (period <=? S i)%nat eqn:Hw.
  2:{ apply Nat.leb_gt in Hw. split.
      - split; [intros _; left; exact Hw|reflexivity].
      - intros q Hq. discriminate Hq. }
  apply Nat.leb_le in Hw.
  pose proof (window_mean_nonneg period i _ (gains_nonneg col)) as Hg.
  pose proof (window_mean_nonneg period i _ (losses_nonneg col)) as Hl.
  pose proof (window_mean_zero period i _ Hp (gains_nonneg col)) as Hgz.
  pose proof (window_mean_zero period i _ Hp (losses_nonneg col)) as Hlz.
  pose proof (window_zero
                (fun d => - Indicators.where_cell (fun d => Qltb d 0) 0 d)
                Qle (Qeq_refl 0 : - 0 == 0) loss_zero
                period i col Hp Hw Hi) as Hlc.
  pose proof (window_zero (Indicators.where_cell (fun d => Qltb 0 d) 0)
                Qge (Qeq_refl 0) gain_zero
                period i col Hp Hw Hi) as Hgc.
  fold (Indicators.losses col) in Hlc. fold (Indicators.gains col) in Hgc.
  set (g := Indicators.sumQ (Indicators.window_at period i (Indicators.gains col))
            / inject_Z (Z.of_nat period)) in *.
  set (l := Indicators.sumQ (Indicators.window_at period i (Indicators.losses col))
            / inject_Z (Z.of_nat period)) in *.
  destruct (Qeq_bool l 0) eqn:El.
  - (* no fall in the window *)
    apply Qeq_bool_eq in El as El'.
    assert (Hnan : rsi_cell (Some g) (Some l) = NaN).
    { unfold rsi_cell. cbn. now rewrite El. }
    rewrite Hnan. split.
    + split; [intros _; right; apply Hlc, Hlz, El'|reflexivity].
    + intros q Hq. discriminate Hq.
  - apply Qeq_bool_neq in El.
    destruct (rsi_cell_value g l Hg) as (q & -> & _ & _ & Hz); [lra|].
    split.
    + split; [discriminate|]. intros [H|H]; [lia|].
      exfalso. apply El, Hlz, Hlc, H.
    + intros q' Hq. injection Hq as <-. rewrite Hz, Hgz. exact Hgc.
Qed.

Lemma rsi_undefined_witness :
  exists x,
    nth_error (Indicators.add_rsi 3 rsi_closes) 6 = Some x /\
    chain Qle (slice rsi_closes 3 7) /\
    x = NaN.
Proof.
  destruct (rsi_undefined 3 rsi_closes 6) as (x & Hx & Hnan & _).
  - lia.
  - cbn. lia.
  - assert (Hc : chain Qle (slice rsi_closes 3 7)).
    { cbn. repeat split; apply Qle_bool_iff; reflexivity. }
    exists x. split; [exact Hx|]. split; [exact Hc|].
    apply Hnan. right. exact Hc.
Defined.

(** ** The month loop of the loader *)

Lemma month_of_index_index (y m : Z) :
  (1 <= m <= 12)%Z -> month_of_index (month_index y m) = (y, m).
Proof.
  intro H. unfold month_of_index, month_index. f_equal.
  - symmetry. apply Z.div_unique with (r := (m - 1)%Z); lia.
  - assert (E : ((12 * y + (m - 1)) mod 12 = m - 1)%Z).
    { symmetry. apply Z.mod_unique with (q := y); lia. }
    rewrite E. lia.
Qed.

Lemma month_range_S (s : Z) (n : nat) :
  month_range s (S n) = month_of_index s :: month_range (s + 1) n.
Proof.
  unfold month_range. cbn [seq map]. rewrite Z.add_0_r. f_equal.
  rewrite <- seq_shift, map_map. apply map_ext. intro i.
  f_equal. lia.
Qed.

Lemma collect_cons {frame : Type} (download : Z -> Z -> option frame)
    (y m : Z) (months : list (Z * Z)) (dfs : list frame) :
  match download y m with
  | Some d => dfs ++ [d]
  | None => dfs
  end ++ collect download months
  = dfs ++ collect download ((y, m) :: months).
Proof.
  unfold collect. cbn [flat_map]. destruct (download y m).
  - now rewrite <- app_assoc.
  - reflexivity.
Qed.

Section FetchProofs.

Variable frame : Type.
Variable download : Z -> Z -> option frame.
Variables end_year end_month : Z.
Hypothesis end_month_valid : (1 <= end_month <= 12)%Z.

Lemma loop_condition (y m : Z) :
  (1 <= m <= 12)%Z ->
  (y <? end_year)%Z || ((y =? end_year)%Z && (m <=? end_month)%Z)
  = (month_index y m <=? month_index end_year end_month)%Z.
Proof.
  intro H. unfold month_index.
  destruct (y <? end_year)%Z eqn:E1; cbn [orb].
  - apply Z.ltb_lt in E1. symmetry. apply Z.leb_le. lia.
  - apply Z.ltb_ge in E1. destruct (y =? end_year)%Z eqn:E2; cbn [andb].
    + apply Z.eqb_eq in E2. subst y.
      destruct (m <=? end_month)%Z eqn:E3.
      * apply Z.leb_le in E3. symmetry. apply Z.leb_le. lia.
      * apply Z.leb_gt in E3. symmetry. apply Z.leb_gt. lia.
    + apply Z.eqb_neq in E2. symmetry. apply Z.leb_gt. lia.
Qed.

Lemma break_condition (y m : Z) :
  (1 <= m <= 12)%Z ->
  (y =? end_year)%Z && (m =? end_month)%Z
  = (month_index y m =? month_index end_year end_month)%Z.
Proof.
  intro H. unfold month_index.
  destruct (y =? end_year)%Z eqn:E1; cbn [andb].
  - apply Z.eqb_eq in E1. subst y. destruct (m =? end_month)%Z eqn:E2.
    + apply Z.eqb_eq in E2. symmetry. apply Z.eqb_eq. lia.
    + apply Z.eqb_neq in E2. symmetry. apply Z.eqb_neq. lia.
  - apply Z.eqb_neq in E1. symmetry. apply Z.eqb_neq. lia.
Qed.

Lemma next_month (y m : Z) :
  (1 <= m <= 12)%Z ->
  let '(y', m') :=
    if (12 <? m + 1)%Z then ((y + 1)%Z, 1%Z) else (y, (m + 1)%Z) in
  (1 <= m' <= 12)%Z /\ month_index y' m' = (month_index y m + 1)%Z.
Proof.
  intro H. unfold month_index. destruct (12 <? m + 1)%Z eqn:E.
  - apply Z.ltb_lt in E. lia.
  - apply Z.ltb_ge in E. lia.
Qed.

(** The rounds of the loop while the end month is ahead. *)
Lemma month_loop_before (n fuel : nat) (y m : Z) (dfs : list frame) :
  (1 <= m <= 12)%Z ->
  (month_index end_year end_month - month_index y m = Z.of_nat (S n))%Z ->
  (S n < fuel)%nat ->
  Loader.month_loop frame download fuel end_year end_month y m dfs
  = Some (dfs ++ collect download (month_range (month_index y m) (S n))).
Proof.
  revert fuel y m dfs. induction n as [|n IH]; intros fuel y m dfs Hm He Hf;
    (destruct fuel as [|fuel]; [lia|]); cbn [Loader.month_loop];
    rewrite (loop_condition y m Hm);
    (replace (month_index y m <=? month_index end_year end_month)%Z
       with true by (symmetry; apply Z.leb_le; lia));
    pose proof (next_month y m Hm) as Hn;
    destruct (if (12 <? m + 1)%Z then ((y + 1)%Z, 1%Z) else (y, (m + 1)%Z))
      as [y' m'];
    destruct Hn as [Hm' Hi]; rewrite (break_condition y' m' Hm'), Hi.
  - replace (month_index y m + 1 =? month_index end_year end_month)%Z
      with true by (symmetry; apply Z.eqb_eq; lia).
    rewrite month_range_S. cbn [month_range seq map].
    rewrite month_of_index_index by exact Hm.
    rewrite <- collect_cons.
    unfold collect. cbn [flat_map]. now rewrite app_nil_r.
  - replace (month_index y m + 1 =? month_index end_year end_month)%Z
      with false by (symmetry; apply Z.eqb_neq; lia).
    rewrite IH; [|exact Hm'|lia|lia].
    rewrite Hi, (month_range_S (month_index y m) (S n)).
    rewrite month_of_index_index by exact Hm.
    f_equal. apply collect_cons.
Qed.

Lemma month_loop_result (fuel : nat) (y m : Z) :
  (1 <= m <= 12)%Z ->
  (months_asked y m end_year end_month < fuel)%nat ->
  Loader.month_loop frame download fuel end_year end_month y m []
  = Some (collect download
            (month_range (month_index y m)
               (months_asked y m end_year end_month))).
Proof.
  intros Hm. unfold months_asked.
  destruct (month_index y m <? month_index end_year end_month)%Z eqn:E1.
  - apply Z.ltb_lt in E1. intro Hf.
    destruct (Z.to_nat (month_index end_year end_month - month_index y m))
      as [|n] eqn:En; [lia|].
    rewrite (month_loop_before n fuel y m [] Hm); [reflexivity|lia|exact Hf].
  - apply Z.ltb_ge in E1.
    destruct (month_index y m =? month_index end_year end_month)%Z eqn:E2.
    + apply Z.eqb_eq in E2. intro Hf.
      destruct fuel as [|[|fuel]]; [lia|lia|].
      cbn [Loader.month_loop]. rewrite (loop_condition y m Hm).
      replace (month_index y m <=? month_index end_year end_month)%Z
        with true by (symmetry; apply Z.leb_le; lia).
      pose proof (next_month y m Hm) as Hn.
      destruct (if (12 <? m + 1)%Z then ((y + 1)%Z, 1%Z) else (y, (m + 1)%Z))
        as [y' m'].
      destruct Hn as [Hm' Hi].
      rewrite (break_condition y' m' Hm'), (loop_condition y' m' Hm'), Hi.
      replace (month_index y m + 1 =? month_index end_year end_month)%Z
        with false by (symmetry; apply Z.eqb_neq; lia).
      replace (month_index y m + 1 <=? month_index end_year end_month)%Z
        with false by (symmetry; apply Z.leb_gt; lia).
      cbn [month_range seq map]. rewrite Z.add_0_r.
      rewrite month_of_index_index by exact Hm.
      unfold collect. cbn [flat_map app].
      destruct (download y m); [|reflexivity]. now rewrite app_nil_r.
    + apply Z.eqb_neq in E2. intro Hf.
      destruct fuel as [|fuel]; [lia|].
      cbn [Loader.month_loop]. rewrite (loop_condition y m Hm).
      replace (month_index y m <=? month_index end_year end_month)%Z
        with false by (symmetry; apply Z.leb_gt; lia).
      reflexivity.
Qed.

End FetchProofs.

(** X19.  The months that [fetch_binance_http] downloads.  From a start
    month before the end month, the loop asks for every month from the start
    month up to the month before the end month, in order, and never for the
    end month; when both are the same month it asks for that month; from a
    start month after the end month it asks for nothing.  It stops after
    that many rounds, keeps the frames of the months that exist, and raises
    [ValueError] when there is none. *)
Theorem fetch_months (frame : Type) (download : Z -> Z -> option frame)
    (fuel : nat) (start_year start_month end_year end_month : Z) :
  (1 <= start_month <= 12)%Z ->
  (1 <= end_month <= 12)%Z ->
  (months_asked start_year start_month end_year end_month < fuel)%nat ->
  Loader.fetch_frames frame download fuel start_year start_month
    end_year end_month
  = match collect download
            (month_range (month_index start_year start_month)
               (months_asked start_year start_month end_year end_month)) with
    | [] => Loader.ValueError frame
    | dfs => Loader.Frames frame dfs
    end.
Proof.
  intros Hs He Hf. unfold Loader.fetch_frames.
  rewrite (month_loop_result frame download end_year end_month He fuel
             start_year start_month Hs Hf).
  destruct (collect download _); reflexivity.
Qed.

Lemma fetch_months_witness :
  months_asked 2023 11 2024 2 = 3%nat /\
  Loader.fetch_frames (Z * Z) sample_download 4 2023 11 2024 2
  = Loader.Frames (Z * Z) [(2023, 11); (2024, 1)]%Z.
Proof.
  split; [reflexivity|].
  rewrite (fetch_months (Z * Z) sample_download 4 2023 11 2024 2).
  - reflexivity.
  - lia.
  - lia.
  - cbn. lia.
Defined.

(** ** Excursions and the realised profit *)

Lemma candle_close_nonneg (row : Row.t) : candle_ok row -> 0 <= Row.close row.
Proof. intros (H0 & H1 & _). lra. Qed.

Lemma update_on_marks (row : Row.t) (u : Trade.t) (sz : Q) :
  candle_ok row -> Trade.size u = Some sz -> 0 <= sz ->
  marked (update_on row u) sz (Row.close row)
  <= Trade.max_favor (update_on row u)
  /\ Trade.max_adverse (update_on row u)
     <= marked (update_on row u) sz (Row.close row).
Proof.
  intros (_ & Hlc & Hch) Hsize Hsz.
  assert (G : forall mf ma ep,
            ((Row.close row - ep) * sz * 1
             <= py_max mf ((Row.high row - ep) * sz) /\
             py_min ma ((Row.low row - ep) * sz)
             <= (Row.close row - ep) * sz * 1) /\
            ((Row.close row - ep) * sz * -1
             <= py_max mf ((ep - Row.low row) * sz) /\
             py_min ma ((ep - Row.high row) * sz)
             <= (Row.close row - ep) * sz * -1)).
  { intros mf ma ep.
    assert (H1 : (Row.close row - ep) * sz <= (Row.high row - ep) * sz)
      by (apply Qmult_le_compat_r; lra).
    assert (H2 : (Row.low row - ep) * sz <= (Row.close row - ep) * sz)
      by (apply Qmult_le_compat_r; lra).
    assert (H3 : (ep - Row.close row) * sz <= (ep - Row.low row) * sz)
      by (apply Qmult_le_compat_r; lra).
    assert (H4 : (ep - Row.high row) * sz <= (ep - Row.close row) * sz)
      by (apply Qmult_le_compat_r; lra).
    pose proof (py_max_r mf ((Row.high row - ep) * sz)).
    pose proof (py_min_r ma ((Row.low row - ep) * sz)).
    pose proof (py_max_r mf ((ep - Row.low row) * sz)).
    pose proof (py_min_r ma ((ep - Row.high row) * sz)).
    repeat split; lra. }
  unfold marked, update_on, update_trade, trail_stop, update_excursion.
  destruct u as [i d et eb ep sz' sp tk td rk mf ma v xt xb xp pn co cc xr].
  cbn in Hsize. subst sz'. destruct (G mf ma ep) as [Gl Gs].
  destruct td as [dist|], d, sp as [s|]; cbn; assumption.
Qed.

Lemma open_row_marks (self : Backtester) (data : data_frame) (tid k : nat)
    (row : Row.t) (nt : Trade.t) (sz : Q) :
  open_row self data tid k row = Some nt ->
  0 <= Row.close row -> 0 <= slippage self -> 0 <= sz ->
  marked nt sz (Row.close row) <= Trade.max_favor nt /\
  (slippage self == 0 ->
   Trade.max_adverse nt <= marked nt sz (Row.close row)).
Proof.
  intros Hopen Hc Hs Hsz.
  destruct (open_row_fields _ _ _ _ _ _ Hopen)
    as (_ & _ & _ & _ & Hpx & _ & Hmf & Hma & _).
  unfold marked. rewrite Hpx, Hmf, Hma.
  assert (H0 : 0 <= Row.close row * slippage self * sz).
  { apply Qmult_le_0_compat; [apply Qmult_le_0_compat|]; assumption. }
  assert (E : (Row.close row
               - Row.close row
                 * (1 + dir_factor (Trade.direction nt) * slippage self))
              * sz * dir_factor (Trade.direction nt)
              == - (Row.close row * slippage self * sz)).
  { destruct (Trade.direction nt); cbn [dir_factor]; ring. }
  rewrite E. split; [lra|]. intro Hz. rewrite Hz. ring_simplify. lra.
Qed.

(** Closing at a price [c] at which the trade is marked inside its
    excursions. *)
Lemma close_at_mark (self : Backtester) (v : Trade.t) (c : Q) (dt : Z)
    (k : nat) (r : string) (sz co : Q) :
  0 <= slippage self -> slippage self <= 1 ->
  0 <= commission_perc self ->
  0 <= c -> Trade.size v = Some sz -> 0 <= sz ->
  Trade.commission_open v = Some co -> 0 <= co ->
  marked v sz c <= Trade.max_favor v ->
  (slippage self == 0 -> Trade.max_adverse v <= marked v sz c) ->
  let x := _close_trade self v c dt k r in
  exists pnl cc,
    Trade.pnl x = Some pnl /\
    Trade.commission_open x = Some co /\
    Trade.commission_close x = Some cc /\
    pnl <= Trade.max_favor x /\
    (slippage self == 0 -> Trade.max_adverse x <= pnl + co + cc).
Proof.
  intros Hs0 Hs1 Hperc Hc Hsize Hsz Hcom Hco Hup Hlow x. subst x.
  unfold _close_trade.
  cbn [Trade.set_exit Trade.pnl Trade.max_favor Trade.max_adverse
       Trade.commission_open Trade.commission_close].
  rewrite Hsize, Hcom. cbn [fmul fsub].
  eexists. eexists. split; [reflexivity|]. split; [reflexivity|].
  split; [reflexivity|].
  unfold marked in Hup, Hlow.
  set (d := dir_factor (Trade.direction v)) in *.
  assert (Hd : d == 1 \/ d == -1).
  { subst d. destruct (Trade.direction v); cbn; [left|right]; reflexivity. }
  assert (Hpx : 0 <= c * (1 - d * slippage self)).
  { apply Qmult_le_0_compat; [exact Hc|].
    destruct Hd as [E|E]; rewrite E; lra. }
  assert (Hcc : 0 <= commission_perc self * (c * (1 - d * slippage self))
                     * sz).
  { apply Qmult_le_0_compat; [apply Qmult_le_0_compat|]; assumption. }
  assert (Hslip : 0 <= c * slippage self * sz).
  { apply Qmult_le_0_compat; [apply Qmult_le_0_compat|]; assumption. }
  assert (E : (c * (1 - d * slippage self) - Trade.entry_price v)
              * sz * d
              == (c - Trade.entry_price v) * sz * d
                 - c * slippage self * sz).
  { destruct Hd as [E|E]; rewrite E; ring. }
  split.
  - rewrite E. lra.
  - intro Hz. specialize (Hlow Hz). rewrite E.
    assert (E0 : c * slippage self * sz == 0)
      by (rewrite Hz; ring).
    lra.
Qed.

Lemma open_commission_nonneg (self : Backtester) (data : data_frame)
    (k : nat) (u : Trade.t) (sz : Q) :
  (forall row, In row (d_rows data) -> candle_ok row) ->
  0 <= slippage self -> slippage self <= 1 ->
  0 <= commission_perc self -> Trade.size u = Some sz -> 0 <= sz ->
  open_before self data k u ->
  exists co, Trade.commission_open u = Some co /\ 0 <= co.
Proof.
  intros Hrows Hs0 Hs1 Hperc Hsize Hsz Hopen.
  destruct (open_before_lived _ _ _ _ Hopen) as (e & t0 & Hl).
  destruct (lived_entry _ _ _ _ _ _ Hl)
    as (row & Hrow & _ & _ & _ & _ & Hpx & Hco).
  apply nth_error_In, Hrows in Hrow. destruct Hrow as (H0 & Hlc & _).
  rewrite Hco, Hpx, Hsize. cbn [fmul]. eexists. split; [reflexivity|].
  apply Qmult_le_0_compat; [apply Qmult_le_0_compat|]; try assumption.
  apply Qmult_le_0_compat; [lra|].
  destruct (Trade.direction u); cbn [dir_factor]; lra.
Qed.

(** X20.  On well-formed candles ([0 <= low <= close <= high]), with a
    slippage between 0 and 1 and a commission rate that is not negative, a
    trade of size at least 0 that was closed at a bar's close (by a signal
    or at the end of the data) never nets more than its [max_favor].
    Without slippage its profit before commissions is not below its
    [max_adverse] either. *)
Theorem close_exit_within_excursions (self : Backtester)
    (signals : signal_frame) (data : data_frame) (ledger : list LedgerRow.t)
    (lr : LedgerRow.t) (size : Q) :
  0 <= slippage self -> slippage self <= 1 ->
  0 <= commission_perc self ->
  prepare self signals = Ok data ->
  (forall row, In row (d_rows data) -> candle_ok row) ->
  run self (Some signals) = Ok ledger ->
  In lr ledger ->
  let t := LedgerRow.trade lr in
  Trade.size t = Some size -> 0 <= size ->
  Trade.exit_reason t = Some "signal"%string \/
  Trade.exit_reason t = Some "eod"%string ->
  exists pnl commission_open commission_close,
    Trade.pnl t = Some pnl /\
    Trade.commission_open t = Some commission_open /\
    Trade.commission_close t = Some commission_close /\
    pnl <= Trade.max_favor t /\
    (slippage self == 0 ->
     Trade.max_adverse t <= pnl + commission_open + commission_close).
Proof.
  intros Hs0 Hs1 Hperc Hp Hrows Hrun Hin t. subst t.
  apply run_inv in Hrun as [trades [Hrun ->]].
  apply in_map_iff in Hin as [t [<- Hin]].
  cbn [aggregate LedgerRow.trade].
  destruct (run_trades_closed _ _ _ Hrun) as [->|(sig & data' & E & Hp' & H)];
    [destruct Hin|].
  injection E as <-. rewrite Hp in Hp'. injection Hp' as <-.
  destruct (H t Hin) as [Hcl|Hcl].
  - destruct Hcl as [k row u p r Hopen Hrow Hexit|k row u Hopen Hrow Hexit Hm Hs].
    + intros _ _ Hreason. exfalso.
      apply exit_decision_some in Hexit as [(-> & _)|(-> & _)];
        cbn in Hreason; destruct Hreason as [E|E]; discriminate E.
    + intros Hsize Hsz _.
      change (Trade.size (_close_trade self (update_on row u) (Row.close row)
                            (Row.datetime row) k "signal"))
        with (Trade.size (update_on row u)) in Hsize.
      destruct (update_trade_entry (Row.high row) (Row.low row)
                  (Row.close row) u)
        as (_ & _ & _ & _ & _ & Esz & _ & _ & _ & Eco & _).
      fold (update_on row u) in Esz, Eco.
      assert (Hsize' : Trade.size u = Some size) by (rewrite <- Esz; exact Hsize).
      pose proof (nth_error_In _ _ Hrow) as Hok. apply Hrows in Hok.
      destruct (update_on_marks row u size Hok Hsize' Hsz) as [Hup Hlow].
      destruct (open_commission_nonneg _ _ _ _ _ Hrows Hs0 Hs1 Hperc Hsize'
                  Hsz Hopen) as (co & Hco & Hco0).
      destruct (close_at_mark self (update_on row u) (Row.close row)
                  (Row.datetime row) k "signal" size co)
        as (pnl & cc & H1 & H2 & H3 & H4 & H5); try assumption.
      * apply candle_close_nonneg, Hok.
      * now rewrite Eco.
      * intros _. exact Hlow.
      * exists pnl, co, cc. auto.
  - destruct Hcl as [u last_row Hopen Hlast]. intros Hsize Hsz _.
    change (Trade.size (_close_trade self u (Row.close last_row)
                          (Row.datetime last_row)
                          (List.length (d_rows data) - 1) "eod"))
      with (Trade.size u) in Hsize.
    pose proof (nth_error_In _ _ Hlast) as Hok. apply Hrows in Hok.
    destruct (open_commission_nonneg _ _ _ _ _ Hrows Hs0 Hs1 Hperc Hsize
                Hsz Hopen) as (co & Hco & Hco0).
    assert (Hmarks : marked u size (Row.close last_row) <= Trade.max_favor u /\
                     (slippage self == 0 ->
                      Trade.max_adverse u
                      <= marked u size (Row.close last_row))).
    { remember (List.length (d_rows data)) as n eqn:En.
      destruct Hopen as [k row tid nt Hrow Hnew|k row u' Hopen' Hrow Hexit].
      - replace (S k - 1)%nat with k in Hlast by lia.
        rewrite Hrow in Hlast. injection Hlast as ->.
        apply (open_row_marks _ _ _ _ _ _ _ Hnew); try assumption.
        apply candle_close_nonneg, Hok.
      - replace (S k - 1)%nat with k in Hlast by lia.
        rewrite Hrow in Hlast. injection Hlast as ->.
        destruct (update_trade_entry (Row.high last_row) (Row.low last_row)
                    (Row.close last_row) u')
          as (_ & _ & _ & _ & _ & Esz & _).
        fold (update_on last_row u') in Esz.
        assert (Hsize' : Trade.size u' = Some size)
          by (rewrite <- Esz; exact Hsize).
        destruct (update_on_marks last_row u' size Hok Hsize' Hsz)
          as [Hup Hlow].
        split; [exact Hup|intros _; exact Hlow]. }
    destruct Hmarks as [Hup Hlow].
    destruct (close_at_mark self u (Row.close last_row)
                (Row.datetime last_row) (List.length (d_rows data) - 1)
                "eod" size co)
      as (pnl & cc & H1 & H2 & H3 & H4 & H5); try assumption.
    + apply candle_close_nonneg, Hok.
    + exists pnl, co, cc. auto.
Qed.

Lemma close_exit_within_excursions_witness :
  exists lr pnl,
    In lr scenario_D_ledger /\
    Trade.size (LedgerRow.trade lr) = Some 1 /\
    Trade.exit_reason (LedgerRow.trade lr) = Some "signal"%string /\
    Trade.pnl (LedgerRow.trade lr) = Some pnl /\
    pnl <= Trade.max_favor (LedgerRow.trade lr).
Proof.
  destruct (close_exit_within_excursions scenario_D_bt scenario_D_signals
              scenario_D_data scenario_D_ledger
              (hd (aggregate no_trade) scenario_D_ledger) 1)
    as (pnl & co & cc & Hpnl & _ & _ & Hle & _).
  - apply Qle_bool_iff. reflexivity.
  - apply Qle_bool_iff. reflexivity.
  - apply Qle_bool_iff. reflexivity.
  - vm_compute. reflexivity.
  - intros row Hin. cbn in Hin.
    repeat (destruct Hin as [<-|Hin];
            [unfold candle_ok; cbn; repeat split;
             apply Qle_bool_iff; reflexivity|]).
    destruct Hin.
  - vm_compute. reflexivity.
  - left. reflexivity.
  - reflexivity.
  - apply Qle_bool_iff. reflexivity.
  - left. reflexivity.
  - eexists. exists pnl. split; [left; reflexivity|].
    split; [reflexivity|]. split; [reflexivity|].
    split; [exact Hpnl|exact Hle].
Defined.

(** ** The parametrised strategy in a trend *)

Lemma ewm_mean_length (span : Q) (xs : list Q) :
  List.length (Strategy.ewm_mean span xs) = List.length xs.
Proof.
  destruct xs as [|x xs]; [reflexivity|].
  cbn [Strategy.ewm_mean List.length]. now rewrite ewm_from_length.
Qed.

Lemma span_alpha (f s : positive) :
  (f < s)%positive ->
  let a := 2 / (inject_Z (Zpos f) + 1) in
  let b := 2 / (inject_Z (Zpos s) + 1) in
  0 <= b /\ b < a /\ a <= 1.
Proof.
  intros H a b. subst a b.
  assert (Hf : 1 <= inject_Z (Zpos f)).
  { change 1 with (inject_Z 1). rewrite <- Zle_Qle. lia. }
  assert (Hfs : inject_Z (Zpos f) < inject_Z (Zpos s)).
  { rewrite <- Zlt_Qlt. lia. }
  split; [apply Qle_shift_div_l; lra|].
  split; [|apply Qle_shift_div_r; lra].
  apply Qlt_shift_div_r; [lra|].
  assert (E : 2 / (inject_Z (Zpos f) + 1) * (inject_Z (Zpos s) + 1)
              == 2 * (inject_Z (Zpos s) + 1) / (inject_Z (Zpos f) + 1))
    by (field; lra).
  rewrite E. apply Qlt_shift_div_l; lra.
Qed.

Lemma ewm_step_up (a b pf ps x : Q) :
  0 <= b -> b < a -> a <= 1 -> ps <= pf -> pf <= x ->
  let f := (1 - a) * pf + a * x in
  let s := (1 - b) * ps + b * x in
  s <= f /\ f <= x /\ (ps < pf -> s < f).
Proof.
  intros Hb Hba Ha H1 H2 f s. subst f s.
  assert (P1 : 0 <= (1 - a) * (pf - ps)) by (apply Qmult_le_0_compat; lra).
  assert (P2 : 0 <= (a - b) * (x - ps)) by (apply Qmult_le_0_compat; lra).
  assert (P3 : 0 <= (1 - a) * (x - pf)) by (apply Qmult_le_0_compat; lra).
  split; [lra|]. split; [lra|]. intro H3.
  assert (P4 : 0 < (a - b) * (x - ps)) by (apply Qmult_lt_0_compat; lra).
  lra.
Qed.

Lemma ewm_step_down (a b pf ps x : Q) :
  0 <= b -> b < a -> a <= 1 -> pf <= ps -> x <= pf ->
  let f := (1 - a) * pf + a * x in
  let s := (1 - b) * ps + b * x in
  f <= s /\ x <= f /\ (pf < ps -> f < s).
Proof.
  intros Hb Hba Ha H1 H2 f s. subst f s.
  assert (P1 : 0 <= (1 - a) * (ps - pf)) by (apply Qmult_le_0_compat; lra).
  assert (P2 : 0 <= (a - b) * (ps - x)) by (apply Qmult_le_0_compat; lra).
  assert (P3 : 0 <= (1 - a) * (pf - x)) by (apply Qmult_le_0_compat; lra).
  split; [lra|]. split; [lra|]. intro H3.
  assert (P4 : 0 < (a - b) * (ps - x)) by (apply Qmult_lt_0_compat; lra).
  lra.
Qed.

Lemma rising_cells_span (a b : Q) (xs : list Q) (pf ps px : Q) :
  0 <= b -> b < a -> a <= 1 ->
  ps <= pf -> pf <= px -> chain Qle (px :: xs) ->
  let cells :=
    signal_cells_from (Some pf) (Some ps)
      (map Some (Strategy.ewm_from a pf xs))
      (map Some (Strategy.ewm_from b ps xs)) in
  Forall (fun z => z <> (-1)%Z) cells /\
  (count_occ Z.eq_dec cells 1%Z <= 1)%nat /\
  (ps < pf -> count_occ Z.eq_dec cells 1%Z = 0%nat).
Proof.
  intros Hb Hba Ha. revert pf ps px.
  induction xs as [|x xs IH]; intros pf ps px H1 H2 Hc.
  - cbn. split; [constructor|]. split; [lia|reflexivity].
  - cbn [Strategy.ewm_from map signal_cells_from].
    assert (Hpx : px <= x /\ chain Qle (x :: xs)) by exact Hc.
    destruct Hpx as [Hpx Hc'].
    destruct (ewm_step_up a b pf ps x Hb Hba Ha H1 (Qle_trans _ _ _ H2 Hpx))
      as (Hsf & Hfx & Hstrict).
    set (f := (1 - a) * pf + a * x) in *.
    set (s := (1 - b) * ps + b * x) in *.
    destruct (IH f s x Hsf Hfx Hc') as (IHn & IHc & IHs).
    unfold Strategy.signal_cell at 1 2 3.
    cbn [Strategy.cell_le Strategy.cell_gt].
    assert (Hnosell : Qltb f s = false) by now apply Qltb_ge.
    rewrite Hnosell, andb_false_r.
    destruct (Qleb pf ps && Qltb s f) eqn:Hbuy.
    + apply andb_prop in Hbuy as [Hle Hlt].
      apply Qleb_le in Hle. apply Qltb_lt in Hlt.
      split; [constructor; [discriminate|exact IHn]|].
      rewrite count_occ_cons_eq by reflexivity. rewrite (IHs Hlt).
      split; [lia|]. intro Hp. exfalso. lra.
    + split; [constructor; [discriminate|exact IHn]|].
      rewrite count_occ_cons_neq by discriminate.
      split; [exact IHc|]. intro Hp. apply IHs, Hstrict, Hp.
Qed.

Lemma falling_cells_span (a b : Q) (xs : list Q) (pf ps px : Q) :
  0 <= b -> b < a -> a <= 1 ->
  pf <= ps -> px <= pf -> chain Qge (px :: xs) ->
  let cells :=
    signal_cells_from (Some pf) (Some ps)
      (map Some (Strategy.ewm_from a pf xs))
      (map Some (Strategy.ewm_from b ps xs)) in
  Forall (fun z => z <> 1%Z) cells /\
  (count_occ Z.eq_dec cells (-1)%Z <= 1)%nat /\
  (pf < ps -> count_occ Z.eq_dec cells (-1)%Z = 0%nat).
Proof.
  intros Hb Hba Ha. revert pf ps px.
  induction xs as [|x xs IH]; intros pf ps px H1 H2 Hc.
  - cbn. split; [constructor|]. split; [lia|reflexivity].
  - cbn [Strategy.ewm_from map signal_cells_from].
    assert (Hpx : x <= px /\ chain Qge (x :: xs)) by exact Hc.
    destruct Hpx as [Hpx Hc'].
    destruct (ewm_step_down a b pf ps x Hb Hba Ha H1 (Qle_trans _ _ _ Hpx H2))
      as (Hfs & Hxf & Hstrict).
    set (f := (1 - a) * pf + a * x) in *.
    set (s := (1 - b) * ps + b * x) in *.
    destruct (IH f s x Hfs Hxf Hc') as (IHn & IHc & IHs).
    unfold Strategy.signal_cell at 1 2 3.
    cbn [Strategy.cell_le Strategy.cell_gt].
    assert (Hnobuy : Qltb s f = false) by now apply Qltb_ge.
    rewrite Hnobuy, andb_false_r.
    destruct (Qleb ps pf && Qltb f s) eqn:Hsell.
    + apply andb_prop in Hsell as [Hle Hlt].
      apply Qleb_le in Hle. apply Qltb_lt in Hlt.
      split; [constructor; [discriminate|exact IHn]|].
      rewrite count_occ_cons_eq by reflexivity. rewrite (IHs Hlt).
      split; [lia|]. intro Hp. exfalso. lra.
    + split; [constructor; [discriminate|exact IHn]|].
      rewrite count_occ_cons_neq by discriminate.
      split; [exact IHc|]. intro Hp. apply IHs, Hstrict, Hp.
Qed.

(** X21.  The parametrised strategy in a trend, for a fast period below the
    slow one.  On closes that never fall it never sells and buys at most
    once; on closes that never rise it never buys and sells at most
    once. *)
Theorem ema_param_trend (df : Strategy.frame) (fast_period slow_period : positive)
    (sig : signal_frame) :
  (fast_period < slow_period)%positive ->
  Report.generate_signals_ema_param df fast_period slow_period = Ok sig ->
  let closes := map (fun r => PriceRow.close (Strategy.bar r)) (Strategy.rows df) in
  (chain Qle closes ->
   Forall (fun z => z <> (-1)%Z) (signal_values sig) /\
   (count_occ Z.eq_dec (signal_values sig) 1%Z <= 1)%nat) /\
  (chain Qge closes ->
   Forall (fun z => z <> 1%Z) (signal_values sig) /\
   (count_occ Z.eq_dec (signal_values sig) (-1)%Z <= 1)%nat).
Proof.
  intros Hlt H closes.
  destruct (span_alpha fast_period slow_period Hlt) as (Hb & Hba & Ha).
  revert H. unfold Report.generate_signals_ema_param.
  destruct (negb (has_pcol P_datetime (Strategy.columns df))); [discriminate|].
  destruct (negb (has_pcol P_close (Strategy.columns df))); [discriminate|].
  intro E. injection E as <-. fold closes.
  set (sg := Build_signal_frame _ _).
  assert (Hcl : List.length closes = List.length (Strategy.rows df))
    by (subst closes; apply length_map).
  assert (Hlen : List.length
                   (map Some (Strategy.ewm_mean
                                (inject_Z (Zpos fast_period)) closes))
                 = List.length
                     (map Some (Strategy.ewm_mean
                                  (inject_Z (Zpos slow_period)) closes)))
    by (rewrite !length_map, !ewm_mean_length; reflexivity).
  assert (Hv : signal_values sg
               = signal_cells_from None None
                   (map Some (Strategy.ewm_mean
                                (inject_Z (Zpos fast_period)) closes))
                   (map Some (Strategy.ewm_mean
                                (inject_Z (Zpos slow_period)) closes))).
  { subst sg. rewrite (signal_cells_shift1 _ _ Hlen).
    unfold signal_values. cbn [s_rows]. apply signal_rows_values.
    rewrite signal_cells_from_length by exact Hlen.
    transitivity (List.length (Strategy.rows df)); [apply length_map|].
    rewrite length_map, ewm_mean_length. symmetry. exact Hcl. }
  rewrite Hv. clear Hv.
  destruct closes as [|x0 xs].
  - cbn. split; intros _; (split; [constructor|lia]).
  - cbn [Strategy.ewm_mean map signal_cells_from]. split; intro Hc.
    + destruct (rising_cells_span _ _ xs x0 x0 x0 Hb Hba Ha
                  (Qle_refl _) (Qle_refl _) Hc) as (Hn & Hcount & _).
      split.
      * constructor; [discriminate|exact Hn].
      * rewrite count_occ_cons_neq by discriminate. exact Hcount.
    + destruct (falling_cells_span _ _ xs x0 x0 x0 Hb Hba Ha
                  (Qle_refl _) (Qle_refl _) Hc) as (Hn & Hcount & _).
      split.
      * constructor; [discriminate|exact Hn].
      * rewrite count_occ_cons_neq by discriminate. exact Hcount.
Qed.

Lemma ema_param_trend_witness :
  Report.generate_signals_ema_param falling_frame 5 15 = Ok falling_signals /\
  signal_values falling_signals = [0; -1; 0; 0; 0; 0]%Z /\
  Forall (fun z => z <> 1%Z) (signal_values falling_signals).
Proof.
  split; [vm_compute; reflexivity|]. split; [reflexivity|].
  destruct (ema_param_trend falling_frame 5 15 falling_signals) as [_ Hdown].
  - reflexivity.
  - vm_compute. reflexivity.
  - apply Hdown. cbn. unfold Qge. repeat split; apply Qle_bool_iff; reflexivity.
Defined.

(** ** Trade identifiers *)

Lemma numbered_same (data : data_frame) (t t' : Trade.t) :
  Trade.id t' = Trade.id t ->
  Trade.entry_bar_index t' = Trade.entry_bar_index t ->
  numbered_trade data t -> numbered_trade data t'.
Proof. unfold numbered_trade. intros -> ->. auto. Qed.

Lemma numbered_update (data : data_frame) (h l c : Q) (t : Trade.t) :
  numbered_trade data t -> numbered_trade data (update_trade h l c t).
Proof.
  apply numbered_same; apply (update_trade_entry h l c t).
Qed.

Lemma numbered_close (self : Backtester) (data : data_frame) (t : Trade.t)
    (p : Q) (tm : Z) (i : nat) (r : string) :
  numbered_trade data t -> numbered_trade data (_close_trade self t p tm i r).
Proof. apply numbered_same; reflexivity. Qed.

Lemma signal_bars_app (l1 l2 : list Row.t) :
  signal_bars (l1 ++ l2) = signal_bars l1 ++ signal_bars l2.
Proof. apply filter_app. Qed.

Lemma signal_bars_one (row : Row.t) :
  List.length (signal_bars [row])
  = if (Row.signal row =? 0)%Z then 0%nat else 1%nat.
Proof.
  unfold signal_bars. cbn [filter].
  destruct (Row.signal row =? 0)%Z; reflexivity.
Qed.

Lemma skipn_cons_nth {A : Type} (k : nat) (l : list A) (x : A)
    (rest : list A) :
  skipn k l = x :: rest -> nth_error l k = Some x /\ skipn (S k) l = rest.
Proof.
  revert l. induction k as [|k IH]; intros [|a l] H; try discriminate.
  - cbn in H. injection H as -> ->. split; reflexivity.
  - cbn [skipn] in H. apply IH in H. exact H.
Qed.

Lemma append_new_numbered (self : Backtester) (data : data_frame) (k : nat)
    (row : Row.t) (st : state) (ots cls : list Trade.t) :
  nth_error (d_rows data) k = Some row ->
  trade_id st = List.length (signal_bars (firstn k (d_rows data))) ->
  Row.signal row <> 0%Z ->
  Forall (numbered_trade data) (ots ++ cls) ->
  numbered data (S k)
    (append_new (open_row self data (trade_id st) k row) ots cls (trade_id st)).
Proof.
  intros Hrow Hid Hs Hall.
  destruct (open_row_some self data (trade_id st) k row Hs) as [nt Hnt].
  rewrite Hnt. cbn [append_new]. split.
  - cbn [trade_id]. rewrite (firstn_snoc _ _ _ Hrow), signal_bars_app.
    rewrite length_app, Hid, signal_bars_one.
    apply Z.eqb_neq in Hs. rewrite Hs. lia.
  - cbn [open_trades closed_trades].
    apply Forall_app in Hall as [Ho Hc].
    apply Forall_app. split; [apply Forall_app; split|]; try assumption.
    constructor; [|constructor].
    unfold numbered_trade.
    rewrite (open_row_id _ _ _ _ _ _ Hnt).
    destruct (open_row_fields _ _ _ _ _ _ Hnt) as (_ & _ & -> & _).
    exact Hid.
Qed.

Lemma bar_step_numbered (self : Backtester) (data : data_frame) (k : nat)
    (row : Row.t) (st st' : state) :
  nth_error (d_rows data) k = Some row ->
  numbered data k st ->
  bar_step self data k row st = Ok st' ->
  numbered data (S k) st'.
Proof.
  intros Hrow [Hid Hall] Hstep.
  apply bar_step_cases in Hstep. cbv zeta in Hstep.
  destruct Hstep as [_ Hstep].
  apply Forall_app in Hall as [Ho Hc].
  rewrite Forall_forall in Ho.
  assert (Hkept : Forall (numbered_trade data)
                    (kept (Row.high row) (Row.low row) (Row.close row)
                       (open_trades st))).
  { apply Forall_forall. intros t' Hin.
    apply kept_elim in Hin as [t [Hin [-> _]]].
    apply numbered_update, Ho, Hin. }
  assert (Hcl : Forall (numbered_trade data)
                  (closed_trades st
                     ++ exited self (Row.datetime row) (Row.high row)
                          (Row.low row) (Row.close row) k (open_trades st))).
  { apply Forall_app. split; [exact Hc|].
    apply Forall_forall. intros x Hin.
    apply exited_elim in Hin as [t [p [r [Hin [_ ->]]]]].
    apply numbered_close, numbered_update, Ho, Hin. }
  destruct Hstep as [[Hm [Hs [_ ->]]]|[[Hs [_ ->]]|[Hs ->]]].
  - apply append_new_numbered; try assumption. cbn [app].
    apply Forall_app. split; [exact Hcl|].
    apply Forall_forall. intros x Hin.
    apply in_map_iff in Hin as [t' [<- Hin]].
    rewrite Forall_forall in Hkept. apply numbered_close, Hkept, Hin.
  - apply append_new_numbered; try assumption.
    apply Forall_app. split; assumption.
  - split.
    + cbn [trade_id]. rewrite (firstn_snoc _ _ _ Hrow), signal_bars_app.
      rewrite length_app, Hid, signal_bars_one.
      apply Z.eqb_eq in Hs. rewrite Hs. lia.
    + cbn [open_trades closed_trades]. apply Forall_app. split; assumption.
Qed.

Lemma bar_loop_numbered (self : Backtester) (data : data_frame)
    (rows : list Row.t) (k : nat) (st st' : state) :
  skipn k (d_rows data) = rows ->
  numbered data k st ->
  bar_loop self data k rows st = Ok st' ->
  numbered data (k + List.length rows) st'.
Proof.
  revert k st. induction rows as [|row rest IH]; intros k st Hsk Hn Hloop.
  - cbn in Hloop. injection Hloop as <-. now rewrite Nat.add_0_r.
  - cbn [bar_loop] in Hloop.
    destruct (bar_step self data k row st) as [st1|e] eqn:Hstep;
      [|discriminate].
    cbn [bind] in Hloop.
    apply skipn_cons_nth in Hsk as [Hrow Hsk'].
    cbn [List.length]. rewrite Nat.add_succ_r.
    apply (IH (S k) st1 Hsk' (bar_step_numbered _ _ _ _ _ _ Hrow Hn Hstep) Hloop).
Qed.

Lemma signal_count_mono (rows : list Row.t) (a b : nat) :
  (a <= b)%nat ->
  (List.length (signal_bars (firstn a rows))
   <= List.length (signal_bars (firstn b rows)))%nat.
Proof.
  revert a b. induction rows as [|r rows IH]; intros a b H.
  - now rewrite !firstn_nil.
  - destruct a as [|a]; [cbn; lia|]. destruct b as [|b]; [lia|].
    cbn [firstn]. unfold signal_bars in *. cbn [filter].
    specialize (IH a b ltac:(lia)).
    destruct (negb (Row.signal r =? 0)%Z); cbn [List.length]; lia.
Qed.

(** The trades of a run are numbered. *)
Lemma run_trades_numbered (self : Backtester) (signals : signal_frame)
    (data : data_frame) (trades : list Trade.t) (t : Trade.t) :
  prepare self signals = Ok data ->
  run_trades self (Some signals) = Ok trades ->
  In t trades -> numbered_trade data t.
Proof.
  intros Hp Hrun Hin.
  destruct (frame_empty signals) eqn:Hempty.
  { unfold run_trades in Hrun. rewrite Hempty in Hrun.
    injection Hrun as <-. destruct Hin. }
  destruct (run_trades_inv _ _ _ Hempty Hrun) as (data' & st & Hp' & Hloop & ->).
  rewrite Hp in Hp'. injection Hp' as <-.
  assert (Hn : numbered data (0 + List.length (d_rows data)) st).
  { apply (bar_loop_numbered self data (d_rows data) 0 initial_state);
      [reflexivity| |exact Hloop].
    split; [reflexivity|constructor]. }
  destruct Hn as [_ Hall]. apply Forall_app in Hall as [Ho Hc].
  rewrite Forall_forall in Ho, Hc.
  unfold close_eod in Hin. destruct (open_trades st) as [|o os] eqn:Eo.
  - apply Hc, Hin.
  - destruct (last (map Some (d_rows data)) None) as [last_row|].
    + apply in_app_or in Hin as [Hin|Hin]; [apply Hc, Hin|].
      apply in_map_iff in Hin as [u [<- Hin]].
      apply numbered_close, Ho, Hin.
    + apply Hc, Hin.
Qed.

(** X22.  Trade identifiers count the signals.  The [id] of a ledger row is
    the number of bars with a signal before the bar on which the trade was
    opened; so of two rows the one with the smaller [id] is the one that
    was opened on the earlier bar. *)
Theorem ids_follow_entries (self : Backtester) (signals : signal_frame)
    (data : data_frame) (ledger : list LedgerRow.t) (x y : LedgerRow.t) :
  prepare self signals = Ok data ->
  run self (Some signals) = Ok ledger ->
  In x ledger -> In y ledger ->
  let tx := LedgerRow.trade x in
  let ty := LedgerRow.trade y in
  numbered_trade data tx /\
  ((Trade.id tx < Trade.id ty)%nat
   <-> (Trade.entry_bar_index tx < Trade.entry_bar_index ty)%nat).
Proof.
  intros Hp Hrun Hx Hy tx ty. subst tx ty.
  apply run_inv in Hrun as [trades [Hrun ->]].
  apply in_map_iff in Hx as [tx [<- Hx]].
  apply in_map_iff in Hy as [ty [<- Hy]].
  cbn [aggregate LedgerRow.trade].
  pose proof (run_trades_numbered _ _ _ _ _ Hp Hrun Hx) as Nx.
  pose proof (run_trades_numbered _ _ _ _ _ Hp Hrun Hy) as Ny.
  split; [exact Nx|].
  unfold numbered_trade in Nx, Ny. rewrite Nx, Ny.
  assert (Hstep : forall t, In t trades ->
            (List.length (signal_bars (firstn (Trade.entry_bar_index t)
                                         (d_rows data)))
             < List.length (signal_bars (firstn (S (Trade.entry_bar_index t))
                                           (d_rows data))))%nat).
  { intros t Hin.
    destruct (ledger_trade_lived _ _ _ _ Hrun Hin)
      as (sig & data' & e & j & t0 & u & p & tm & i & r & E & Hp' & Hl & ->).
    injection E as <-. rewrite Hp in Hp'. injection Hp' as <-.
    destruct (lived_entry _ _ _ _ _ _ Hl) as (row & Hrow & _ & Hs & _).
    cbn [_close_trade Trade.set_exit Trade.entry_bar_index].
    rewrite (firstn_snoc _ _ _ Hrow), signal_bars_app, length_app.
    rewrite signal_bars_one.
    apply Z.eqb_neq in Hs. rewrite Hs. lia. }
  split; intro H.
  - destruct (Nat.lt_ge_cases (Trade.entry_bar_index tx)
                (Trade.entry_bar_index ty)) as [Hlt|Hge]; [exact Hlt|].
    pose proof (signal_count_mono (d_rows data) _ _ Hge). lia.
  - pose proof (Hstep tx Hx).
    pose proof (signal_count_mono (d_rows data)
                  (S (Trade.entry_bar_index tx)) (Trade.entry_bar_index ty) H).
    lia.
Qed.

Lemma ids_follow_entries_witness :
  exists x y,
    In x scenario_D_ledger /\ In y scenario_D_ledger /\
    Trade.id (LedgerRow.trade x) = 0%nat /\
    Trade.id (LedgerRow.trade y) = 1%nat /\
    (Trade.entry_bar_index (LedgerRow.trade x)
     < Trade.entry_bar_index (LedgerRow.trade y))%nat.
Proof.
  destruct (ids_follow_entries scenario_D_bt scenario_D_signals
              scenario_D_data scenario_D_ledger
              (nth 0 scenario_D_ledger (aggregate no_trade))
              (nth 1 scenario_D_ledger (aggregate no_trade)))
    as [_ Hiff].
  - vm_compute. reflexivity.
  - vm_compute. reflexivity.
  - left. reflexivity.
  - right. left. reflexivity.
  - eexists. eexists. split; [left; reflexivity|].
    split; [right; left; reflexivity|].
    split; [reflexivity|]. split; [reflexivity|].
    apply Hiff. cbn. lia.
Defined.

(** ** Oscillators *)

Lemma ewm_from_closed (P : Q -> Prop) (alpha : Q) (xs : list Q) (prev : Q) :
  (forall x y, P x -> P y -> P ((1 - alpha) * x + alpha * y)) ->
  P prev -> Forall P xs -> Forall P (Strategy.ewm_from alpha prev xs).
Proof.
  intros Hconv. revert prev. induction xs as [|x xs IH]; intros prev Hp Hx.
  - constructor.
  - inversion Hx as [|? ? Hx0 Hx']; subst. cbn [Strategy.ewm_from].
    constructor; [now apply Hconv|]. apply IH; [now apply Hconv|exact Hx'].
Qed.

Lemma convex_nonneg (alpha x y : Q) :
  0 <= alpha -> alpha <= 1 -> 0 <= x -> 0 <= y ->
  0 <= (1 - alpha) * x + alpha * y.
Proof.
  intros Ha0 Ha1 Hx Hy.
  assert (H1 : 0 <= (1 - alpha) * x) by (apply Qmult_le_0_compat; lra).
  assert (H2 : 0 <= alpha * y) by (apply Qmult_le_0_compat; lra).
  lra.
Qed.

Lemma convex_nonpos (alpha x y : Q) :
  0 <= alpha -> alpha <= 1 -> x <= 0 -> y <= 0 ->
  (1 - alpha) * x + alpha * y <= 0.
Proof.
  intros Ha0 Ha1 Hx Hy.
  assert (H1 : 0 <= (1 - alpha) * - x) by (apply Qmult_le_0_compat; lra).
  assert (H2 : 0 <= alpha * - y) by (apply Qmult_le_0_compat; lra).
  lra.
Qed.

Lemma ewm_from_gap_up (a b : Q) (xs : list Q) (pf ps px : Q) :
  0 <= b -> b < a -> a <= 1 ->
  ps <= pf -> pf <= px -> chain Qle (px :: xs) ->
  Forall (fun d => 0 <= d)
         (Metrics.zip_with Qminus (Strategy.ewm_from a pf xs)
            (Strategy.ewm_from b ps xs)).
Proof.
  intros Hb Hba Ha. revert pf ps px.
  induction xs as [|x xs IH]; intros pf ps px H1 H2 Hc; [constructor|].
  assert (Hpx : px <= x /\ chain Qle (x :: xs)) by exact Hc.
  destruct Hpx as [Hpx Hc'].
  destruct (ewm_step_up a b pf ps x Hb Hba Ha H1 (Qle_trans _ _ _ H2 Hpx))
    as (Hsf & Hfx & _).
  cbn [Strategy.ewm_from Metrics.zip_with]. constructor.
  - unfold Qminus. lra.
  - exact (IH _ _ x Hsf Hfx Hc').
Qed.

Lemma ewm_from_gap_down (a b : Q) (xs : list Q) (pf ps px : Q) :
  0 <= b -> b < a -> a <= 1 ->
  pf <= ps -> px <= pf -> chain Qge (px :: xs) ->
  Forall (fun d => d <= 0)
         (Metrics.zip_with Qminus (Strategy.ewm_from a pf xs)
            (Strategy.ewm_from b ps xs)).
Proof.
  intros Hb Hba Ha. revert pf ps px.
  induction xs as [|x xs IH]; intros pf ps px H1 H2 Hc; [constructor|].
  assert (Hpx : x <= px /\ chain Qge (x :: xs)) by exact Hc.
  destruct Hpx as [Hpx Hc'].
  destruct (ewm_step_down a b pf ps x Hb Hba Ha H1 (Qle_trans _ _ _ Hpx H2))
    as (Hfs & Hxf & _).
  cbn [Strategy.ewm_from Metrics.zip_with]. constructor.
  - unfold Qminus. lra.
  - exact (IH _ _ x Hfs Hxf Hc').
Qed.

(** X23.  The sign of the MACD in a trend, for a fast period below the slow
    one: on closes that never fall no cell of [macd] and of [macd_signal] is
    negative, and on closes that never rise none is positive.  The [macd]
    column is as long as the one read. *)
Theorem macd_trend (fast slow signal : positive) (col : list Q) :
  (fast < slow)%positive ->
  let m := Oscillators.add_macd fast slow signal col in
  List.length (Oscillators.macd m) = List.length col /\
  (chain Qle col ->
   Forall (fun d => 0 <= d) (Oscillators.macd m) /\
   Forall (fun d => 0 <= d) (Oscillators.macd_signal m)) /\
  (chain Qge col ->
   Forall (fun d => d <= 0) (Oscillators.macd m) /\
   Forall (fun d => d <= 0) (Oscillators.macd_signal m)).
Proof.
  intros Hlt m. subst m.
  destruct (span_alpha fast slow Hlt) as (Hb & Hba & Ha).
  assert (Hsig : 1 <= inject_Z (Zpos signal)).
  { change 1 with (inject_Z 1). rewrite <- Zle_Qle. lia. }
  destruct (ewm_alpha_range _ Hsig) as [Hs0 Hs1].
  unfold Oscillators.add_macd.
  cbn [Oscillators.macd Oscillators.macd_signal].
  split.
  - rewrite zip_with_length; rewrite !ewm_mean_length; reflexivity.
  - destruct col as [|x0 xs].
    + cbn. split; intros _; split; constructor.
    + cbn [Strategy.ewm_mean Metrics.zip_with]. split; intro Hc.
      * assert (Hm : Forall (fun d => 0 <= d)
                       ((x0 - x0)
                        :: Metrics.zip_with Qminus
                             (Strategy.ewm_from
                                (2 / (inject_Z (Zpos fast) + 1)) x0 xs)
                             (Strategy.ewm_from
                                (2 / (inject_Z (Zpos slow) + 1)) x0 xs))).
        { constructor; [lra|].
          exact (ewm_from_gap_up _ _ xs x0 x0 x0 Hb Hba Ha (Qle_refl _)
                   (Qle_refl _) Hc). }
        split; [exact Hm|].
        inversion Hm as [|? ? H0 Hrest]; subst.
        constructor; [exact H0|].
        apply (ewm_from_closed (fun d => 0 <= d)); [|exact H0|exact Hrest].
        intros x y. now apply convex_nonneg.
      * assert (Hm : Forall (fun d => d <= 0)
                       ((x0 - x0)
                        :: Metrics.zip_with Qminus
                             (Strategy.ewm_from
                                (2 / (inject_Z (Zpos fast) + 1)) x0 xs)
                             (Strategy.ewm_from
                                (2 / (inject_Z (Zpos slow) + 1)) x0 xs))).
        { constructor; [lra|].
          exact (ewm_from_gap_down _ _ xs x0 x0 x0 Hb Hba Ha (Qle_refl _)
                   (Qle_refl _) Hc). }
        split; [exact Hm|].
        inversion Hm as [|? ? H0 Hrest]; subst.
        constructor; [exact H0|].
        apply (ewm_from_closed (fun d => d <= 0)); [|exact H0|exact Hrest].
        intros x y. now apply convex_nonpos.
Qed.

Lemma macd_trend_witness :
  chain Qge [15; 13; 13; 11; 10; 10] /\
  Forall (fun d => d <= 0)
         (Oscillators.macd
            (Oscillators.add_macd 12 26 9 [15; 13; 13; 11; 10; 10])).
Proof.
  assert (Hc : chain Qge [15; 13; 13; 11; 10; 10]).
  { cbn. unfold Qge. repeat split; apply Qle_bool_iff; reflexivity. }
  split; [exact Hc|].
  destruct (macd_trend 12 26 9 [15; 13; 13; 11; 10; 10])
    as (_ & _ & Hdown); [reflexivity|].
  apply Hdown, Hc.
Defined.

Lemma fold_min_le (rest : list Q) (x : Q) :
  fold_left py_min rest x <= x /\
  Forall (fun y => fold_left py_min rest x <= y) rest.
Proof.
  revert x. induction rest as [|y rest IH]; intro x.
  - cbn. split; [apply Qle_refl|constructor].
  - cbn [fold_left]. destruct (IH (py_min x y)) as [H1 H2].
    pose proof (py_min_l x y). pose proof (py_min_r x y).
    split; [lra|]. constructor; [lra|exact H2].
Qed.

Lemma fold_max_ge (rest : list Q) (x : Q) :
  x <= fold_left py_max rest x /\
  Forall (fun y => y <= fold_left py_max rest x) rest.
Proof.
  revert x. induction rest as [|y rest IH]; intro x.
  - cbn. split; [apply Qle_refl|constructor].
  - cbn [fold_left]. destruct (IH (py_max x y)) as [H1 H2].
    pose proof (py_max_l x y). pose proof (py_max_r x y).
    split; [lra|]. constructor; [lra|exact H2].
Qed.

Lemma least_le (l : list Q) (m x : Q) :
  Oscillators.least l = Some m -> In x l -> m <= x.
Proof.
  destruct l as [|y rest]; [discriminate|]. cbn [Oscillators.least].
  intro E. injection E as <-. destruct (fold_min_le rest y) as [H1 H2].
  intros [<-|Hin]; [exact H1|].
  rewrite Forall_forall in H2. now apply H2.
Qed.

Lemma greatest_ge (l : list Q) (m x : Q) :
  Oscillators.greatest l = Some m -> In x l -> x <= m.
Proof.
  destruct l as [|y rest]; [discriminate|]. cbn [Oscillators.greatest].
  intro E. injection E as <-. destruct (fold_max_ge rest y) as [H1 H2].
  intros [<-|Hin]; [exact H1|].
  rewrite Forall_forall in H2. now apply H2.
Qed.

(** The last cell of a window is the cell at which it ends. *)
Lemma window_at_last {A : Type} (w i : nat) (s : list A) (x : A) :
  (0 < w)%nat -> (w <= S i)%nat ->
  nth_error s i = Some x -> In x (Indicators.window_at w i s).
Proof.
  intros Hw Hi Hx. unfold Indicators.window_at.
  apply (nth_error_In _ (w - 1)).
  rewrite nth_error_firstn.
  replace (w - 1 <? w)%nat with true by (symmetry; apply Nat.ltb_lt; lia).
  rewrite nth_error_skipn.
  now replace (S i - w + (w - 1))%nat with i by lia.
Qed.

Lemma rolling_nth (pick : list Q -> option Q) (w : nat) (s : list Q)
    (i : nat) :
  (i < List.length s)%nat ->
  nth_error (Oscillators.rolling pick w s) i
  = Some (if (0 <? w)%nat && (w <=? S i)%nat
          then pick (Indicators.window_at w i s) else None).
Proof.
  intro H. unfold Oscillators.rolling.
  rewrite nth_error_map, nth_error_seq.
  apply Nat.ltb_lt in H. rewrite H. reflexivity.
Qed.

Lemma rolling_length (pick : list Q -> option Q) (w : nat) (s : list Q) :
  List.length (Oscillators.rolling pick w s) = List.length s.
Proof. unfold Oscillators.rolling. now rewrite length_map, length_seq. Qed.

Lemma zip3_length {A B C D : Type} (f : A -> B -> C -> D) (a : list A)
    (b : list B) (c : list C) :
  List.length a = List.length b -> List.length a = List.length c ->
  List.length (Oscillators.zip3 f a b c) = List.length a.
Proof.
  revert b c. induction a as [|x a IH]; intros [|y b] [|z c] H1 H2;
    try reflexivity; try discriminate.
  cbn [Oscillators.zip3 List.length]. f_equal.
  apply IH; [now injection H1|now injection H2].
Qed.

Lemma zip3_nth_inv {A B C D : Type} (f : A -> B -> C -> D) (a : list A)
    (b : list B) (c : list C) (i : nat) (v : D) :
  nth_error (Oscillators.zip3 f a b c) i = Some v ->
  exists x y z,
    nth_error a i = Some x /\ nth_error b i = Some y /\
    nth_error c i = Some z /\ v = f x y z.
Proof.
  revert b c i. induction a as [|x a IH]; intros [|y b] [|z c] [|i] H;
    try discriminate.
  - cbn in H. injection H as <-. exists x, y, z. repeat split.
  - cbn [Oscillators.zip3 nth_error] in *. now apply IH.
Qed.

Lemma stoch_k_cell_ok (c lo hi : Q) :
  lo <= c -> c <= hi ->
  percent_ok (Oscillators.stoch_k_cell c (Some lo) (Some hi)).
Proof.
  intros H1 H2. unfold Oscillators.stoch_k_cell, Indicators.replace_zero.
  destruct (Qeq_bool (hi - lo) 0) eqn:E; [exact I|].
  apply Qeq_bool_neq in E. cbn [percent_ok].
  assert (Hden : 0 < hi - lo) by lra.
  split.
  - apply Qle_shift_div_l; [exact Hden|]. lra.
  - apply Qle_shift_div_r; [exact Hden|]. lra.
Qed.

Lemma numbers_ok (l : list (option Q)) (qs : list Q) :
  Oscillators.numbers l = Some qs ->
  Forall percent_ok l ->
  Forall (fun q => 0 <= q /\ q <= 100) qs /\
  List.length qs = List.length l.
Proof.
  revert qs. induction l as [|[q|] l IH]; intros qs H Hall.
  - injection H as <-. split; [constructor|reflexivity].
  - cbn [Oscillators.numbers] in H.
    destruct (Oscillators.numbers l) as [qs'|]; [|discriminate].
    injection H as <-. inversion Hall as [|? ? Hq Hl]; subst.
    destruct (IH qs' eq_refl Hl) as [H1 H2].
    split; [constructor; assumption|cbn; now rewrite H2].
  - discriminate.
Qed.

Lemma sumQ_percent (qs : list Q) :
  Forall (fun q => 0 <= q /\ q <= 100) qs ->
  0 <= Indicators.sumQ qs /\
  Indicators.sumQ qs <= 100 * inject_Z (Z.of_nat (List.length qs)).
Proof.
  induction 1 as [|q qs [H0 H1] _ [IH0 IH1]].
  - change (Indicators.sumQ []) with 0.
    change (inject_Z (Z.of_nat (List.length (@nil Q)))) with 0.
    split; lra.
  - change (Indicators.sumQ (q :: qs)) with (q + Indicators.sumQ qs).
    cbn [List.length]. rewrite Nat2Z.inj_succ, <- Z.add_1_r, inject_Z_plus.
    change (inject_Z 1) with 1. split; lra.
Qed.

(** X24.  On candles whose close lies between their low and their high,
    every cell of [stoch_k] and of [stoch_d] is [NaN] or a percentage from
    0 to 100, and both columns are as long as the frame. *)
Theorem stochastic_range (k_period d_period : nat)
    (df : list Oscillators.candle) :
  (0 < k_period)%nat -> (0 < d_period)%nat ->
  (forall c, In c df ->
     Oscillators.low c <= Oscillators.close c /\
     Oscillators.close c <= Oscillators.high c) ->
  let stoch := Oscillators.add_stochastic k_period d_period df in
  List.length (fst stoch) = List.length df /\
  List.length (snd stoch) = List.length df /\
  Forall percent_ok (fst stoch) /\
  Forall percent_ok (snd stoch).
Proof.
  intros Hk Hd Hdf stoch. subst stoch. unfold Oscillators.add_stochastic.
  cbn [fst snd].
  set (stoch_k := Oscillators.zip3 Oscillators.stoch_k_cell _ _ _).
  assert (Hlen : List.length stoch_k = List.length df).
  { subst stoch_k.
    rewrite zip3_length; rewrite ?rolling_length, !length_map; reflexivity. }
  assert (Hok : Forall percent_ok stoch_k).
  { apply Forall_forall. intros v Hin.
    apply In_nth_error in Hin as [i Hi]. subst stoch_k.
    apply zip3_nth_inv in Hi as (c & lo & hi & Hc & Hlo & Hhi & ->).
    rewrite nth_error_map in Hc.
    destruct (nth_error df i) as [cd|] eqn:Hcd; [|discriminate].
    cbn [option_map] in Hc. injection Hc as <-.
    assert (Hi : (i < List.length df)%nat)
      by (apply nth_error_Some; congruence).
    rewrite rolling_nth in Hlo, Hhi by (now rewrite length_map).
    injection Hlo as <-. injection Hhi as <-.
    destruct ((0 <? k_period)%nat && (k_period <=? S i)%nat) eqn:Hw;
      [|exact I].
    apply andb_prop in Hw as [_ Hw]. apply Nat.leb_le in Hw.
    destruct (Oscillators.least _) as [lo|] eqn:Elo; [|exact I].
    destruct (Oscillators.greatest _) as [hi|] eqn:Ehi; [|exact I].
    destruct (Hdf cd (nth_error_In _ _ Hcd)) as [H1 H2].
    assert (Hl : lo <= Oscillators.low cd).
    { apply (least_le _ _ _ Elo), (window_at_last k_period i); try assumption.
      now rewrite nth_error_map, Hcd. }
    assert (Hh : Oscillators.high cd <= hi).
    { apply (greatest_ge _ _ _ Ehi), (window_at_last k_period i);
        try assumption.
      now rewrite nth_error_map, Hcd. }
    apply stoch_k_cell_ok; lra. }
  split; [exact Hlen|]. split.
  { unfold Oscillators.rolling_mean_nan.
    now rewrite length_map, length_seq. }
  split; [exact Hok|].
  unfold Oscillators.rolling_mean_nan. apply Forall_forall. intros v Hin.
  apply in_map_iff in Hin as [i [<- _]].
  destruct ((0 <? d_period)%nat && (d_period <=? S i)%nat); [|exact I].
  destruct (Oscillators.numbers _) as [qs|] eqn:Eqs; [|exact I].
  destruct (numbers_ok _ _ Eqs (window_at_Forall _ d_period i _ Hok))
    as [Hqs Hl].
  destruct (sumQ_percent qs Hqs) as [H0 H1].
  assert (Hle : (List.length qs <= d_period)%nat).
  { rewrite Hl. apply firstn_le_length. }
  assert (Hpos : 0 < inject_Z (Z.of_nat d_period)).
  { change 0 with (inject_Z 0). rewrite <- Zlt_Qlt. lia. }
  assert (Hq : inject_Z (Z.of_nat (List.length qs))
               <= inject_Z (Z.of_nat d_period)).
  { rewrite <- Zle_Qle. lia. }
  cbn [percent_ok]. split.
  - apply Qle_shift_div_l; [exact Hpos|]. lra.
  - apply Qle_shift_div_r; [exact Hpos|]. lra.
Qed.

Lemma stochastic_range_witness :
  fst (Oscillators.add_stochastic 2 2 sample_candles)
  = [None; Some (300 # 4); Some (100 # 3); Some (300 # 4)] /\
  Forall percent_ok (snd (Oscillators.add_stochastic 2 2 sample_candles)).
Proof.
  split; [reflexivity|].
  apply (stochastic_range 2 2 sample_candles).
  - lia.
  - lia.
  - intros c Hin. cbn in Hin.
    repeat (destruct Hin as [<-|Hin];
            [cbn; split; apply Qle_bool_iff; reflexivity|]).
    destruct Hin.
Defined.
